(** * orbitiq: crosswalk, cached TLE retrieval and orbital-element derivation

    A shallow embedding of [src/crosswalk.py], [src/n2yo_client.py] and
    [src/tle_parse.py], with the properties of the specification stated
    and proved over it.

    Conventions of the embedding.
    - Python text is a [string] of ASCII characters: international
      designators and two-line element sets are ASCII.  The character
      classes below are the ASCII part of [str.upper], [str.isspace] and
      [str.splitlines].
    - A call that can raise returns a [result]: [Raise e] or [Return v].
    - Third-party libraries (pandas, tenacity, requests, json, sgp4) are not
      part of the repository; the few functions the code calls are modelled
      after their documented behaviour, each next to its use.
    - pandas is modelled as in the 2.x series, where [astype(str)] applies
      [str] to every element, missing ones included. *)

From Stdlib Require Import ZArith QArith Reals Lra Lia.
From Stdlib Require Import Ascii String DecimalString.
From stdpp Require Import base option list gmap strings.

Open Scope string_scope.
Open Scope list_scope.

(* ================================================================== *)
(** * Python values shared by the three modules *)
(* ================================================================== *)

(** The exceptions that occur in the modelled code. *)
Inductive exn : Type :=
| ValueError (msg : string)
| KeyError (key : string)
| TypeError (msg : string)
| ZeroDivisionError
| ConnectionError (msg : string)
| HTTPError (status : Z)
| JSONDecodeError
| RetryError (last : exn).

Inductive result (A : Type) : Type :=
| Raise (e : exn)
| Return (v : A).
Arguments Raise {A} e.
Arguments Return {A} v.

Definition bind {A B} (r : result A) (k : A -> result B) : result B :=
  match r with
  | Raise e => Raise e
  | Return v => k v
  end.

Declare Scope py_scope.
Delimit Scope py_scope with py.
Notation "'do' x <- r ; k" := (bind r (fun x => k))
  (at level 10, x name, r at level 100, k at level 200) : py_scope.

(** [str(z)] for an integer. *)
Definition decimal (z : Z) : string := NilZero.string_of_int (Z.to_int z).

(** ** Text: [str.upper], [str.isspace], [str.strip], [str.splitlines] *)

Definition upper_char (c : ascii) : ascii :=
  let n := nat_of_ascii c in
  if (97 <=? n)%nat && (n <=? 122)%nat then ascii_of_nat (n - 32) else c.

(** [str.isspace] on ASCII: TAB, LF, VT, FF, CR, FS, GS, RS, US and space. *)
Definition isspace (c : ascii) : bool :=
  let n := nat_of_ascii c in
  ((9 <=? n)%nat && (n <=? 13)%nat) || ((28 <=? n)%nat && (n <=? 31)%nat) || (n =? 32)%nat.

Fixpoint upper (s : string) : string :=
  match s with
  | EmptyString => EmptyString
  | String c r => String (upper_char c) (upper r)
  end.

(** [re.sub(r"\s+", "", s)]: every maximal run of whitespace is replaced by
    the empty string, which deletes exactly the whitespace characters. *)
Fixpoint remove_whitespace (s : string) : string :=
  match s with
  | EmptyString => EmptyString
  | String c r => if isspace c then remove_whitespace r else String c (remove_whitespace r)
  end.

Fixpoint lstrip (s : string) : string :=
  match s with
  | EmptyString => EmptyString
  | String c r => if isspace c then lstrip r else s
  end.

Fixpoint rstrip (s : string) : string :=
  match s with
  | EmptyString => EmptyString
  | String c r =>
      match rstrip r with
      | EmptyString => if isspace c then EmptyString else String c EmptyString
      | r' => String c r'
      end
  end.

Definition strip (s : string) : string := rstrip (lstrip s).

Definition is_empty (s : string) : bool :=
  match s with EmptyString => true | _ => false end.

(** Line boundaries of [str.splitlines] on ASCII: LF, VT, FF, CR, FS, GS, RS;
    CR LF counts as one boundary. *)
Definition is_linebreak (c : ascii) : bool :=
  let n := nat_of_ascii c in
  ((10 <=? n)%nat && (n <=? 13)%nat) || ((28 <=? n)%nat && (n <=? 30)%nat).

Definition is_cr (c : ascii) : bool := (nat_of_ascii c =? 13)%nat.
Definition is_lf (c : ascii) : bool := (nat_of_ascii c =? 10)%nat.

(** [splitlines_from cur s]: [cur] is the line read so far, reversed. *)
Fixpoint splitlines_from (cur : list ascii) (s : string) : list string :=
  match s with
  | EmptyString =>
      match cur with
      | [] => []
      | _ => [string_of_list_ascii (rev cur)]
      end
  | String c r =>
      if is_linebreak c then
        let rest :=
          match r with
          | String d r' => if is_cr c && is_lf d then r' else r
          | EmptyString => r
          end in
        string_of_list_ascii (rev cur) :: splitlines_from [] rest
      else splitlines_from (c :: cur) r
  end.

(* ================================================================== *)
(** * pandas: the part of the data-frame interface used by the crosswalk *)
(* ================================================================== *)

(** A cell of a frame.  [NaN], [PyNone] and [NA] are the three missing
    markers ([float("nan")], [None], [pd.NA]); whole-valued numbers are
    [Int]. *)
Inductive cell : Type :=
| NaN
| PyNone
| NA
| Str (s : string)
| Int (z : Z).

#[global] Instance cell_eq_dec : EqDecision cell.
Proof. solve_decision. Defined.

(** [pd.isna] *)
Definition isna (c : cell) : bool :=
  match c with
  | NaN | PyNone | NA => true
  | Str _ | Int _ => false
  end.

(** [str(x)] for a cell. *)
Definition py_str (c : cell) : string :=
  match c with
  | NaN => "nan"
  | PyNone => "None"
  | NA => "<NA>"
  | Str s => s
  | Int z => decimal z
  end.

Definition Series : Type := list cell.

(** A frame: column labels and rows, each row aligned with the labels.
    Labels are taken to be distinct, as [read_csv] produces them. *)
Record DataFrame : Type := mkFrame {
  columns : list string;
  rows : list (list cell)
}.

Fixpoint index_of (c : string) (cols : list string) : option nat :=
  match cols with
  | [] => None
  | d :: cols' => if String.eqb c d then Some 0%nat else option_map S (index_of c cols')
  end.

(** [c in df.columns] *)
Definition has_column (c : string) (df : DataFrame) : bool :=
  match index_of c (columns df) with Some _ => true | None => false end.

Definition cell_at (i : nat) (r : list cell) : cell := nth i r NaN.

(** [df[c]] *)
Definition getitem (df : DataFrame) (c : string) : result Series :=
  match index_of c (columns df) with
  | Some i => Return (map (cell_at i) (rows df))
  | None => Raise (KeyError c)
  end.

(** [df[c] = s]: overwrite the column when it exists, append it otherwise. *)
Definition setitem (df : DataFrame) (c : string) (s : Series) : DataFrame :=
  match index_of c (columns df) with
  | Some i => mkFrame (columns df) (zip_with (fun r v => <[i:=v]> r) (rows df) s)
  | None => mkFrame (columns df ++ [c]) (zip_with (fun r v => r ++ [v]) (rows df) s)
  end.

(** [series.astype(str)] *)
Definition astype_str (s : Series) : Series := map (fun c => Str (py_str c)) s.

(** A method of the [.str] accessor: applied to strings, NaN elsewhere. *)
Definition str_method (f : string -> string) (s : Series) : Series :=
  map (fun c => match c with Str x => Str (f x) | _ => NaN end) s.

(** [df.dropna(subset=cols)]: keep the rows with no missing cell in [cols]. *)
Definition complete_at (idx : list nat) (r : list cell) : bool :=
  forallb (fun i => negb (isna (cell_at i r))) idx.

Fixpoint indices_of (cols : list string) (all : list string) : result (list nat) :=
  match cols with
  | [] => Return []
  | c :: cols' =>
      match index_of c all with
      | None => Raise (KeyError c)
      | Some i => (do rest <- indices_of cols' all; Return (i :: rest))%py
      end
  end.

Definition dropna (subset : list string) (df : DataFrame) : result DataFrame :=
  (do idx <- indices_of subset (columns df);
   Return (mkFrame (columns df)
             (filter (fun r => Is_true (complete_at idx r)) (rows df))))%py.

(** [df.rename(columns={old: new})]; a label that is absent is ignored. *)
Definition rename (old new : string) (df : DataFrame) : DataFrame :=
  mkFrame (map (fun c => if String.eqb c old then new else c) (columns df)) (rows df).

(** [df[cols]]: the projection on [cols], in that order. *)
Definition select (cols : list string) (df : DataFrame) : result DataFrame :=
  (do idx <- indices_of cols (columns df);
   Return (mkFrame cols (map (fun r => map (fun i => cell_at i r) idx) (rows df))))%py.

(** [df.drop(columns=[c])] *)
Definition drop_column (c : string) (df : DataFrame) : result DataFrame :=
  match index_of c (columns df) with
  | None => Raise (KeyError c)
  | Some i => Return (mkFrame (delete i (columns df)) (map (delete i) (rows df)))
  end.

(** [pd.to_numeric(s, errors="coerce")].  The grammar of numeric text is
    pandas' own; it is a parameter.  A value that is not a number becomes
    NaN, here [None]. *)
Class NumericParser := parse_number : string -> option Q.

Definition to_numeric_cell `{NumericParser} (c : cell) : option Q :=
  match c with
  | Int z => Some (inject_Z z)
  | Str x => parse_number x
  | NaN | PyNone | NA => None
  end.

Definition to_numeric_coerce `{NumericParser} (s : Series) : list (option Q) :=
  map to_numeric_cell s.

(** [.astype("Int64")] on a float column: NaN becomes [pd.NA], a whole number
    becomes an integer, any other number is refused. *)
Definition unsafe_cast : exn :=
  TypeError "cannot safely cast non-equivalent float64 to int64".

Definition to_Int64 (v : option Q) : result cell :=
  match v with
  | None => Return NA
  | Some q =>
      if (Qden (Qred q) =? 1)%positive then Return (Int (Qnum (Qred q)))
      else Raise unsafe_cast
  end.

Fixpoint astype_Int64 (s : list (option Q)) : result Series :=
  match s with
  | [] => Return []
  | v :: s' => (do c <- to_Int64 v; do cs <- astype_Int64 s'; Return (c :: cs))%py
  end.

(** [left.merge(right, left_on=, right_on=, how="left")].  Rows follow the
    order of [left]; a left row is paired with every right row of equal key,
    in the order of [right], and with missing cells when there is none (NaN
    here; pandas writes [pd.NA] instead in a nullable integer column).
    Labels present on both sides get the suffixes [_x] and [_y]. *)
Definition with_suffix (own other : list string) (sfx : string) : list string :=
  map (fun c => match index_of c other with Some _ => (c ++ sfx)%string | None => c end) own.

Definition matches (key : cell) (j : nat) (right_rows : list (list cell)) : list (list cell) :=
  filter (fun r => cell_at j r = key) right_rows.

Definition join_row (width : nat) (ms : list (list cell)) (l : list cell) : list (list cell) :=
  match ms with
  | [] => [l ++ replicate width NaN]
  | _ => map (fun r => l ++ r) ms
  end.

Definition merge_left (left right : DataFrame) (left_on right_on : string)
  : result DataFrame :=
  match index_of left_on (columns left), index_of right_on (columns right) with
  | Some i, Some j =>
      Return (mkFrame
        (with_suffix (columns left) (columns right) "_x"
           ++ with_suffix (columns right) (columns left) "_y")
        (flat_map (fun l => join_row (length (columns right))
                              (matches (cell_at i l) j (rows right)) l)
                  (rows left)))
  | None, _ => Raise (KeyError left_on)
  | _, None => Raise (KeyError right_on)
  end.

(* ================================================================== *)
(** * crosswalk.py *)
(* ================================================================== *)

Definition normalize_intldes (series : Series) : Series :=
  str_method strip
    (str_method remove_whitespace
       (str_method upper (astype_str series))).

Definition build_satcat_crosswalk `{NumericParser} (satcat_df : DataFrame)
  : result DataFrame :=
  let df := satcat_df in
  if negb (has_column "INTLDES" df) || negb (has_column "NORAD_CAT_ID" df) then
    Raise (ValueError "satcat_df must contain columns INTLDES and NORAD_CAT_ID")
  else
    (do des <- getitem df "INTLDES";
     let df := setitem df "INTLDES" (normalize_intldes des) in
     do df <- dropna ["INTLDES"; "NORAD_CAT_ID"] df;
     let df := rename "NORAD_CAT_ID" "norad_id" df in
     do ids <- getitem df "norad_id";
     do ids <- astype_Int64 (to_numeric_coerce ids);
     let df := setitem df "norad_id" ids in
     select ["INTLDES"; "norad_id"; "SATNAME"; "COUNTRY"; "LAUNCH"; "DECAY"] df)%py.

Definition merge_unoosa_with_crosswalk (unoosa_df satcat_crosswalk : DataFrame)
    (unoosa_intldes_col : string) : result DataFrame :=
  if negb (has_column unoosa_intldes_col unoosa_df) then
    Raise (ValueError ("UNOOSA dataframe lacks column: " ++ unoosa_intldes_col)%string)
  else
    let df := unoosa_df in
    (do des <- getitem df unoosa_intldes_col;
     let df := setitem df "intldes" (normalize_intldes des) in
     do merged <- merge_left df satcat_crosswalk "intldes" "INTLDES";
     do merged <- drop_column "INTLDES" merged;
     Return (rename "SATNAME" "satcat_satname" merged))%py.

(** The default of [unoosa_intldes_col]. *)
Definition default_intldes_col : string := "international_designator".

(** A sample grammar of numeric text, for concrete evaluations: an optional
    minus sign, digits, and an optional fraction. *)
Fixpoint digits_value (acc : Z) (scale : Z) (s : string) : option (Z * Z) :=
  match s with
  | EmptyString => Some (acc, scale)
  | String c r =>
      let n := Z.of_nat (nat_of_ascii c) in
      if (48 <=? n)%Z && (n <=? 57)%Z then digits_value (10 * acc + (n - 48)) (10 * scale) r
      else None
  end.

Fixpoint split_at_dot (s : string) : string * option string :=
  match s with
  | EmptyString => (EmptyString, None)
  | String c r =>
      if (nat_of_ascii c =? 46)%nat then (EmptyString, Some r)
      else let '(a, b) := split_at_dot r in (String c a, b)
  end.

Definition unsigned_decimal (s : string) : option Q :=
  let '(whole, frac) := split_at_dot s in
  if is_empty whole then None else
  match digits_value 0 1 whole, frac with
  | Some (w, _), None => Some (inject_Z w)
  | Some (w, _), Some f =>
      match digits_value 0 1 f with
      | Some (n, scale) => Some (Qred (inject_Z w + Qmake n (Z.to_pos scale)))
      | None => None
      end
  | None, _ => None
  end.

Definition decimal_parser : NumericParser :=
  fun s =>
    match s with
    | String "-" r => option_map Qopp (unsigned_decimal r)
    | _ => unsigned_decimal s
    end.

(* ================================================================== *)
(** * n2yo_client.py *)
(* ================================================================== *)

(** ** The world the client acts on

    The cache directory is a finite map from path to file content.  The
    tracking service is the list of answers it will give to the coming
    requests, first request first; an exhausted list refuses connections.
    Every effect the client has on the outside is appended to [log]. *)

(** [json.loads] and [json.dumps]; [loads] is [None] where Python raises. *)
Class Json := {
  json : Type;
  loads : string -> option json;
  dumps : json -> string
}.

Inductive response : Type :=
| NoResponse (msg : string)            (* [session.get] raises *)
| Response (status : Z) (body : string).

Inductive sleeper : Type := Politeness | Backoff.

Inductive event : Type :=
| Get (url : string)
| Sleep (who : sleeper) (seconds : Q)
| WriteText (path : string) (text : string).

Record world : Type := mkWorld {
  files : gmap string string;
  service : list response;
  log : list event
}.

Definition IO (A : Type) : Type := world -> result A * world.

Definition ret {A} (v : A) : IO A := fun w => (Return v, w).
Definition raise {A} (e : exn) : IO A := fun w => (Raise e, w).
Definition io_bind {A B} (m : IO A) (k : A -> IO B) : IO B :=
  fun w => match m w with
           | (Raise e, w') => (Raise e, w')
           | (Return v, w') => k v w'
           end.

Declare Scope io_scope.
Delimit Scope io_scope with io.
Notation "x <- m ;; k" := (io_bind m (fun x => k))
  (at level 100, m at next level, right associativity) : io_scope.
Notation "m ;; k" := (io_bind m (fun _ => k))
  (at level 100, right associativity) : io_scope.

Definition emit (e : event) (w : world) : world :=
  mkWorld (files w) (service w) (log w ++ [e]).

(** [time.sleep] *)
Definition sleep (who : sleeper) (seconds : Q) : IO unit :=
  fun w => (Return tt, emit (Sleep who seconds) w).

(** [session.get(url, timeout=20)] *)
Definition session_get (url : string) : IO (Z * string) :=
  fun w =>
    let w' := emit (Get url) w in
    match service w with
    | [] => (Raise (ConnectionError "connection refused"), w')
    | NoResponse msg :: rest =>
        (Raise (ConnectionError msg), mkWorld (files w') rest (log w'))
    | Response status body :: rest =>
        (Return (status, body), mkWorld (files w') rest (log w'))
    end.

(** [resp.raise_for_status()]: client and server errors raise. *)
Definition raise_for_status (resp : Z * string) : IO unit :=
  if (400 <=? fst resp)%Z && (fst resp <? 600)%Z then raise (HTTPError (fst resp))
  else ret tt.

(** [resp.json()] *)
Definition response_json `{Json} (resp : Z * string) : IO json :=
  match loads (snd resp) with
  | Some data => ret data
  | None => raise JSONDecodeError
  end.

(** [path.write_text(text)] *)
Definition write_text (path text : string) : IO unit :=
  fun w => (Return tt,
            mkWorld (<[path:=text]> (files w)) (service w) (log w ++ [WriteText path text])).

(** Lines 51-56: [Some data] when the cache file exists and parses, [None]
    when it is absent or [json.loads] raises. *)
Definition read_cache `{Json} (path : string) : IO (option json) :=
  fun w =>
    match files w !! path with
    | Some text => (Return (loads text), w)
    | None => (Return None, w)
    end.

Record N2YOClient : Type := mkClient {
  api_key : string;
  base_url : string;
  cache_dir : string;
  polite_delay_seconds : Q
}.

(** The defaults of [__init__], the key being given. *)
Definition default_client (key : string) : N2YOClient :=
  mkClient key "https://api.n2yo.com/rest/v1/satellite" "cache_tle" (1 # 4).

Definition cache_path (self : N2YOClient) (norad_id : Z) : string :=
  (cache_dir self ++ "/" ++ decimal norad_id ++ ".json")%string.

Definition tle_url (self : N2YOClient) (norad_id : Z) : string :=
  (base_url self ++ "/tle/" ++ decimal norad_id ++ "&apiKey=" ++ api_key self)%string.

(** One pass through the body of [get_tle], without the decorator. *)
Definition get_tle_attempt `{Json} (self : N2YOClient) (norad_id : Z) : IO json :=
  (cached <- read_cache (cache_path self norad_id) ;;
   match cached with
   | Some data => ret data
   | None =>
       resp <- session_get (tle_url self norad_id) ;;
       raise_for_status resp ;;
       data <- response_json resp ;;
       sleep Politeness (polite_delay_seconds self) ;;
       write_text (cache_path self norad_id) (dumps data) ;;
       ret data
   end)%io.

(** ** tenacity

    [wait_exponential(multiplier, min, max)] waits
    [multiplier * 2 ** (attempt_number - 1)] seconds after the attempt
    numbered [attempt_number] (from 1), clamped to [min .. max]. *)
Definition Qmax (a b : Q) : Q := if Qle_bool a b then b else a.
Definition Qmin (a b : Q) : Q := if Qle_bool a b then a else b.

Definition wait_exponential (multiplier min max : Q) (attempt_number : nat) : Q :=
  Qmax (Qmax 0 min)
       (Qmin (multiplier * inject_Z (2 ^ Z.of_nat (attempt_number - 1))) max).

(** [retry(wait=..., stop=stop_after_attempt(n))]: call [f]; when it raises
    and [attempt_number < n], sleep [wait attempt_number] and call it
    again; when it raises at attempt [n], raise [RetryError] holding that
    last exception.  [remaining] is [n - attempt_number]. *)
Fixpoint retry_loop {A} (wait : nat -> Q) (remaining attempt_number : nat)
    (f : IO A) : IO A :=
  fun w =>
    match f w with
    | (Return v, w') => (Return v, w')
    | (Raise e, w') =>
        match remaining with
        | O => (Raise (RetryError e), w')
        | S remaining' =>
            retry_loop wait remaining' (S attempt_number) f
              (emit (Sleep Backoff (wait attempt_number)) w')
        end
    end.

Definition retry {A} (wait : nat -> Q) (stop_after_attempt : nat) (f : IO A) : IO A :=
  retry_loop wait (stop_after_attempt - 1) 1 f.

Definition get_tle `{Json} (self : N2YOClient) (norad_id : Z) : IO json :=
  retry (wait_exponential 1 1 60) 5 (get_tle_attempt self norad_id).

(** A sample [Json]: a payload is the text of a JSON object, taken as is. *)
Definition braces_json : Json :=
  {| json := string;
     loads := fun s => match s with String "{" _ => Some s | _ => None end;
     dumps := fun d => d |}.

(* ================================================================== *)
(** * tle_parse.py *)
(* ================================================================== *)

(** ** Python floats

    The arithmetic of [parse_tle_fields] is written over an interface, so
    that the control flow of the function is kept apart from the rounding of
    binary floating point.  [fdiv] and [fpow] are partial as in Python:
    dividing by zero raises [ZeroDivisionError], and a negative base with a
    fractional exponent gives a complex number. *)
Inductive number (F : Type) : Type :=
| Real (x : F)
| Complex.
Arguments Real {F} x.
Arguments Complex {F}.

Class FloatOps := {
  float : Type;
  lit : Q -> float;                           (* a literal such as [1440.0] *)
  nan : float;                                (* [np.nan] *)
  pi : float;                                 (* [np.pi] *)
  fadd : float -> float -> float;
  fsub : float -> float -> float;
  fmul : float -> float -> float;
  fdiv : float -> float -> result float;
  fpow : float -> float -> result (number float);
  isnan : float -> bool;                      (* [np.isnan] *)
  nonzero : float -> bool;                    (* truth value of a float *)
  degrees : float -> float                    (* [np.degrees] *)
}.

(** [datetime.fromtimestamp(t, tz=timezone.utc)] followed by [isoformat()];
    the conversion raises outside the range of [datetime]. *)
Class DateTime `{FloatOps} := utc_isoformat : float -> result string.

(** The fields of [sgp4.api.Satrec] that the function reads. *)
Record Satrec `{FloatOps} : Type := mkSatrec {
  jdsatepoch : float;
  jdsatepochF : float;
  no_kozai : float;
  ecco : float;
  inclo : float;
  nodeo : float;
  argpo : float;
  mo : float
}.

(** [Satrec.twoline2rv(l1, l2)] *)
Class Sgp4 `{FloatOps} := twoline2rv : string -> string -> result Satrec.

(** Arithmetic on a value that may have become complex. *)
Definition ndiv `{FloatOps} (a b : number float) : result (number float) :=
  match a, b with
  | Real x, Real y => (do q <- fdiv x y; Return (Real q))%py
  | Complex, Real y => if nonzero y then Return Complex else Raise ZeroDivisionError
  | _, Complex => Return Complex
  end.

Definition nmul `{FloatOps} (a : number float) (y : float) : number float :=
  match a with Real x => Real (fmul x y) | Complex => Complex end.

Definition nsub `{FloatOps} (a : number float) (y : float) : number float :=
  match a with Real x => Real (fsub x y) | Complex => Complex end.

(** [float(x)] *)
Definition to_float `{FloatOps} (a : number float) : result float :=
  match a with
  | Real x => Return x
  | Complex => Raise (TypeError "float() argument must be a string or a real number, not 'complex'")
  end.

(** [try: e except Exception: d] *)
Definition try_except {A} (e : result A) (d : A) : A :=
  match e with Return v => v | Raise _ => d end.

(** The argument of [parse_tle_fields]: what a cell of the [tle_one_line]
    column can hold. *)
Inductive pyobj `{FloatOps} : Type :=
| PyNoneObj
| PyStr (s : string)
| PyInt (z : Z)
| PyFloat (x : float).

(** [bool(x)] *)
Definition truthy `{FloatOps} (x : pyobj) : bool :=
  match x with
  | PyNoneObj => false
  | PyStr s => negb (is_empty s)
  | PyInt z => negb (z =? 0)%Z
  | PyFloat f => nonzero f
  end.

(** [isinstance(x, str)] *)
Definition isinstance_str `{FloatOps} (x : pyobj) : bool :=
  match x with PyStr _ => true | _ => false end.

Inductive value `{FloatOps} : Type :=
| VStr (s : string)
| VFloat (x : float).

(** A [dict] with string keys, in insertion order; [{}] is [[]]. *)
Definition dict `{FloatOps} : Type := list (string * value).

Fixpoint dict_get `{FloatOps} (k : string) (d : dict) : option value :=
  match d with
  | [] => None
  | (k', v) :: d' => if String.eqb k k' then Some v else dict_get k d'
  end.

Definition splitlines (s : string) : list string := splitlines_from [] s.

(** [[ln.strip() for ln in text.splitlines() if ln.strip()]] *)
Definition nonblank_lines (text : string) : list string :=
  map strip (List.filter (fun ln => negb (is_empty (strip ln))) (splitlines text)).

Definition mu_earth : Q := 3986004418 # 10000.
Definition earth_radius_km : Q := 6378137 # 1000.

(** Lines 28-29: the epoch in seconds since 1970. *)
Definition epoch_unix_of `{FloatOps} (sat : Satrec) : float :=
  let jd := fadd (jdsatepoch sat) (jdsatepochF sat) in
  fmul (fsub jd (lit (24405875 # 10))) (lit 86400).

(** Lines 28-64, for a parsed [sat].  The [try] of lines 54-59 around the
    perigee and the apogee guards products and differences, which raise
    nothing; it leaves no trace here. *)
Definition derive_features `{FloatOps} `{!DateTime} (sat : Satrec) : result dict :=
  let epoch_unix := epoch_unix_of sat in
  (do tle_epoch <- utc_isoformat epoch_unix;
   let mean_motion_rev_per_day :=
     try_except (fdiv (fmul (no_kozai sat) (lit 1440)) (fmul (lit 2) pi)) nan in
   let semi_major_axis_km :=
     try_except
       (do n_rad_s <- fdiv (fmul (fmul mean_motion_rev_per_day (lit 2)) pi) (lit 86400);
        do one_third <- fdiv (lit 1) (lit 3);
        do numerator <- fpow (lit mu_earth) one_third;
        do two_thirds <- fdiv (lit 2) (lit 3);
        do denominator <- fpow n_rad_s two_thirds;
        ndiv numerator denominator)
       (Real nan) in
   let ecc := ecco sat in
   let perigee_km :=
     nsub (nmul semi_major_axis_km (fsub (lit 1) ecc)) (lit earth_radius_km) in
   let apogee_km :=
     nsub (nmul semi_major_axis_km (fadd (lit 1) ecc)) (lit earth_radius_km) in
   do period_min <-
     (if nonzero mean_motion_rev_per_day && negb (isnan mean_motion_rev_per_day)
      then fdiv (lit 1440) mean_motion_rev_per_day
      else Return nan);
   do semi_major_axis <- to_float semi_major_axis_km;
   do perigee <- to_float perigee_km;
   do apogee <- to_float apogee_km;
   Return
     [("tle_epoch", VStr tle_epoch);
      ("inclination_deg", VFloat (degrees (inclo sat)));
      ("raan_deg", VFloat (degrees (nodeo sat)));
      ("argp_deg", VFloat (degrees (argpo sat)));
      ("mean_anomaly_deg", VFloat (degrees (mo sat)));
      ("eccentricity", VFloat ecc);
      ("mean_motion_rev_per_day", VFloat mean_motion_rev_per_day);
      ("period_min", VFloat period_min);
      ("semi_major_axis_km", VFloat semi_major_axis);
      ("perigee_km", VFloat perigee);
      ("apogee_km", VFloat apogee)])%py.

Definition parse_tle_fields `{FloatOps} `{!DateTime} `{!Sgp4} (tle_one_line : pyobj)
  : result dict :=
  if negb (truthy tle_one_line) || negb (isinstance_str tle_one_line) then Return []
  else
    match tle_one_line with
    | PyStr text =>
        let lines := nonblank_lines text in
        if (length lines <? 2)%nat then Return []
        else
          match lines with
          | l1 :: l2 :: _ =>
              match twoline2rv l1 l2 with
              | Raise _ => Return []
              | Return sat => derive_features sat
              end
          | _ => Return []
          end
    | _ => Return []
    end.

(** ** Floats read as real numbers

    [None] is NaN.  Rounding and the infinities are left out: the margins of
    the numerical statements below are many orders of magnitude above one
    unit in the last place of a double. *)
Definition lift2 (f : R -> R -> R) (a b : option R) : option R :=
  match a, b with
  | Some x, Some y => Some (f x y)
  | _, _ => None
  end.

Definition real_div (a b : option R) : result (option R) :=
  match b with
  | Some y => if Req_dec_T y 0 then Raise ZeroDivisionError else Return (lift2 Rdiv a b)
  | None => Return None
  end.

(** [x ** y] as [float_pow] of CPython decides it. *)
Definition real_pow (a b : option R) : result (number (option R)) :=
  match a, b with
  | Some x, Some y =>
      if Req_dec_T y 0 then Return (Real (Some 1%R))
      else if Req_dec_T x 0 then
        if Rlt_dec y 0 then Raise ZeroDivisionError else Return (Real (Some 0%R))
      else if Rlt_dec x 0 then
        if Req_dec_T (IZR (Int_part y)) y
        then Return (Real (Some (powerRZ x (Int_part y))))
        else Return Complex
      else Return (Real (Some (Rpower x y)))
  | None, Some y =>
      if Req_dec_T y 0 then Return (Real (Some 1%R)) else Return (Real None)
  | Some x, None =>
      if Req_dec_T x 1 then Return (Real (Some 1%R)) else Return (Real None)
  | None, None => Return (Real None)
  end.

Definition real_floats : FloatOps :=
  {| float := option R;
     lit := fun q => Some (Q2R q);
     nan := None;
     pi := Some PI;
     fadd := lift2 Rplus;
     fsub := lift2 Rminus;
     fmul := lift2 Rmult;
     fdiv := real_div;
     fpow := real_pow;
     isnan := fun a => match a with None => true | Some _ => false end;
     nonzero := fun a => match a with
                         | Some x => if Req_dec_T x 0 then false else true
                         | None => true
                         end;
     degrees := fun a => match a with
                         | Some x => Some (x * (180 / PI))%R
                         | None => None
                         end |}.

(** A float that is the real number [x]. *)
Definition finite (x : R) : @float real_floats := Some x.

(** Sample collaborators for concrete evaluations: a clock that prints one
    fixed instant, and a parser that accepts a pair of lines starting with
    the line numbers 1 and 2 and reads from them the orbit written in
    [sample_tle] below: epoch 2024-01-01 12:00 UTC, 15.5 revolutions per day,
    eccentricity 0.0001. *)
Definition fixed_clock : @DateTime real_floats :=
  fun _ => Return "2024-01-01T12:00:00+00:00".

Definition radians (deg : R) : R := (deg * PI / 180)%R.

Definition sample_satrec : @Satrec real_floats :=
  @mkSatrec real_floats
    (Some 2460310.5%R) (Some 0.5%R)
    (Some (15.5 * (2 * PI) / 1440)%R) (Some 0.0001%R)
    (Some (radians 51.64)) (Some (radians 208.9163))
    (Some (radians 69.9862)) (Some (radians 25.2906)).

Definition line_number_parser : @Sgp4 real_floats :=
  fun l1 l2 =>
    match l1, l2 with
    | String "1" _, String "2" _ => Return sample_satrec
    | _, _ => Raise (ValueError "not a two-line element set")
    end.

(* ================================================================== *)
(** * Vocabulary of the statements *)
(* ================================================================== *)

(** ** Text and frames *)

(** No character of [s] is whitespace. *)
Fixpoint spaceless (s : string) : bool :=
  match s with
  | EmptyString => true
  | String c r => negb (isspace c) && spaceless r
  end.

(** What [normalize_intldes] does to the text of one cell. *)
Definition normal_form (s : string) : string := strip (remove_whitespace (upper s)).

(** Every row has one cell per column label. *)
Definition frame_ok (df : DataFrame) : Prop :=
  forallb (fun r => (length r =? length (columns df))%nat) (rows df) = true.

(** The designator cell after [normalize_intldes]. *)
Definition normal_cell (c : cell) : cell := Str (normal_form (py_str c)).

(** A number that [astype("Int64")] accepts: NaN or a whole number. *)
Definition whole (v : option Q) : bool :=
  match v with
  | None => true
  | Some q => (Qden (Qred q) =? 1)%positive
  end.

Definition Int64_of (v : option Q) : cell :=
  match v with
  | None => NA
  | Some q => Int (Qnum (Qred q))
  end.

(** The crosswalk row made from the catalog row [r], the six fields being
    at the positions [i], [j], [k1] .. [k4] of the catalog. *)
Definition crosswalk_row `{NumericParser} (i j k1 k2 k3 k4 : nat) (r : list cell)
  : list cell :=
  [normal_cell (cell_at i r); Int64_of (to_numeric_cell (cell_at j r));
   cell_at k1 r; cell_at k2 r; cell_at k3 r; cell_at k4 r].

Definition crosswalk_columns : list string :=
  ["INTLDES"; "norad_id"; "SATNAME"; "COUNTRY"; "LAUNCH"; "DECAY"].

(** The external row [l] once line 44 has stored its normalized designator
    (read at position [p]) under the label intldes. *)
Definition with_key (unoosa_df : DataFrame) (p : nat) (l : list cell) : list cell :=
  match index_of "intldes" (columns unoosa_df) with
  | Some q => <[q := normal_cell (cell_at p l)]> l
  | None => l ++ [normal_cell (cell_at p l)]
  end.

(** The catalog fields joined to one external row: those of every crosswalk
    row in [ms], the designator column [j] removed, or missing cells when
    [ms] is empty. *)
Definition catalog_part (j width : nat) (ms : list (list cell)) : list (list cell) :=
  match ms with
  | [] => [replicate (width - 1) NaN]
  | _ => map (delete j) ms
  end.

(** [r] is not the schema error of the two guards. *)
Definition not_value_error {A} (r : result A) : Prop :=
  forall msg, r <> Raise (ValueError msg).

(** Sample frames. *)
Definition sample_catalog : DataFrame :=
  mkFrame ["INTLDES"; "NORAD_CAT_ID"; "SATNAME"; "COUNTRY"; "LAUNCH"; "DECAY"; "RCS"]
    [[Str " 1998-067a "; Int 25544; Str "ISS (ZARYA)"; Str "ISS"; Str "1998-11-20"; NaN; Int 3];
     [NaN; Str "12"; Str "DEB"; Str "US"; Str "1961-06-29"; NaN; Int 1];
     [Str "2000-001 B"; NaN; Str "LOST"; Str "US"; Str "2000-01-01"; NaN; Int 1];
     [Str "2001-002a"; Str "n/a"; Str "ODD"; Str "FR"; Str "2001-02-02"; Str "2010-03-03"; Int 2]].

Definition bare_catalog : DataFrame :=
  mkFrame ["INTLDES"; "NORAD_CAT_ID"] [[Str "1998-067A"; Int 25544]].

(** The crosswalk built from [sample_catalog]. *)
Definition sample_crosswalk : DataFrame :=
  mkFrame crosswalk_columns
    [[Str "1998-067A"; Int 25544; Str "ISS (ZARYA)"; Str "ISS"; Str "1998-11-20"; NaN];
     [Str "NAN"; Int 12; Str "DEB"; Str "US"; Str "1961-06-29"; NaN];
     [Str "2001-002A"; NA; Str "ODD"; Str "FR"; Str "2001-02-02"; Str "2010-03-03"]].

(** A crosswalk in which one designator occurs twice. *)
Definition twofold_crosswalk : DataFrame :=
  mkFrame crosswalk_columns
    [[Str "1998-067A"; Int 25544; Str "ISS (ZARYA)"; Str "ISS"; Str "1998-11-20"; NaN];
     [Str "1998-067A"; Int 99999; Str "ISS DEB"; Str "ISS"; Str "1998-11-20"; NaN]].

Definition sample_unoosa : DataFrame :=
  mkFrame ["international_designator"; "state"]
    [[Str "1998-067a"; Str "RU"]; [Str "2020-999Z"; Str "XX"]].

Definition single_unoosa : DataFrame :=
  mkFrame ["international_designator"; "state"] [[Str "1998-067a"; Str "RU"]].

(** ** The client *)

(** What [get_tle] finds in the cache: the payload of a file that exists
    and parses. *)
Definition cached `{Json} (self : N2YOClient) (norad_id : Z) (w : world) : option json :=
  match files w !! cache_path self norad_id with
  | Some text => loads text
  | None => None
  end.

(** Lines 58-67 on their own: the request to the service, with no look at
    the cache. *)
Definition fetch_live `{Json} (self : N2YOClient) (norad_id : Z) : IO json :=
  (resp <- session_get (tle_url self norad_id) ;;
   raise_for_status resp ;;
   data <- response_json resp ;;
   sleep Politeness (polite_delay_seconds self) ;;
   write_text (cache_path self norad_id) (dumps data) ;;
   ret data)%io.

(** The trace of [n] failed attempts numbered from [k]: a request, then the
    wait that follows it. *)
Definition retries_log (url : string) (wait : nat -> Q) (k n : nat) : list event :=
  flat_map (fun a => [Get url; Sleep Backoff (wait a)]) (seq k n).

(** The trace of the last part of a successful live fetch. *)
Definition success_log `{Json} (self : N2YOClient) (norad_id : Z) (data : json)
  : list event :=
  [Get (tle_url self norad_id);
   Sleep Politeness (polite_delay_seconds self);
   WriteText (cache_path self norad_id) (dumps data)].

Definition backoffs (l : list event) : list Q :=
  flat_map (fun e => match e with Sleep Backoff s => [s] | _ => [] end) l.

Definition polite_sleeps (l : list event) : list Q :=
  flat_map (fun e => match e with Sleep Politeness s => [s] | _ => [] end) l.

Definition requests (l : list event) : nat :=
  length (flat_map (fun e => match e with Get u => [u] | _ => [] end) l).

Definition writes (l : list event) : list (string * string) :=
  flat_map (fun e => match e with WriteText p t => [(p, t)] | _ => [] end) l.

Definition tenacity_wait : nat -> Q := wait_exponential 1 1 60.

(** Sample worlds: a warm cache, a cache file that does not parse in front
    of a service that answers, and an empty cache in front of a service that
    refuses every connection. *)
Definition sample_client : N2YOClient := default_client "KEY".

Definition warm_world : world :=
  mkWorld {[ "cache_tle/25544.json" := "{tle}" ]} [] [].

Definition corrupt_world : world :=
  mkWorld {[ "cache_tle/25544.json" := "garbage" ]} [Response 200 "{tle}"] [].

Definition silent_world : world := mkWorld ∅ [] [].

Definition flaky_world : world :=
  mkWorld ∅ [NoResponse "timed out"; Response 503 "busy"; Response 200 "{tle}"] [].

(** ** Orbital elements *)

(** The keys of a full feature set. *)
Definition feature_keys : list string :=
  ["tle_epoch"; "inclination_deg"; "raan_deg"; "argp_deg"; "mean_anomaly_deg";
   "eccentricity"; "mean_motion_rev_per_day"; "period_min"; "semi_major_axis_km";
   "perigee_km"; "apogee_km"].

(** Kepler's third law as the specification words it: the angular rate is
    [n = m * 2 * pi / 86400] radians per second for [m] revolutions per day,
    and the semi-major axis is [mu ** (1/3) / n ** (2/3)] kilometres with
    [mu = 398600.4418]. *)
Definition angular_rate (m : R) : R := (m * 2 * PI / 86400)%R.

Definition kepler_axis (m : R) : R :=
  (Rpower 398600.4418 (1 / 3) / Rpower (angular_rate m) (2 / 3))%R.

(** An element set whose mean motion field reads as a negative number. *)
Definition negative_motion_satrec : @Satrec real_floats :=
  @mkSatrec real_floats
    (Some 2460310.5%R) (Some 0.5%R)
    (Some (- (15.5 * (2 * PI) / 1440))%R) (Some 0.0001%R)
    (Some (radians 51.64)) (Some (radians 208.9163))
    (Some (radians 69.9862)) (Some (radians 25.2906)).

Definition sample_tle : string :=
  String.concat (String (ascii_of_nat 10) EmptyString)
    ["1 25544U 98067A   24001.50000000  .00016717  00000-0  10270-3 0  9009";
     "2 25544  51.6400 208.9163 0001000  69.9862  25.2906 15.50000000    14"].

From Stdlib Require DecimalPos DecimalZ.

(* ================================================================== *)
(** * Further vocabulary: the client *)
(* ================================================================== *)

(** The payload of an answer that an attempt accepts: a status outside
    400 .. 599 and a body that parses. *)
Definition acceptable `{Json} (r : response) : option json :=
  match r with
  | NoResponse _ => None
  | Response status body =>
      if (400 <=? status)%Z && (status <? 600)%Z then None else loads body
  end.

(** Seconds in a list of waits. *)
Definition total (l : list Q) : Q := fold_right Qplus 0%Q l.

(* ================================================================== *)
(** * Further vocabulary: frames *)
(* ================================================================== *)

(** The labels of the external frame after line 44. *)
Definition keyed_columns (unoosa_df : DataFrame) : list string :=
  match index_of "intldes" (columns unoosa_df) with
  | Some _ => columns unoosa_df
  | None => columns unoosa_df ++ ["intldes"]
  end.

(** The catalog fields that the merge adds for the catalog row [r], the
    designator left out. *)
Definition catalog_fields `{NumericParser} (j k1 k2 k3 k4 : nat) (r : list cell)
  : list cell :=
  [Int64_of (to_numeric_cell (cell_at j r));
   cell_at k1 r; cell_at k2 r; cell_at k3 r; cell_at k4 r].


(** The labels [own] and [other] have nothing in common. *)
Definition disjoint_labels (own other : list string) : bool :=
  forallb (fun c => match index_of c other with Some _ => false | None => true end) own.


(* Further vocabulary: text *)

(** Every character of [s] is whitespace. *)
Fixpoint blank (s : string) : bool :=
  match s with
  | EmptyString => true
  | String c r => isspace c && blank r
  end.

(** No character of [s] is a line boundary. *)
Fixpoint breakless (s : string) : bool :=
  match s with
  | EmptyString => true
  | String c r => negb (is_linebreak c) && breakless r
  end.

(** [sep.join(ls)] *)
Fixpoint join (sep : string) (ls : list string) : string :=
  match ls with
  | [] => EmptyString
  | [l] => l
  | l :: ls' => (l ++ sep ++ join sep ls')%string
  end.

Definition LF : string := String (ascii_of_nat 10) EmptyString.
Definition CRLF : string := String (ascii_of_nat 13) LF.

(** The test of the comprehension in [parse_tle_fields]: [if ln.strip()]. *)
Definition nonblank (ln : string) : bool := negb (is_empty (strip ln)).

(* Further vocabulary: orbital elements *)

(** The feature set of [sat] with the given epoch text, mean motion, period,
    semi-major axis, perigee and apogee. *)
Definition feature_set (sat : @Satrec real_floats) (epoch : string)
    (motion period axis perigee apogee : @float real_floats) : @dict real_floats :=
  [("tle_epoch", VStr epoch);
   ("inclination_deg", VFloat (degrees (inclo sat)));
   ("raan_deg", VFloat (degrees (nodeo sat)));
   ("argp_deg", VFloat (degrees (argpo sat)));
   ("mean_anomaly_deg", VFloat (degrees (mo sat)));
   ("eccentricity", VFloat (ecco sat));
   ("mean_motion_rev_per_day", VFloat motion);
   ("period_min", VFloat period);
   ("semi_major_axis_km", VFloat axis);
   ("perigee_km", VFloat perigee);
   ("apogee_km", VFloat apogee)].

Definition complex_to_float : exn :=
  TypeError "float() argument must be a string or a real number, not 'complex'".

(** An element set whose mean motion field reads as zero. *)
Definition still_satrec : @Satrec real_floats :=
  @mkSatrec real_floats
    (Some 2460310.5%R) (Some 0.5%R)
    (Some 0%R) (Some 0.0001%R)
    (Some (radians 51.64)) (Some (radians 208.9163))
    (Some (radians 69.9862)) (Some (radians 25.2906)).

(* ================================================================== *)
(** * enrich_unoosa.py: the fetch loop and the frame of its rows *)
(* ================================================================== *)

(** What the loop reads of a payload.  [payload_fields] is the three values
    of lines 40-44, [(payload.get("info", {}) or {}).get("satname")], the same
    with ["transactionscount"], and [payload.get("tle")]; it is [inr msg]
    when reading them raises an exception whose text is [msg], as [.get]
    does on a payload or an [info] that is not an object.  [str_exc] is
    [str(exc)]. *)
Class Payload `{Json} := {
  pyval : Type;
  payload_fields : json -> (pyval * pyval * pyval) + string;
  str_exc : exn -> string
}.

(** A row of lines 37-48: the dict of a fetch that succeeded, or the dict
    with the error text. *)
Inductive tle_row `{Payload} : Type :=
| Fetched (norad_id : Z) (n2yo_satname n2yo_txn_last_60min tle_one_line : pyval)
| Failed (norad_id : Z) (error : string).

Definition row_id `{Payload} (r : tle_row) : Z :=
  match r with
  | Fetched nid _ _ _ => nid
  | Failed nid _ => nid
  end.

Definition fetched `{Payload} (r : tle_row) : bool :=
  match r with
  | Fetched _ _ _ _ => true
  | Failed _ _ => false
  end.

(** The keys of the dict, in the order of the literal. *)
Definition row_keys `{Payload} (r : tle_row) : list string :=
  match r with
  | Fetched _ _ _ _ => ["norad_id"; "n2yo_satname"; "n2yo_txn_last_60min"; "tle_one_line"]
  | Failed _ _ => ["norad_id"; "error"]
  end.

(** Lines 37-46 for a payload that was returned; an exception raised while
    the dict is built is caught by the same handler. *)
Definition read_row `{Payload} (nid : Z) (payload : json) : tle_row :=
  match payload_fields payload with
  | inl (satname, txn, tle) => Fetched nid satname txn tle
  | inr msg => Failed nid msg
  end.

(** Lines 35-48: the body of the loop, which catches every exception. *)
Definition fetch_row `{Payload} (client : N2YOClient) (nid : Z) (w : world)
  : tle_row * world :=
  match get_tle client nid w with
  | (Return payload, w') => (read_row nid payload, w')
  | (Raise exc, w') => (Failed nid (str_exc exc), w')
  end.

(** Lines 33-48: [rows] is the list the loop appends to. *)
Fixpoint fetch_rows `{Payload} (client : N2YOClient) (unique_ids : list Z)
    (rows : list tle_row) (w : world) : list tle_row * world :=
  match unique_ids with
  | [] => (rows, w)
  | nid :: rest =>
      let (row, w') := fetch_row client nid w in
      fetch_rows client rest (rows ++ [row]) w'
  end.

(** Lines 28-30 on the column norad_id of the merged frame, a column of
    dtype Int64 in which [None] is [pd.NA]: the missing cells are dropped and
    of each identifier the first occurrence is kept. *)
Fixpoint drop_duplicates (l : list Z) : list Z :=
  match l with
  | [] => []
  | x :: r => x :: List.filter (fun y => negb (y =? x)%Z) (drop_duplicates r)
  end.

Definition unique_ids (norad_id : list (option Z)) : list Z :=
  drop_duplicates (omap (fun c => c) norad_id).

(** The columns of [pd.DataFrame(rows)] for a list of dicts: the keys of the
    dicts in the order in which they first appear. *)
Definition add_keys (seen new : list string) : list string :=
  fold_left (fun acc k => match index_of k acc with
                          | Some _ => acc
                          | None => acc ++ [k]
                          end) new seen.

Definition frame_columns `{Payload} (rows : list tle_row) : list string :=
  fold_left (fun acc r => add_keys acc (row_keys r)) rows [].

(** The labels selected from [tle_df] at line 63. *)
Definition tle_selection : list string :=
  ["norad_id"; "n2yo_satname"; "n2yo_txn_last_60min"; "tle_one_line"].

(** The text of the exception of a call that found nobody to talk to. *)
Definition refused : exn := RetryError (ConnectionError "connection refused").

(** A sample reading of the payloads of [braces_json]. *)
Definition braces_fields (d : string) : (string * string * string) + string :=
  inl ("ISS (ZARYA)", "1", d).

Definition braces_payload : @Payload braces_json :=
  @Build_Payload braces_json string braces_fields (fun _ => "RetryError").

(* ================================================================== *)
(** * n2yo_client.py: the key and the construction of a client *)
(* ================================================================== *)

Inductive startup_error : Type :=
| RuntimeError (msg : string).

(** [load_dotenv()] with its defaults: the variables of the [.env] file are
    put in the environment, and a variable that is set there already keeps
    its value.  [dotenv] holds the variables of the file, and is empty when
    there is no file. *)
Definition load_dotenv (dotenv environ : gmap string string) : gmap string string :=
  environ ∪ dotenv.

Definition missing_api_key (env_var_name : string) : startup_error :=
  RuntimeError ("Missing API key: set " ++ env_var_name
                ++ " in your environment or config/.env").

(** [load_api_key], with the environment it leaves. *)
Definition load_api_key (env_var_name : string) (dotenv environ : gmap string string)
  : (startup_error + string) * gmap string string :=
  let environ' := load_dotenv dotenv environ in
  match environ' !! env_var_name with
  | Some key =>
      if is_empty key then (inl (missing_api_key env_var_name), environ')
      else (inr key, environ')
  | None => (inl (missing_api_key env_var_name), environ')
  end.

(** [s.rstrip("/")] *)
Fixpoint rstrip_slash (s : string) : string :=
  match s with
  | EmptyString => EmptyString
  | String c r =>
      match rstrip_slash r with
      | EmptyString => if Ascii.eqb c "/" then EmptyString else String c EmptyString
      | r' => String c r'
      end
  end.

(** Lines 37-39 and 42 of [__init__]: the fields that [get_tle] reads.  The
    cache directory is kept as the text of its path; the directory made at
    line 40 and the session of line 41 are not part of the world of this
    development. *)
Definition init (key : option string) (url dir : string) (delay : Q)
    (dotenv environ : gmap string string)
  : (startup_error + N2YOClient) * gmap string string :=
  let loaded :=
    match key with
    | Some k => if is_empty k then load_api_key "N2YO_API_KEY" dotenv environ
                else (inr k, environ)
    | None => load_api_key "N2YO_API_KEY" dotenv environ
    end in
  match loaded with
  | (inl e, environ') => (inl e, environ')
  | (inr k, environ') => (inr (mkClient k (rstrip_slash url) dir delay), environ')
  end.
(* ================================================================== *)
(** * Properties of the text functions *)
(* ================================================================== *)

Section Text.

Lemma upper_char_idem c : upper_char (upper_char c) = upper_char c.
Proof. destruct c as [[] [] [] [] [] [] [] []]; reflexivity. Qed.

Lemma isspace_upper_char c : isspace (upper_char c) = isspace c.
Proof. destruct c as [[] [] [] [] [] [] [] []]; reflexivity. Qed.

Lemma upper_idem s : upper (upper s) = upper s.
Proof. induction s as [|c s IH]; simpl; [reflexivity|]. now rewrite upper_char_idem, IH. Qed.

Lemma spaceless_remove_whitespace s : spaceless (remove_whitespace s) = true.
Proof.
  induction s as [|c s IH]; simpl; [reflexivity|].
  destruct (isspace c) eqn:E; simpl; [exact IH|]. now rewrite E, IH.
Qed.

Lemma remove_whitespace_spaceless s : spaceless s = true -> remove_whitespace s = s.
Proof.
  induction s as [|c s IH]; simpl; [reflexivity|].
  intros [Hc Hs]%andb_prop. apply negb_true_iff in Hc. rewrite Hc. now rewrite IH.
Qed.

Lemma lstrip_spaceless s : spaceless s = true -> lstrip s = s.
Proof.
  destruct s as [|c s]; simpl; [reflexivity|].
  intros [Hc _]%andb_prop. apply negb_true_iff in Hc. now rewrite Hc.
Qed.

Lemma rstrip_spaceless s : spaceless s = true -> rstrip s = s.
Proof.
  induction s as [|c s IH]; simpl; [reflexivity|].
  intros [Hc Hs]%andb_prop. apply negb_true_iff in Hc. rewrite (IH Hs), Hc.
  now destruct s.
Qed.

Lemma strip_spaceless s : spaceless s = true -> strip s = s.
Proof. intros H. unfold strip. now rewrite lstrip_spaceless, rstrip_spaceless. Qed.

Lemma upper_remove_whitespace s :
  upper (remove_whitespace s) = remove_whitespace (upper s).
Proof.
  induction s as [|c s IH]; simpl; [reflexivity|].
  rewrite isspace_upper_char. destruct (isspace c); simpl; now rewrite IH.
Qed.

Lemma normal_form_eq s : normal_form s = remove_whitespace (upper s).
Proof. unfold normal_form. apply strip_spaceless, spaceless_remove_whitespace. Qed.

Lemma normal_form_spaceless s : spaceless (normal_form s) = true.
Proof. rewrite normal_form_eq. apply spaceless_remove_whitespace. Qed.

Lemma normal_form_upper s : upper (normal_form s) = normal_form s.
Proof. now rewrite normal_form_eq, upper_remove_whitespace, upper_idem. Qed.

Lemma normal_form_idem s : normal_form (normal_form s) = normal_form s.
Proof.
  rewrite (normal_form_eq (normal_form s)), normal_form_upper.
  apply remove_whitespace_spaceless, normal_form_spaceless.
Qed.

End Text.

(* ================================================================== *)
(** * Properties of the frame operations *)
(* ================================================================== *)

Section Frames.

Lemma index_of_lookup c cols i : index_of c cols = Some i -> cols !! i = Some c.
Proof.
  revert i. induction cols as [|d cols IH]; simpl; intros i; [discriminate|].
  destruct (String.eqb_spec c d) as [->|Hne].
  - now intros [= <-].
  - destruct (index_of c cols) as [k|]; simpl; [|discriminate].
    intros [= <-]. simpl. now apply IH.
Qed.

Lemma index_of_lt c cols i : index_of c cols = Some i -> (i < length cols)%nat.
Proof. intros H. eapply lookup_lt_Some, index_of_lookup, H. Qed.

Lemma index_of_ne c d cols i k :
  c <> d -> index_of c cols = Some i -> index_of d cols = Some k -> i <> k.
Proof.
  intros Hne Hi Hk ->. apply index_of_lookup in Hi, Hk. congruence.
Qed.

Lemma index_of_rename_other c old new cols :
  c <> old -> c <> new ->
  index_of c (map (fun d => if String.eqb d old then new else d) cols) = index_of c cols.
Proof.
  intros Ho Hn. induction cols as [|d cols IH]; simpl; [reflexivity|].
  rewrite IH. destruct (String.eqb_spec d old) as [->|Hd].
  - destruct (String.eqb_spec c new); [contradiction|].
    destruct (String.eqb_spec c old); [contradiction|]. reflexivity.
  - reflexivity.
Qed.

Lemma index_of_rename_new old new cols :
  index_of new cols = None ->
  index_of new (map (fun d => if String.eqb d old then new else d) cols) = index_of old cols.
Proof.
  induction cols as [|d cols IH]; simpl; [reflexivity|].
  destruct (String.eqb_spec new d) as [->|Hd]; [discriminate|].
  destruct (index_of new cols) eqn:E; [discriminate|]. intros _.
  rewrite IH by reflexivity.
  rewrite (String.eqb_sym old d).
  destruct (String.eqb_spec d old) as [->|Ho].
  - now rewrite String.eqb_refl.
  - destruct (String.eqb_spec new d); [contradiction|]. reflexivity.
Qed.

Lemma zip_with_map_same {A B C} (f : A -> B -> C) (g : A -> B) (l : list A) :
  zip_with f l (map g l) = map (fun x => f x (g x)) l.
Proof. induction l as [|x l IH]; simpl; [reflexivity|]. now rewrite IH. Qed.

Lemma zip_with_map_both {A B C D} (f : B -> C -> D) (g : A -> B) (h : A -> C)
    (l : list A) :
  zip_with f (map g l) (map h l) = map (fun x => f (g x) (h x)) l.
Proof. induction l as [|x l IH]; simpl; [reflexivity|]. now rewrite IH. Qed.

Lemma cell_at_insert_eq i v (r : list cell) :
  (i < length r)%nat -> cell_at i (<[i:=v]> r) = v.
Proof.
  intros H. unfold cell_at. rewrite nth_lookup, list_lookup_insert_eq by exact H. reflexivity.
Qed.

Lemma cell_at_insert_ne i k v (r : list cell) :
  i <> k -> cell_at k (<[i:=v]> r) = cell_at k r.
Proof.
  intros H. unfold cell_at. rewrite !nth_lookup, list_lookup_insert_ne by exact H. reflexivity.
Qed.

Lemma normalize_intldes_cells series : normalize_intldes series = map normal_cell series.
Proof.
  unfold normalize_intldes, str_method, astype_str. rewrite !map_map.
  apply map_ext. intros c. reflexivity.
Qed.

Lemma isna_normal_cell c : isna (normal_cell c) = false.
Proof. reflexivity. Qed.

Section Numeric.
Context `{NumericParser}.

Lemma to_Int64_whole v : whole v = true -> to_Int64 v = Return (Int64_of v).
Proof. destruct v as [q|]; unfold whole, to_Int64, Int64_of; [intros ->|]; reflexivity. Qed.

Lemma to_Int64_not_whole v : whole v = false -> to_Int64 v = Raise unsafe_cast.
Proof.
  destruct v as [q|]; unfold whole, to_Int64; [intros ->; reflexivity|discriminate].
Qed.

Lemma astype_Int64_whole s :
  forallb whole s = true -> astype_Int64 s = Return (map Int64_of s).
Proof.
  induction s as [|v s IH]; cbn [forallb astype_Int64 map]; [reflexivity|].
  intros [Hv Hs]%andb_prop. now rewrite (to_Int64_whole _ Hv), (IH Hs).
Qed.

Lemma astype_Int64_not_whole s :
  forallb whole s = false -> astype_Int64 s = Raise unsafe_cast.
Proof.
  induction s as [|v s IH]; cbn [forallb astype_Int64]; [discriminate|].
  destruct (whole v) eqn:Hv.
  - rewrite (to_Int64_whole _ Hv). cbn [bind andb]. intros Hs. now rewrite (IH Hs).
  - now rewrite (to_Int64_not_whole _ Hv).
Qed.

Lemma forallb_map_compose {A B} (p : B -> bool) (f : A -> B) (l : list A) :
  forallb p (map f l) = forallb (fun x => p (f x)) l.
Proof. induction l as [|x l IH]; simpl; [reflexivity|]. now rewrite IH. Qed.

Lemma filter_map_swap {A B} (P : B -> Prop) `{!forall x, Decision (P x)}
    (f : A -> B) (l : list A) :
  filter P (map f l) = map f (filter (fun x => P (f x)) l).
Proof.
  induction l as [|x l IH]; simpl; [reflexivity|].
  rewrite !filter_cons. destruct (decide (P (f x))); simpl; now rewrite IH.
Qed.

Lemma filter_same_on {A} (P Q : A -> Prop) `{!forall x, Decision (P x)}
    `{!forall x, Decision (Q x)} (l : list A) :
  Forall (fun x => P x <-> Q x) l -> filter P l = filter Q l.
Proof.
  induction 1 as [|x l Hx _ IH]; [reflexivity|].
  rewrite !filter_cons, IH.
  destruct (decide (P x)), (decide (Q x)); tauto.
Qed.

Lemma frame_ok_Forall df :
  frame_ok df -> Forall (fun r => length r = length (columns df)) (rows df).
Proof.
  unfold frame_ok. rewrite forallb_forall, Forall_forall.
  intros Hall r Hr. apply Nat.eqb_eq, Hall. now apply list_elem_of_In.
Qed.

(** [build_satcat_crosswalk] on a frame that has the two required columns:
    the rows with an identifier are kept, the designator is normalized and
    the identifier coerced, then the six columns are selected. *)
Lemma build_satcat_crosswalk_steps df i j :
  frame_ok df ->
  index_of "INTLDES" (columns df) = Some i ->
  index_of "NORAD_CAT_ID" (columns df) = Some j ->
  index_of "norad_id" (columns df) = None ->
  build_satcat_crosswalk df =
    let kept := filter (fun r => isna (cell_at j r) = false) (rows df) in
    if forallb (fun r => whole (to_numeric_cell (cell_at j r))) kept then
      select crosswalk_columns
        (mkFrame (columns (rename "NORAD_CAT_ID" "norad_id" df))
           (map (fun r => <[j := Int64_of (to_numeric_cell (cell_at j r))]>
                            (<[i := normal_cell (cell_at i r)]> r)) kept))
    else Raise unsafe_cast.
Proof.
  intros Hok Hi Hj Hn.
  assert (Hij : i <> j) by (eapply index_of_ne; [|exact Hi|exact Hj]; discriminate).
  unfold build_satcat_crosswalk, has_column. rewrite Hi, Hj. cbn [negb orb].
  unfold getitem at 1. rewrite Hi. cbn [bind].
  unfold setitem at 1. rewrite Hi.
  rewrite normalize_intldes_cells, map_map, zip_with_map_same.
  unfold dropna. cbn [columns rows indices_of]. rewrite Hi, Hj. cbn [bind].
  rewrite filter_map_swap.
  rewrite (filter_same_on _ (fun r => isna (cell_at j r) = false)).
  2:{ eapply Forall_impl; [exact (frame_ok_Forall _ Hok)|]. intros r Hr. cbn beta.
      unfold complete_at. cbn [forallb].
      rewrite cell_at_insert_eq by (rewrite Hr; eapply index_of_lt, Hi).
      rewrite cell_at_insert_ne by exact Hij.
      rewrite isna_normal_cell. cbn [negb andb]. rewrite andb_true_r.
      destruct (isna (cell_at j r)); cbn; intuition congruence. }
  set (kept := filter (fun r => isna (cell_at j r) = false) (rows df)).
  unfold getitem, rename. cbn [columns rows].
  rewrite (index_of_rename_new _ _ _ Hn), Hj. cbn [bind].
  unfold to_numeric_coerce. rewrite !map_map.
  rewrite (map_ext (fun r => to_numeric_cell (cell_at j (<[i:=normal_cell (cell_at i r)]> r)))
                   (fun r => to_numeric_cell (cell_at j r)))
    by (intros r; now rewrite cell_at_insert_ne).
  cbn zeta.
  destruct (forallb (fun r => whole (to_numeric_cell (cell_at j r))) kept) eqn:Hw.
  - rewrite astype_Int64_whole by (now rewrite forallb_map_compose).
    cbn [bind]. unfold setitem. cbn [columns rows].
    rewrite (index_of_rename_new _ _ _ Hn), Hj.
    do 2 f_equal. rewrite map_map.
    exact (zip_with_map_both (fun (r : list cell) (v : cell) => <[j:=v]> r) _ _ kept).
  - rewrite astype_Int64_not_whole; [reflexivity|]. now rewrite forallb_map_compose.
Qed.


End Numeric.

Lemma index_of_app c (a b : list string) :
  index_of c (a ++ b)
  = match index_of c a with
    | Some i => Some i
    | None => option_map (fun k => (length a + k)%nat) (index_of c b)
    end.
Proof.
  induction a as [|d a IH]; simpl.
  - destruct (index_of c b); reflexivity.
  - destruct (String.eqb c d); [reflexivity|]. rewrite IH.
    destruct (index_of c a); simpl; [reflexivity|].
    destruct (index_of c b); reflexivity.
Qed.

Lemma index_of_with_suffix c own other sfx :
  (forall d, (d ++ sfx)%string <> c) ->
  index_of c own = None \/ index_of c other = None ->
  index_of c (with_suffix own other sfx) = index_of c own.
Proof.
  intros Hsfx Habs. unfold with_suffix.
  induction own as [|d own IH]; simpl; [reflexivity|].
  destruct (String.eqb_spec c d) as [->|Hd].
  - destruct Habs as [Ha|Ha].
    + simpl in Ha. rewrite String.eqb_refl in Ha. discriminate.
    + rewrite Ha. now rewrite String.eqb_refl.
  - rewrite IH.
    2:{ destruct Habs as [Ha|Ha]; [left|now right]. simpl in Ha.
        destruct (String.eqb_spec c d); [contradiction|].
        destruct (index_of c own); [discriminate|reflexivity]. }
    destruct (index_of d other).
    + destruct (String.eqb_spec c (d ++ sfx)%string) as [->|_]; [|reflexivity].
      now destruct (Hsfx d).
    + destruct (String.eqb_spec c d); [contradiction|reflexivity].
Qed.

Lemma length_with_suffix own other sfx :
  length (with_suffix own other sfx) = length own.
Proof. unfold with_suffix. apply length_map. Qed.

Lemma not_suffixed_INTLDES sfx d :
  sfx = "_x" \/ sfx = "_y" -> (d ++ sfx)%string <> "INTLDES".
Proof.
  intros [-> | ->]; do 8 (destruct d as [|? d]; [discriminate|]);
    simpl; intros [= ]; discriminate.
Qed.

Lemma delete_app_r {A} (l r : list A) k :
  delete (length l + k)%nat (l ++ r) = l ++ delete k r.
Proof. induction l as [|x l IH]; simpl; [reflexivity|]. now rewrite IH. Qed.

Lemma delete_replicate {A} (x : A) k n :
  (k < n)%nat -> delete k (replicate n x) = replicate (n - 1) x.
Proof.
  revert k. induction n as [|n IH]; intros k Hk; [lia|].
  destruct k as [|k]; simpl; [now rewrite Nat.sub_0_r|].
  rewrite IH by lia. destruct n; [lia|]. simpl. now rewrite Nat.sub_0_r.
Qed.

Lemma setitem_frame_ok df c s : frame_ok df -> frame_ok (setitem df c s).
Proof.
  intros Hok%frame_ok_Forall. unfold frame_ok, setitem.
  destruct (index_of c (columns df)) as [q|]; cbn [rows columns];
    apply forallb_forall; intros r Hr%list_elem_of_In;
    apply elem_of_lookup_zip_with in Hr as (n & r0 & v & -> & Hr0 & _);
    apply list_elem_of_lookup_2 in Hr0;
    rewrite Forall_forall in Hok; specialize (Hok _ Hr0); apply Nat.eqb_eq.
  - now rewrite length_insert.
  - rewrite !length_app, Hok. reflexivity.
Qed.

Lemma index_of_setitem_columns df c s :
  index_of c (columns (setitem df c s))
  = Some (match index_of c (columns df) with Some q => q | None => length (columns df) end).
Proof.
  unfold setitem. destruct (index_of c (columns df)) as [q|] eqn:E; cbn [columns].
  - exact E.
  - rewrite index_of_app, E. simpl. rewrite String.eqb_refl. simpl.
    now rewrite Nat.add_0_r.
Qed.

Lemma index_of_setitem_other df c d s :
  d <> c -> index_of d (columns df) = None ->
  index_of d (columns (setitem df c s)) = None.
Proof.
  intros Hne Hd. unfold setitem. destruct (index_of c (columns df)); cbn [columns];
    [exact Hd|].
  rewrite index_of_app, Hd. simpl. destruct (String.eqb_spec d c); [contradiction|reflexivity].
Qed.

Lemma flat_map_map {A B C} (f : B -> list C) (g : A -> B) (l : list A) :
  flat_map f (map g l) = flat_map (fun x => f (g x)) l.
Proof. induction l as [|x l IH]; simpl; [reflexivity|]. now rewrite IH. Qed.

Lemma map_flat_map {A B C} (h : B -> C) (f : A -> list B) (l : list A) :
  map h (flat_map f l) = flat_map (fun x => map h (f x)) l.
Proof. induction l as [|x l IH]; simpl; [reflexivity|]. now rewrite map_app, IH. Qed.

Lemma flat_map_ext_Forall {A B} (f g : A -> list B) (l : list A) :
  Forall (fun x => f x = g x) l -> flat_map f l = flat_map g l.
Proof. induction 1 as [|x l Hx _ IH]; simpl; [reflexivity|]. now rewrite Hx, IH. Qed.

Lemma length_flat_map {A B} (f : A -> list B) (l : list A) :
  length (flat_map f l) = list_sum (map (fun x => length (f x)) l).
Proof. induction l as [|x l IH]; simpl; [reflexivity|]. now rewrite length_app, IH. Qed.

Lemma list_sum_ge_length {A} (f : A -> nat) (l : list A) :
  Forall (fun x => (1 <= f x)%nat) l -> (length l <= list_sum (map f l))%nat.
Proof. induction 1 as [|x l Hx _ IH]; simpl; lia. Qed.

Lemma list_sum_eq_length {A} (f : A -> nat) (l : list A) :
  Forall (fun x => f x = 1%nat) l -> list_sum (map f l) = length l.
Proof. induction 1 as [|x l Hx _ IH]; simpl; lia. Qed.

Lemma length_catalog_part j w ms :
  length (catalog_part j w ms) = Nat.max 1 (length ms).
Proof. destruct ms; simpl; [reflexivity|]. now rewrite length_map. Qed.

Lemma keyed_rows df p :
  rows (setitem df "intldes" (normalize_intldes (map (cell_at p) (rows df))))
  = map (with_key df p) (rows df).
Proof.
  unfold setitem, with_key. rewrite normalize_intldes_cells, map_map.
  destruct (index_of "intldes" (columns df)) as [q|]; cbn [rows].
  - exact (zip_with_map_same (fun (r : list cell) v => <[q:=v]> r) _ _).
  - exact (zip_with_map_same (fun (r : list cell) v => r ++ [v]) _ _).
Qed.

Lemma cell_at_with_key df p l :
  length l = length (columns df) ->
  cell_at (match index_of "intldes" (columns df) with
           | Some q => q
           | None => length (columns df)
           end) (with_key df p l)
  = normal_cell (cell_at p l).
Proof.
  intros Hl. unfold with_key. destruct (index_of "intldes" (columns df)) as [q|] eqn:E.
  - apply cell_at_insert_eq. rewrite Hl. eapply index_of_lt, E.
  - unfold cell_at. rewrite <- Hl, nth_middle. reflexivity.
Qed.

End Frames.

(* ================================================================== *)
(** * crosswalk.py: the claims *)
(* ================================================================== *)

Section Crosswalk.
Context `{NumericParser}.


(** C9. [normalize_intldes] is idempotent.  It turns every cell into the
    text of the cell in upper case with every whitespace character removed,
    inner as well as leading and trailing, so that the final [strip] finds
    nothing left to trim. *)
Theorem normalize_intldes_idempotent (series : Series) :
  normalize_intldes (normalize_intldes series) = normalize_intldes series
  /\ (forall s, normalize_intldes [Str s] = [Str (remove_whitespace (upper s))])
  /\ Forall (fun c => exists t, c = Str t /\ spaceless t = true /\ upper t = t
                                /\ strip t = t)
            (normalize_intldes series).
Proof.
  rewrite !normalize_intldes_cells. repeat split.
  - rewrite map_map. apply map_ext. intros c. unfold normal_cell. cbn [py_str].
    now rewrite normal_form_idem.
  - intros s. rewrite normalize_intldes_cells. cbn [map]. unfold normal_cell.
    cbn [py_str]. now rewrite normal_form_eq.
  - apply Forall_forall. intros c Hc. apply list_elem_of_In, in_map_iff in Hc as (c0 & <- & _).
    exists (normal_form (py_str c0)). split; [reflexivity|].
    split; [apply normal_form_spaceless|]. split; [apply normal_form_upper|].
    apply strip_spaceless, normal_form_spaceless.
Qed.

(** C10. [normalize_intldes] applies [str] to every cell first, so a missing
    designator becomes the text NAN (for NaN) or NONE (for None) and no
    normalized designator is missing.  Hence [dropna] in
    [build_satcat_crosswalk] removes a row only for its identifier: the
    designators of the crosswalk are those of all the rows that have an
    identifier, in order. *)
Theorem missing_designator_is_kept df i j out :
  frame_ok df ->
  index_of "INTLDES" (columns df) = Some i ->
  index_of "NORAD_CAT_ID" (columns df) = Some j ->
  index_of "norad_id" (columns df) = None ->
  build_satcat_crosswalk df = Return out ->
  normalize_intldes [NaN] = [Str "NAN"]
  /\ normalize_intldes [PyNone] = [Str "NONE"]
  /\ Forall (fun c => isna c = false) (normalize_intldes (map (cell_at i) (rows df)))
  /\ map (cell_at 0) (rows out)
     = normalize_intldes
         (map (cell_at i) (filter (fun r => isna (cell_at j r) = false) (rows df))).
Proof.
  intros Hok Hi Hj Hn Hout.
  split; [reflexivity|]. split; [reflexivity|]. split.
  { rewrite normalize_intldes_cells. apply Forall_forall. intros c Hc.
    apply list_elem_of_In, in_map_iff in Hc as (c0 & <- & _). reflexivity. }
  rewrite (build_satcat_crosswalk_steps df i j Hok Hi Hj Hn) in Hout. cbn zeta in Hout.
  set (kept := filter (fun r => isna (cell_at j r) = false) (rows df)) in *.
  assert (Hkept : Forall (fun r => length r = length (columns df)) kept).
  { apply Forall_forall. intros r Hr. apply list_elem_of_filter in Hr as [_ Hr].
    revert r Hr. apply Forall_forall, frame_ok_Forall, Hok. }
  destruct (forallb _ kept); [|discriminate].
  unfold select, crosswalk_columns, rename in Hout. cbn [columns rows indices_of] in Hout.
  rewrite index_of_rename_other, Hi in Hout by discriminate.
  destruct (match index_of "norad_id" _ with Some _ => _ | None => _ end) as [e|idx];
    cbn [bind] in Hout; [discriminate|].
  injection Hout as <-. cbn [rows].
  rewrite normalize_intldes_cells, !map_map.
  apply map_ext_Forall. eapply Forall_impl; [exact Hkept|].
  intros r Hr. cbn beta. cbn [map]. unfold cell_at at 1. cbn [nth].
  assert (Hij : i <> j) by (eapply index_of_ne; [|exact Hi|exact Hj]; discriminate).
  rewrite (cell_at_insert_ne j i) by congruence.
  apply cell_at_insert_eq. rewrite Hr. eapply index_of_lt, Hi.
Qed.

(** C3, as the code has it.  [merge_unoosa_with_crosswalk] is a left outer
    join on the normalized designator.  Every external row is kept, in
    order: it appears once for each crosswalk row of the same designator,
    and once, with missing catalog fields, when there is none.  So the output
    has at least as many rows as the input, and exactly as many when no
    external designator occurs more than once in the crosswalk. *)
Theorem merge_is_left_outer_join unoosa xwalk col p j :
  frame_ok unoosa ->
  index_of col (columns unoosa) = Some p ->
  index_of "INTLDES" (columns unoosa) = None ->
  index_of "INTLDES" (columns xwalk) = Some j ->
  let found l := matches (normal_cell (cell_at p l)) j (rows xwalk) in
  exists out,
    merge_unoosa_with_crosswalk unoosa xwalk col = Return out
    /\ rows out
       = flat_map (fun l => map (app (with_key unoosa p l))
                              (catalog_part j (length (columns xwalk)) (found l)))
                  (rows unoosa)
    /\ (forall l, found l = [] ->
          exists missing, catalog_part j (length (columns xwalk)) (found l) = [missing]
                          /\ Forall (fun c => isna c = true) missing)
    /\ length (rows out)
       = list_sum (map (fun l => Nat.max 1 (length (found l))) (rows unoosa))
    /\ (length (rows unoosa) <= length (rows out))%nat
    /\ (Forall (fun l => (length (found l) <= 1)%nat) (rows unoosa) ->
        length (rows out) = length (rows unoosa)).
Proof.
  intros Hok Hp Hnone Hj found.
  set (q := match index_of "intldes" (columns unoosa) with
            | Some q => q | None => length (columns unoosa) end).
  set (left := setitem unoosa "intldes" (normalize_intldes (map (cell_at p) (rows unoosa)))).
  assert (Hq : index_of "intldes" (columns left) = Some q)
    by apply index_of_setitem_columns.
  assert (Hleft : index_of "INTLDES" (columns left) = None)
    by (apply index_of_setitem_other; [discriminate|exact Hnone]).
  assert (Hlen : Forall (fun l => length (with_key unoosa p l) = length (columns left))
                        (rows unoosa)).
  { pose proof (setitem_frame_ok unoosa "intldes"
                  (normalize_intldes (map (cell_at p) (rows unoosa))) Hok) as Hl.
    apply frame_ok_Forall in Hl. fold left in Hl.
    unfold left in Hl at 2. rewrite keyed_rows in Hl.
    apply Forall_forall. intros l Hl0. rewrite Forall_forall in Hl. apply Hl.
    apply list_elem_of_In, in_map, list_elem_of_In, Hl0. }
  assert (Hrows : forall out, rows out
       = flat_map (fun l => map (app (with_key unoosa p l))
                              (catalog_part j (length (columns xwalk)) (found l)))
                  (rows unoosa) ->
       length (rows out)
         = list_sum (map (fun l => Nat.max 1 (length (found l))) (rows unoosa))).
  { intros out ->. rewrite length_flat_map. f_equal. apply map_ext. intros l.
    now rewrite length_map, length_catalog_part. }
  exists (rename "SATNAME" "satcat_satname"
            (mkFrame
               (delete (length (columns left) + j)%nat
                  (with_suffix (columns left) (columns xwalk) "_x"
                     ++ with_suffix (columns xwalk) (columns left) "_y"))
               (flat_map (fun l => map (app (with_key unoosa p l))
                              (catalog_part j (length (columns xwalk)) (found l)))
                  (rows unoosa)))).
  split; [|split; [reflexivity|]].
  - unfold merge_unoosa_with_crosswalk, has_column. rewrite Hp. cbn [negb].
    unfold getitem. rewrite Hp. cbn [bind]. fold left.
    unfold merge_left. rewrite Hq, Hj. cbn [bind].
    unfold drop_column. cbn [columns rows].
    rewrite index_of_app.
    rewrite (index_of_with_suffix "INTLDES" (columns left))
      by (try (intros d; apply not_suffixed_INTLDES); auto).
    rewrite Hleft.
    rewrite (index_of_with_suffix "INTLDES" (columns xwalk))
      by (try (intros d; apply not_suffixed_INTLDES); auto).
    rewrite Hj. cbn [option_map bind]. rewrite length_with_suffix.
    unfold rename. cbn [rows columns]. do 2 f_equal.
    replace (rows left) with (map (with_key unoosa p) (rows unoosa))
      by (symmetry; apply keyed_rows).
    rewrite flat_map_map, map_flat_map.
    apply flat_map_ext_Forall.
    pose proof (frame_ok_Forall _ Hok) as Hok'.
    rewrite Forall_forall in Hok', Hlen. apply Forall_forall. intros l Hl.
    fold q in Hq. unfold q. rewrite cell_at_with_key by (apply Hok', Hl).
    fold (found l). rewrite <- (Hlen l Hl).
    pose proof (index_of_lt _ _ _ Hj) as Hjw.
    unfold join_row, catalog_part. destruct (found l) as [|m ms].
    + cbn [map]. rewrite delete_app_r, delete_replicate by exact Hjw. reflexivity.
    + rewrite !map_map. apply map_ext. intros r. apply delete_app_r.
  - split.
    { intros l ->. eexists. split; [reflexivity|]. apply Forall_forall.
      intros c Hc. now apply elem_of_replicate in Hc as [-> _]. }
    match goal with |- context [rows ?o] => pose proof (Hrows o eq_refl) as Hcount end.
    split; [exact Hcount|]. rewrite Hcount. split.
    + apply list_sum_ge_length. apply Forall_forall. intros; lia.
    + intros Huniq. apply list_sum_eq_length.
      eapply Forall_impl; [exact Huniq|]. intros l Hl. cbn beta in Hl |- *. lia.
Qed.

Lemma bind_not_value_error {A B} (r : result A) (k : A -> result B) :
  not_value_error r -> (forall v, not_value_error (k v)) -> not_value_error (bind r k).
Proof.
  intros Hr Hk msg. destruct r as [e|v]; cbn [bind]; [|apply Hk].
  intros [= ->]. now apply (Hr msg).
Qed.

Lemma Return_not_value_error {A} (v : A) : not_value_error (Return v).
Proof. intros msg. discriminate. Qed.

Lemma indices_of_not_value_error cols all : not_value_error (indices_of cols all).
Proof.
  induction cols as [|c cols IH]; cbn [indices_of]; [apply Return_not_value_error|].
  destruct (index_of c all); [|intros msg; discriminate].
  apply bind_not_value_error; [exact IH|]. intros; apply Return_not_value_error.
Qed.

Lemma getitem_not_value_error df c : not_value_error (getitem df c).
Proof. unfold getitem. destruct (index_of c (columns df)); intros msg; discriminate. Qed.

Lemma astype_Int64_not_value_error s : not_value_error (astype_Int64 s).
Proof.
  destruct (forallb whole s) eqn:E.
  - rewrite astype_Int64_whole by exact E. apply Return_not_value_error.
  - rewrite astype_Int64_not_whole by exact E. intros msg. discriminate.
Qed.

Lemma build_not_value_error df :
  has_column "INTLDES" df = true -> has_column "NORAD_CAT_ID" df = true ->
  not_value_error (build_satcat_crosswalk df).
Proof.
  intros H1 H2. unfold build_satcat_crosswalk. rewrite H1, H2. cbn [negb orb].
  apply bind_not_value_error; [apply getitem_not_value_error|]. intros des.
  apply bind_not_value_error.
  { unfold dropna. apply bind_not_value_error; [apply indices_of_not_value_error|].
    intros; apply Return_not_value_error. }
  intros df1. apply bind_not_value_error; [apply getitem_not_value_error|]. intros ids.
  apply bind_not_value_error; [apply astype_Int64_not_value_error|]. intros ids'.
  unfold select. apply bind_not_value_error; [apply indices_of_not_value_error|].
  intros; apply Return_not_value_error.
Qed.

Lemma merge_not_value_error unoosa xwalk col :
  has_column col unoosa = true ->
  not_value_error (merge_unoosa_with_crosswalk unoosa xwalk col).
Proof.
  intros Hc. unfold merge_unoosa_with_crosswalk. rewrite Hc. cbn [negb].
  apply bind_not_value_error; [apply getitem_not_value_error|]. intros des.
  apply bind_not_value_error.
  { unfold merge_left. repeat case_match; intros msg; discriminate. }
  intros merged. apply bind_not_value_error.
  { unfold drop_column. case_match; intros msg; discriminate. }
  intros; apply Return_not_value_error.
Qed.

(** C8.  The two guards raise [ValueError] exactly when a column they name is
    absent: INTLDES or NORAD_CAT_ID for [build_satcat_crosswalk], the
    designator column for [merge_unoosa_with_crosswalk].  But a catalog that
    has both required columns and lacks SATNAME is still refused, with a
    [KeyError] raised by the projection of line 28. *)
Theorem schema_errors :
  (forall df,
      (exists msg, build_satcat_crosswalk df = Raise (ValueError msg))
      <-> (has_column "INTLDES" df = false \/ has_column "NORAD_CAT_ID" df = false))
  /\ (forall unoosa xwalk col,
        (exists msg, merge_unoosa_with_crosswalk unoosa xwalk col = Raise (ValueError msg))
        <-> has_column col unoosa = false)
  /\ has_column "INTLDES" bare_catalog = true
  /\ has_column "NORAD_CAT_ID" bare_catalog = true
  /\ build_satcat_crosswalk bare_catalog = Raise (KeyError "SATNAME").
Proof.
  split; [|split; [|repeat split]].
  - intros df. split.
    + intros [msg Hmsg].
      destruct (has_column "INTLDES" df) eqn:H1; [|now left].
      destruct (has_column "NORAD_CAT_ID" df) eqn:H2; [|now right].
      now destruct (build_not_value_error df H1 H2 msg).
    + intros Hmiss. eexists. unfold build_satcat_crosswalk.
      destruct Hmiss as [-> | ->]; [reflexivity|]. now rewrite orb_true_r.
  - intros unoosa xwalk col. split.
    + intros [msg Hmsg]. destruct (has_column col unoosa) eqn:Hc; [|reflexivity].
      now destruct (merge_not_value_error unoosa xwalk col Hc msg).
    + intros Hc. eexists. unfold merge_unoosa_with_crosswalk. now rewrite Hc.
Qed.

End Crosswalk.

(* ================================================================== *)
(** * crosswalk.py: concrete catalogs *)
(* ================================================================== *)

Example normalize_intldes_sample :
  normalize_intldes [Str " 1998-067a "; Str "1998 067 a"; NaN]
  = [Str "1998-067A"; Str "1998067A"; Str "NAN"].
Proof. reflexivity. Qed.


Lemma missing_designator_is_kept_witness :
  map (cell_at 0) (rows sample_crosswalk)
  = normalize_intldes
      (map (cell_at 0)
         (filter (fun r => isna (cell_at 1 r) = false) (rows sample_catalog))).
Proof.
  exact (proj2 (proj2 (proj2
    (missing_designator_is_kept (H:=decimal_parser) sample_catalog 0 1 sample_crosswalk
       eq_refl eq_refl eq_refl eq_refl eq_refl)))).
Defined.

Lemma merge_is_left_outer_join_witness :
  exists out,
    merge_unoosa_with_crosswalk sample_unoosa sample_crosswalk default_intldes_col
    = Return out
    /\ length (rows out) = length (rows sample_unoosa).
Proof.
  destruct (merge_is_left_outer_join sample_unoosa sample_crosswalk
              default_intldes_col 0 0 eq_refl eq_refl eq_refl eq_refl)
    as (out & Hout & _ & _ & _ & _ & Hsame).
  exists out. split; [exact Hout|]. apply Hsame.
  unfold sample_unoosa. cbn [rows].
  repeat (constructor; [vm_compute; lia|]). constructor.
Defined.

(** C3, as stated, fails when a designator occurs twice in the crosswalk:
    the one external row comes out twice. *)
Lemma merge_repeats_external_row :
  merge_unoosa_with_crosswalk single_unoosa twofold_crosswalk default_intldes_col
  = Return (mkFrame
      ["international_designator"; "state"; "intldes"; "norad_id";
       "satcat_satname"; "COUNTRY"; "LAUNCH"; "DECAY"]
      [[Str "1998-067a"; Str "RU"; Str "1998-067A";
        Int 25544; Str "ISS (ZARYA)"; Str "ISS"; Str "1998-11-20"; NaN];
       [Str "1998-067a"; Str "RU"; Str "1998-067A";
        Int 99999; Str "ISS DEB"; Str "ISS"; Str "1998-11-20"; NaN]])
  /\ rows single_unoosa = [[Str "1998-067a"; Str "RU"]]
  /\ ~ (forall out,
          merge_unoosa_with_crosswalk single_unoosa twofold_crosswalk default_intldes_col
          = Return out ->
          length (rows out) = length (rows single_unoosa)).
Proof.
  split; [reflexivity|]. split; [reflexivity|].
  intros Hsame. specialize (Hsame _ eq_refl). discriminate Hsame.
Qed.

(* ================================================================== *)
(** * n2yo_client.py: the wait schedule *)
(* ================================================================== *)

Lemma tenacity_wait_closed_form k :
  (1 <= k)%nat ->
  (tenacity_wait k == inject_Z (Z.min (2 ^ Z.of_nat (k - 1)) 60))%Q.
Proof.
  intros _. unfold tenacity_wait, wait_exponential.
  set (p := (2 ^ Z.of_nat (k - 1))%Z).
  assert (Hp : (1 <= p)%Z) by (subst p; apply (Z.pow_le_mono_r 2 0); lia).
  change (Qmax 0 1) with 1%Q.
  assert (Hx : (1 * inject_Z p == inject_Z p)%Q) by ring.
  assert (H1 : (1 <= inject_Z p)%Q) by (change 1%Q with (inject_Z 1); now rewrite <- Zle_Qle).
  unfold Qmin.
  destruct (Qle_bool (1 * inject_Z p) 60) eqn:E1.
  - apply Qle_bool_iff in E1. rewrite Hx in E1.
    change 60%Q with (inject_Z 60) in E1. rewrite <- Zle_Qle in E1.
    rewrite Z.min_l by exact E1. unfold Qmax.
    destruct (Qle_bool 1 (1 * inject_Z p)) eqn:E2; [exact Hx|].
    assert (E3 : Qle_bool 1 (1 * inject_Z p) = true)
      by (apply Qle_bool_iff; now rewrite Hx).
    congruence.
  - assert (Hgt : (60 < p)%Z).
    { apply Z.lt_nge. intros Hle. apply Bool.not_true_iff_false in E1. apply E1.
      apply Qle_bool_iff. rewrite Hx. change 60%Q with (inject_Z 60).
      now rewrite <- Zle_Qle. }
    rewrite Z.min_r by lia. reflexivity.
Qed.

Lemma tenacity_wait_bounds k :
  (1 <= k)%nat ->
  (1 <= tenacity_wait k)%Q /\ (tenacity_wait k <= 60)%Q
  /\ (tenacity_wait k <= tenacity_wait (S k))%Q.
Proof.
  intros Hk. rewrite !tenacity_wait_closed_form by lia.
  change 1%Q with (inject_Z 1). change 60%Q with (inject_Z 60).
  rewrite <- !Zle_Qle.
  assert (Hp : (1 <= 2 ^ Z.of_nat (k - 1))%Z) by (apply (Z.pow_le_mono_r 2 0); lia).
  assert (Hmono : (2 ^ Z.of_nat (k - 1) <= 2 ^ Z.of_nat (S k - 1))%Z)
    by (apply Z.pow_le_mono_r; lia).
  lia.
Qed.

(* ================================================================== *)
(** * n2yo_client.py: one attempt, then the retry loop *)
(* ================================================================== *)

Section Client.
Context `{Json}.
Variable self : N2YOClient.
Variable norad_id : Z.

Let path := cache_path self norad_id.
Let url := tle_url self norad_id.

Lemma get_tle_attempt_hit w data :
  cached self norad_id w = Some data ->
  get_tle_attempt self norad_id w = (Return data, w).
Proof.
  unfold cached, get_tle_attempt, io_bind, read_cache.
  destruct (files w !! cache_path self norad_id) as [text|]; [|discriminate].
  now intros ->.
Qed.

Lemma get_tle_attempt_miss w :
  cached self norad_id w = None ->
  get_tle_attempt self norad_id w = fetch_live self norad_id w.
Proof.
  unfold cached, get_tle_attempt, fetch_live, read_cache.
  unfold io_bind at 1.
  destruct (files w !! cache_path self norad_id) as [text|]; [intros ->|]; reflexivity.
Qed.

(** A live fetch either fails after its request, leaving the files alone, or
    succeeds with the trace [success_log] and the payload written. *)
Lemma fetch_live_cases w :
  (exists e, fetch_live self norad_id w
             = (Raise e, mkWorld (files w) (tail (service w)) (log w ++ [Get url])))
  \/ (exists data body,
        loads body = Some data
        /\ fetch_live self norad_id w
           = (Return data,
              mkWorld (<[path := dumps data]> (files w)) (tail (service w))
                (log w ++ success_log self norad_id data))).
Proof.
  unfold fetch_live, io_bind, session_get, emit. fold url.
  destruct (service w) as [|[msg|status body] rest]; cbn [files service log tail].
  - left. eexists. reflexivity.
  - left. eexists. reflexivity.
  - unfold raise_for_status. cbn [fst snd].
    destruct ((400 <=? status)%Z && (status <? 600)%Z).
    + left. eexists. reflexivity.
    + unfold ret, response_json. cbn [snd].
      destruct (loads body) as [data|] eqn:Hbody.
      * right. exists data, body. split; [exact Hbody|]. unfold ret, sleep, write_text, emit, success_log.
        cbn [files service log]. fold url path. now rewrite <- !app_assoc.
      * left. eexists. reflexivity.
Qed.

Lemma retries_log_S wait k n :
  retries_log url wait k (S n)
  = [Get url; Sleep Backoff (wait k)] ++ retries_log url wait (S k) n.
Proof. reflexivity. Qed.

(** The whole run of the retry loop from a world without usable cache entry:
    [n] failed attempts, each followed by its wait, then either a last
    failed attempt, when the attempts are used up, or a successful one. *)
Lemma retry_loop_live wait remaining k w :
  cached self norad_id w = None ->
  let run := retry_loop wait remaining k (get_tle_attempt self norad_id) w in
  exists n, (n <= remaining)%nat /\
    ((exists last w_last,
         fst run = Raise (RetryError last)
         /\ n = remaining
         /\ files (snd run) = files w
         /\ log (snd run) = log w ++ retries_log url wait k n ++ [Get url]
         /\ get_tle_attempt self norad_id w_last = (Raise last, snd run))
     \/ (exists data body,
           loads body = Some data
           /\ fst run = Return data
           /\ files (snd run) = <[path := dumps data]> (files w)
           /\ log (snd run)
              = log w ++ retries_log url wait k n ++ success_log self norad_id data)).
Proof.
  revert k w. induction remaining as [|remaining IH]; intros k w Hmiss run; subst run;
    cbn [retry_loop]; rewrite (get_tle_attempt_miss w Hmiss);
    destruct (fetch_live_cases w) as [[e He]|(data & body & Hbody & Hd)].
  - exists 0%nat. split; [lia|]. left. exists e, w. rewrite He. cbn [fst snd files log].
    repeat split. rewrite (get_tle_attempt_miss w Hmiss). exact He.
  - exists 0%nat. split; [lia|]. right. exists data, body. rewrite Hd. cbn [fst snd files log].
    repeat split. exact Hbody.
  - rewrite He.
    set (w1 := emit (Sleep Backoff (wait k))
                 (mkWorld (files w) (tail (service w)) (log w ++ [Get url]))).
    assert (Hmiss1 : cached self norad_id w1 = None) by exact Hmiss.
    destruct (IH (S k) w1 Hmiss1) as (n & Hn & Hcases).
    exists (S n). split; [lia|].
    assert (Hlog : forall tl, log w1 ++ retries_log url wait (S k) n ++ tl
                              = log w ++ retries_log url wait k (S n) ++ tl).
    { intros tl. rewrite retries_log_S. unfold w1, emit. cbn [log].
      rewrite <- !app_assoc. reflexivity. }
    destruct Hcases as [(last & w_last & Hr & -> & Hf & Hl & Hlast)
                       |(data & body & Hbody & Hr & Hf & Hl)].
    + left. exists last, w_last. rewrite Hr, Hf, Hl, Hlog. repeat split. exact Hlast.
    + right. exists data, body. rewrite Hr, Hf, Hl, Hlog. repeat split. exact Hbody.
  - exists 0%nat. split; [lia|]. right. exists data, body. rewrite Hd. cbn [fst snd files log].
    repeat split. exact Hbody.
Qed.

Lemma retry_loop_fetch_live wait remaining k w :
  cached self norad_id w = None ->
  retry_loop wait remaining k (get_tle_attempt self norad_id) w
  = retry_loop wait remaining k (fetch_live self norad_id) w.
Proof.
  revert k w. induction remaining as [|remaining IH]; intros k w Hmiss;
    cbn [retry_loop]; rewrite (get_tle_attempt_miss w Hmiss); [reflexivity|].
  destruct (fetch_live_cases w) as [[e He]|(data & body & _ & Hd)].
  - rewrite He. apply IH. exact Hmiss.
  - now rewrite Hd.
Qed.

Lemma cached_after_write w data text :
  loads text = Some data ->
  files w !! path = Some text -> cached self norad_id w = Some data.
Proof. intros Hl Hf. unfold cached. fold path. now rewrite Hf. Qed.

Lemma backoffs_app a b : backoffs (a ++ b) = backoffs a ++ backoffs b.
Proof. unfold backoffs. apply flat_map_app. Qed.

Lemma polite_sleeps_app a b : polite_sleeps (a ++ b) = polite_sleeps a ++ polite_sleeps b.
Proof. unfold polite_sleeps. apply flat_map_app. Qed.

Lemma writes_app a b : writes (a ++ b) = writes a ++ writes b.
Proof. unfold writes. apply flat_map_app. Qed.

Lemma requests_app a b : requests (a ++ b) = (requests a + requests b)%nat.
Proof. unfold requests. now rewrite flat_map_app, length_app. Qed.

Lemma retries_log_facts wait k n :
  backoffs (retries_log url wait k n) = map wait (seq k n)
  /\ requests (retries_log url wait k n) = n
  /\ polite_sleeps (retries_log url wait k n) = []
  /\ writes (retries_log url wait k n) = [].
Proof.
  revert k. induction n as [|n IH]; intros k; [repeat split|].
  rewrite retries_log_S, backoffs_app, requests_app, polite_sleeps_app, writes_app.
  destruct (IH (S k)) as (-> & -> & -> & ->). repeat split.
Qed.

Lemma retry_loop_hit wait remaining k w data :
  cached self norad_id w = Some data ->
  retry_loop wait remaining k (get_tle_attempt self norad_id) w = (Return data, w).
Proof.
  intros Hhit. destruct remaining; cbn [retry_loop];
    now rewrite (get_tle_attempt_hit w data Hhit).
Qed.

(** C1. A cache entry that exists and parses is returned as it is: the
    world after the call is the world before it, so there is no request, no
    sleep and no retry.  A second call after a successful one finds the
    cache warm and returns the same payload without touching the world.  An
    entry that does not parse is treated as an absent one: in both cases the
    call is the retried network fetch, and it succeeds when the service
    answers. *)
Theorem warm_cache_is_returned w :
  (forall text data,
      files w !! cache_path self norad_id = Some text -> loads text = Some data ->
      get_tle self norad_id w = (Return data, w))
  /\ ((forall body data, loads body = Some data -> loads (dumps data) = Some data) ->
      forall data w1,
        get_tle self norad_id w = (Return data, w1) ->
        get_tle self norad_id w1 = (Return data, w1))
  /\ (forall text,
        files w !! cache_path self norad_id = Some text -> loads text = None ->
        get_tle self norad_id w = retry tenacity_wait 5 (fetch_live self norad_id) w)
  /\ (files w !! cache_path self norad_id = None ->
      get_tle self norad_id w = retry tenacity_wait 5 (fetch_live self norad_id) w)
  /\ (forall text status body rest data,
        files w !! cache_path self norad_id = Some text -> loads text = None ->
        service w = Response status body :: rest ->
        (400 <=? status)%Z && (status <? 600)%Z = false ->
        loads body = Some data ->
        get_tle self norad_id w
        = (Return data,
           mkWorld (<[cache_path self norad_id := dumps data]> (files w)) rest
             (log w ++ success_log self norad_id data))).
Proof.
  fold path. unfold get_tle, retry. cbn [Nat.sub]. fold tenacity_wait.
  assert (Hcorrupt : forall text, files w !! path = Some text -> loads text = None ->
                                  cached self norad_id w = None).
  { intros text Hf Hl. unfold cached. fold path. now rewrite Hf. }
  split; [|split; [|split; [|split]]].
  - intros text data Hf Hl. apply retry_loop_hit. now apply (cached_after_write w data text).
  - intros Hround data w1 Hrun.
    destruct (cached self norad_id w) as [data0|] eqn:Hc.
    + rewrite (retry_loop_hit _ _ _ w data0 Hc) in Hrun. injection Hrun as <- <-.
      now apply retry_loop_hit.
    + destruct (retry_loop_live tenacity_wait 4 1 w Hc) as (n & _ & Hcases).
      rewrite Hrun in Hcases. cbn [fst snd] in Hcases.
      destruct Hcases as [(last & w_last & Hr & _)|(data' & body & Hbody & Hr & Hf & _)];
        [discriminate|].
      injection Hr as ->. apply retry_loop_hit.
      apply (cached_after_write w1 data' (dumps data')); [eapply Hround, Hbody|].
      rewrite Hf. apply lookup_insert_eq.
  - intros text Hf Hl. apply retry_loop_fetch_live. eapply Hcorrupt; eassumption.
  - intros Hf. apply retry_loop_fetch_live. unfold cached. fold path. now rewrite Hf.
  - intros text status body rest data Hf Hl Hs Hst Hb.
    rewrite retry_loop_fetch_live by (eapply Hcorrupt; eassumption).
    cbn [retry_loop]. unfold fetch_live, io_bind, session_get, emit. rewrite Hs.
    unfold raise_for_status. cbn [fst snd]. rewrite Hst.
    unfold ret, response_json. cbn [snd]. rewrite Hb.
    unfold ret, sleep, write_text, emit, success_log. cbn [files service log].
    fold path url. now rewrite <- !app_assoc.
Qed.

Lemma waits_slept n :
  (n <= 4)%nat -> map tenacity_wait (seq 1 n) = take n [1; 2; 4; 8]%Q.
Proof.
  intros Hn. do 5 (destruct n as [|n]; [reflexivity|]). lia.
Qed.

(** C2, as the code has it.  A call makes at most five attempts.  The wait
    after the attempt numbered [k] is [2 ** (k - 1)] seconds capped at 60,
    so the schedule starts 1, 2, 4, 8, 16 and never decreases; but a wait
    follows a failed attempt only when another attempt follows, so the
    waits of one call are the first [n <= 4] of 1, 2, 4, 8, and 16 seconds
    are never slept.  A cache hit costs no wait and no request.  When the
    call fails, five requests and the four waits were made, and the
    exception is [RetryError] holding the exception of the last attempt. *)
Theorem retry_policy w :
  let run := get_tle self norad_id w in
  exists new n,
    log (snd run) = log w ++ new
    /\ (n <= 4)%nat
    /\ backoffs new = take n [1; 2; 4; 8]%Q
    /\ (requests new <= n + 1)%nat
    /\ (forall data, cached self norad_id w = Some data -> new = [])
    /\ (forall e, fst run = Raise e ->
          exists last w_last,
            e = RetryError last
            /\ get_tle_attempt self norad_id w_last = (Raise last, snd run)
            /\ requests new = 5%nat
            /\ backoffs new = [1; 2; 4; 8]%Q)
    /\ map tenacity_wait [1; 2; 3; 4; 5]%nat = [1; 2; 4; 8; 16]%Q
    /\ (forall k, (1 <= k)%nat ->
          (tenacity_wait k == inject_Z (Z.min (2 ^ Z.of_nat (k - 1)) 60))%Q
          /\ (tenacity_wait k <= tenacity_wait (S k))%Q).
Proof.
  intros run. subst run. unfold get_tle, retry. cbn [Nat.sub]. fold tenacity_wait.
  assert (Hschedule : forall k, (1 <= k)%nat ->
            (tenacity_wait k == inject_Z (Z.min (2 ^ Z.of_nat (k - 1)) 60))%Q
            /\ (tenacity_wait k <= tenacity_wait (S k))%Q).
  { intros k Hk. split; [now apply tenacity_wait_closed_form|].
    now apply tenacity_wait_bounds. }
  destruct (cached self norad_id w) as [data0|] eqn:Hc.
  - rewrite (retry_loop_hit _ _ _ w data0 Hc). cbn [fst snd].
    exists [], 0%nat. rewrite app_nil_r.
    repeat split; try reflexivity; try (cbn; lia); try discriminate; apply Hschedule; auto.
  - destruct (retry_loop_live tenacity_wait 4 1 w Hc) as (n & Hn & Hcases).
    destruct (retries_log_facts tenacity_wait 1 n) as (Hb & Hr & _ & _).
    destruct Hcases as [(last & w_last & Hres & -> & Hf & Hl & Hlast)
                       |(data & body & Hbody & Hres & Hf & Hl)].
    + exists (retries_log url tenacity_wait 1 4 ++ [Get url]), 4%nat.
      rewrite backoffs_app, requests_app, Hb, Hr.
      repeat split; try reflexivity; try (cbn; lia); try discriminate;
        try (apply Hschedule; auto).
      * exact Hl.
      * intros e He. exists last, w_last. rewrite Hres in He. injection He as <-.
        repeat split. exact Hlast.
    + exists (retries_log url tenacity_wait 1 n ++ success_log self norad_id data), n.
      rewrite backoffs_app, requests_app, Hb, Hr, (waits_slept n Hn).
      repeat split; try (cbn; lia); try discriminate; try (apply Hschedule; auto).
      * exact Hl.
      * cbn [success_log backoffs flat_map app]. now rewrite app_nil_r.
      * intros e He. rewrite Hres in He. discriminate.
Qed.


End Client.

(* ================================================================== *)
(** * n2yo_client.py: concrete runs *)
(* ================================================================== *)

Lemma warm_cache_is_returned_witness :
  @get_tle braces_json sample_client 25544 warm_world = (Return "{tle}", warm_world)
  /\ @get_tle braces_json sample_client 25544 corrupt_world
     = (Return "{tle}",
        mkWorld {[ "cache_tle/25544.json" := "{tle}" ]} []
          [Get "https://api.n2yo.com/rest/v1/satellite/tle/25544&apiKey=KEY";
           Sleep Politeness (1 # 4);
           WriteText "cache_tle/25544.json" "{tle}"]).
Proof.
  split.
  - exact (proj1 (warm_cache_is_returned (H:=braces_json) sample_client 25544 warm_world)
             "{tle}" "{tle}" eq_refl eq_refl).
  - rewrite (proj2 (proj2 (proj2 (proj2
               (warm_cache_is_returned (H:=braces_json) sample_client 25544 corrupt_world))))
               "garbage" 200%Z "{tle}" [] "{tle}" eq_refl eq_refl eq_refl eq_refl eq_refl).
    unfold corrupt_world. cbn [files]. now rewrite insert_singleton_eq.
Defined.

(** C2, as stated, fails: with a service that refuses every connection the
    five attempts are separated by the four waits 1, 2, 4 and 8; no wait of
    16 seconds is made before the error comes out. *)
Lemma sixteen_seconds_never_slept :
  let run := @get_tle braces_json sample_client 25544 silent_world in
  fst run = Raise (RetryError (ConnectionError "connection refused"))
  /\ requests (log (snd run)) = 5%nat
  /\ backoffs (log (snd run)) = [1; 2; 4; 8]%Q
  /\ backoffs (log (snd run)) <> [1; 2; 4; 8; 16]%Q.
Proof. vm_compute. repeat split. discriminate. Qed.

Lemma retry_policy_witness :
  exists new n,
    log (snd (@get_tle braces_json sample_client 25544 flaky_world))
    = log flaky_world ++ new
    /\ (n <= 4)%nat
    /\ backoffs new = take n [1; 2; 4; 8]%Q.
Proof.
  destruct (retry_policy (H:=braces_json) sample_client 25544 flaky_world)
    as (new & n & Hlog & Hn & Hb & _).
  exists new, n. repeat split; assumption.
Defined.


(* ================================================================== *)
(** * tle_parse.py: malformed input *)
(* ================================================================== *)

Section Derive.
Context `{FloatOps} `{!DateTime} `{!Sgp4}.

Lemma derive_features_keys sat d :
  derive_features sat = Return d -> map fst d = feature_keys.
Proof.
  unfold derive_features.
  repeat match goal with
         | |- context [bind ?r _] =>
             lazymatch r with
             | bind _ _ => fail
             | _ => destruct r as [?e|?v]; cbn [bind]; [discriminate|]
             end
         end.
  intros [= <-]. reflexivity.
Qed.

Lemma parse_tle_fields_two_lines text l1 l2 rest :
  nonblank_lines text = l1 :: l2 :: rest ->
  parse_tle_fields (PyStr text)
  = match twoline2rv l1 l2 with
    | Raise _ => Return []
    | Return sat => derive_features sat
    end.
Proof.
  intros Hlines. unfold parse_tle_fields. cbn [truthy isinstance_str negb orb].
  destruct text as [|c text]; [discriminate Hlines|]. cbn [is_empty negb].
  rewrite Hlines. reflexivity.
Qed.

(** C4. [parse_tle_fields] returns the empty dict, and raises nothing, for
    every argument that is not a string (None among them), for the empty
    string, for a text with fewer than two non-blank lines, and for a text
    whose first two non-blank lines [twoline2rv] refuses.  A dict that it
    returns is either empty or has all the eleven keys. *)
Theorem malformed_input_gives_empty :
  (forall x, isinstance_str x = false -> parse_tle_fields x = Return [])
  /\ parse_tle_fields PyNoneObj = Return []
  /\ parse_tle_fields (PyStr "") = Return []
  /\ parse_tle_fields (PyStr "single line") = Return []
  /\ (forall text, (length (nonblank_lines text) < 2)%nat ->
        parse_tle_fields (PyStr text) = Return [])
  /\ (forall text l1 l2 rest e,
        nonblank_lines text = l1 :: l2 :: rest -> twoline2rv l1 l2 = Raise e ->
        parse_tle_fields (PyStr text) = Return [])
  /\ (forall x d, parse_tle_fields x = Return d -> d = [] \/ map fst d = feature_keys).
Proof.
  assert (Hshort : forall text, (length (nonblank_lines text) < 2)%nat ->
                                parse_tle_fields (PyStr text) = Return []).
  { intros text Hlen. unfold parse_tle_fields.
    destruct (negb (truthy (PyStr text)) || negb (isinstance_str (PyStr text)));
      [reflexivity|].
    apply Nat.ltb_lt in Hlen. now rewrite Hlen. }
  repeat split; try reflexivity.
  - intros x Hx. unfold parse_tle_fields. rewrite Hx. now rewrite orb_true_r.
  - exact Hshort.
  - intros text l1 l2 rest e Hlines Hraise.
    now rewrite (parse_tle_fields_two_lines text l1 l2 rest Hlines), Hraise.
  - intros x d. destruct x as [|text|z|f]; try (now intros [= <-]; left).
    + unfold parse_tle_fields. cbn [truthy isinstance_str negb orb].
      destruct (is_empty text); cbn [negb]; [now intros [= <-]; left|].
      destruct (nonblank_lines text) as [|l1 [|l2 rest]]; cbn [length Nat.ltb Nat.leb];
        try (now intros [= <-]; left).
      destruct (twoline2rv l1 l2) as [e|sat]; [now intros [= <-]; left|].
      intros Hd. right. eapply derive_features_keys, Hd.
    + unfold parse_tle_fields. cbn [isinstance_str negb]. rewrite orb_true_r.
      now intros [= <-]; left.
    + unfold parse_tle_fields. cbn [isinstance_str negb]. rewrite orb_true_r.
      now intros [= <-]; left.
Qed.

End Derive.

(* ================================================================== *)
(** * tle_parse.py: period and semi-major axis, over the reals *)
(* ================================================================== *)

Section RealArithmetic.

Lemma PI_bounds : (3.1415 < PI < 3.1421)%R.
Proof.
  pose proof (PI_2_3_7_ineq 1) as [Hlo Hhi].
  unfold sum_f_R0, tg_alt, PI_2_3_7_tg, Ratan_seq in Hlo, Hhi.
  simpl in Hlo, Hhi.
  split; lra.
Qed.

Lemma Rpower_cube x y : (Rpower x y ^ 3 = Rpower x (y * 3))%R.
Proof.
  rewrite <- (Rpower_pow 3) by (unfold Rpower; apply exp_pos).
  rewrite Rpower_mult. f_equal. simpl. lra.
Qed.

(** Kepler's third law: the cube of the axis times the square of the
    angular rate is the gravitational parameter. *)
Lemma kepler_third_law m :
  (0 < m)%R ->
  (0 < kepler_axis m)%R
  /\ (kepler_axis m ^ 3 * angular_rate m ^ 2 = 398600.4418)%R.
Proof.
  intros Hm. pose proof PI_bounds as [Hpi _].
  assert (Hn : (0 < angular_rate m)%R).
  { unfold angular_rate. apply Rdiv_lt_0_compat; [|lra]. apply Rmult_lt_0_compat; [|lra].
    apply Rmult_lt_0_compat; [exact Hm|lra]. }
  unfold kepler_axis. set (n := angular_rate m) in *.
  assert (Hd : (0 < Rpower n (2 / 3))%R) by (unfold Rpower; apply exp_pos).
  assert (Hu : (0 < Rpower 398600.4418 (1 / 3))%R) by (unfold Rpower; apply exp_pos).
  split; [now apply Rdiv_lt_0_compat|].
  replace ((Rpower 398600.4418 (1 / 3) / Rpower n (2 / 3)) ^ 3)%R
    with (Rpower 398600.4418 (1 / 3) ^ 3 / Rpower n (2 / 3) ^ 3)%R
    by (field; now apply Rgt_not_eq).
  rewrite !Rpower_cube.
  replace (1 / 3 * 3)%R with 1%R by field.
  replace (2 / 3 * 3)%R with (INR 2) by (simpl; field).
  rewrite Rpower_1 by lra. rewrite Rpower_pow by exact Hn.
  field. apply Rgt_not_eq. exact Hn.
Qed.

Lemma cube_lt a b : (0 <= a)%R -> (a ^ 3 < b ^ 3)%R -> (a < b)%R.
Proof.
  intros Ha Hlt. destruct (Rlt_or_le a b) as [Hab|Hab]; [exact Hab|].
  exfalso. apply (Rlt_irrefl (a ^ 3)). eapply Rlt_le_trans; [exact Hlt|].
  apply pow_incr. split; [|exact Hab]. destruct (Rle_or_lt 0 b) as [Hb|Hb]; [exact Hb|].
  exfalso. assert (b ^ 3 < 0)%R by nra. assert (0 <= a ^ 3)%R by (apply pow_le; exact Ha). lra.
Qed.

(** The axis of an orbit of 15.5 revolutions per day. *)
Lemma kepler_axis_15_5 : (6794 < kepler_axis 15.5 < 6795)%R.
Proof.
  destruct (kepler_third_law 15.5) as [Hpos Hlaw]; [lra|].
  pose proof PI_bounds as [Hlo Hhi].
  set (a := kepler_axis 15.5) in *.
  unfold angular_rate in Hlaw.
  assert (Hpi2 : (3.1415 * 3.1415 < PI * PI < 3.1421 * 3.1421)%R) by nra.
  set (t := (PI * PI)%R) in *.
  assert (Ha3 : (a ^ 3 * (961 * t) = 398600.4418 * 86400 * 86400)%R).
  { subst t. replace 15.5%R with (31 / 2)%R in Hlaw by lra.
    transitivity (a ^ 3 * (31 / 2 * 2 * PI / 86400) ^ 2 * 86400 * 86400)%R;
      [field|rewrite Hlaw; lra]. }
  assert (Ha0 : (0 <= a)%R) by lra.
  clearbody a t. clear Hlaw Hlo Hhi.
  split; apply cube_lt; try lra; nra.
Qed.
End RealArithmetic.

Section RealDerive.
Context `{!@DateTime real_floats} `{!@Sgp4 real_floats}.

Lemma real_div_Some x y : y <> 0%R -> real_div (Some x) (Some y) = Return (Some (x / y)%R).
Proof. intros Hy. unfold real_div. destruct (Req_dec_T y 0); [contradiction|reflexivity]. Qed.

Lemma real_pow_pos x y :
  (0 < x)%R -> y <> 0%R -> real_pow (Some x) (Some y) = Return (Real (Some (Rpower x y))).
Proof.
  intros Hx Hy. unfold real_pow.
  destruct (Req_dec_T y 0); [contradiction|].
  destruct (Req_dec_T x 0); [lra|].
  destruct (Rlt_dec x 0); [lra|reflexivity].
Qed.

Lemma literals :
  Q2R 1 = 1%R /\ Q2R 2 = 2%R /\ Q2R 3 = 3%R /\ Q2R 1440 = 1440%R
  /\ Q2R 86400 = 86400%R /\ Q2R mu_earth = 398600.4418%R
  /\ Q2R earth_radius_km = 6378.137%R.
Proof. unfold Q2R, mu_earth, earth_radius_km. cbn [Qnum Qden]. repeat split; lra. Qed.

Lemma features_of_positive_motion (sat : @Satrec real_floats) (k : R) (epoch : string) :
  no_kozai sat = finite k ->
  (0 < k * 1440 / (2 * PI))%R ->
  utc_isoformat (epoch_unix_of sat) = Return epoch ->
  let m := (k * 1440 / (2 * PI))%R in
  exists d,
    derive_features sat = Return d
    /\ dict_get "mean_motion_rev_per_day" d = Some (VFloat (finite m))
    /\ dict_get "period_min" d = Some (VFloat (finite (1440 / m)))
    /\ dict_get "semi_major_axis_km" d = Some (VFloat (finite (kepler_axis m))).
Proof.
  intros Hk Hm Hepoch m.
  pose proof PI_bounds as [Hpi _].
  assert (H2pi : (2 * PI <> 0)%R) by (apply Rgt_not_eq; lra).
  assert (Hm0 : m <> 0%R) by (apply Rgt_not_eq; exact Hm).
  assert (Hn : (0 < m * 2 * PI / 86400)%R).
  { apply Rdiv_lt_0_compat; [|lra]. apply Rmult_lt_0_compat; [|lra].
    apply Rmult_lt_0_compat; [exact Hm|lra]. }
  assert (H3 : (3 <> 0)%R) by (apply Rgt_not_eq; lra).
  assert (H86400 : (86400 <> 0)%R) by (apply Rgt_not_eq; lra).
  assert (Hmu : (0 < 398600.4418)%R) by lra.
  assert (H13 : (1 / 3 <> 0)%R) by (apply Rgt_not_eq; lra).
  assert (H23 : (2 / 3 <> 0)%R) by (apply Rgt_not_eq; lra).
  destruct literals as (L1 & L2 & L3 & L1440 & L86400 & Lmu & Lre).
  unfold derive_features. cbn zeta. rewrite Hepoch. cbn [bind].
  rewrite Hk. unfold finite.
  cbn [fdiv fmul fadd fsub lit pi nan fpow nonzero isnan real_floats lift2].
  rewrite L1, L2, L3, L1440, L86400, Lmu, Lre.
  rewrite (real_div_Some (k * 1440) (2 * PI)) by exact H2pi.
  cbn [try_except lift2]. fold m.
  destruct (Req_dec_T m 0) as [Hz|_]; [contradiction|]. cbn [andb negb].
  rewrite !real_div_Some by assumption. cbn [bind].
  rewrite !real_pow_pos by assumption. cbn [bind ndiv].
  cbn [fdiv real_floats].
  rewrite !real_div_Some by (apply Rgt_not_eq; unfold Rpower; apply exp_pos).
  cbn [bind try_except nmul nsub to_float fmul fsub real_floats].
  eexists. split; [reflexivity|]. repeat split.
Qed.

(** C5, as the code has it.  For a two-line element set that
    [twoline2rv] accepts and whose mean motion [m], in revolutions per day,
    is positive, the feature set has [period_min = 1440 / m] and the
    semi-major axis of Kepler's third law with [mu = 398600.4418]: its cube
    times the square of the angular rate [m * 2 * pi / 86400] is [mu].  For
    15.5 revolutions per day the period is between 92.90 and 92.91 minutes
    and the axis between 6794 and 6795 kilometres. *)
Theorem period_and_axis_of_parsed_tle text l1 l2 rest
    (sat : @Satrec real_floats) (k : R) (epoch : string) :
  nonblank_lines text = l1 :: l2 :: rest ->
  twoline2rv l1 l2 = Return sat ->
  no_kozai sat = finite k ->
  (0 < k * 1440 / (2 * PI))%R ->
  utc_isoformat (epoch_unix_of sat) = Return epoch ->
  let m := (k * 1440 / (2 * PI))%R in
  exists d,
    parse_tle_fields (PyStr text) = Return d
    /\ dict_get "mean_motion_rev_per_day" d = Some (VFloat (finite m))
    /\ dict_get "period_min" d = Some (VFloat (finite (1440 / m)))
    /\ dict_get "semi_major_axis_km" d = Some (VFloat (finite (kepler_axis m)))
    /\ (0 < kepler_axis m)%R
    /\ (kepler_axis m ^ 3 * angular_rate m ^ 2 = 398600.4418)%R
    /\ (m = 15.5%R ->
        (92.90 < 1440 / m < 92.91)%R /\ (6794 < kepler_axis m < 6795)%R).
Proof.
  intros Hlines Hsat Hk Hm Hepoch m.
  destruct (features_of_positive_motion sat k epoch Hk Hm Hepoch)
    as (d & Hd & Hmotion & Hperiod & Haxis).
  exists d. rewrite (parse_tle_fields_two_lines text l1 l2 rest Hlines), Hsat.
  destruct (kepler_third_law m Hm) as [Hpos Hlaw].
  split; [exact Hd|]. split; [exact Hmotion|]. split; [exact Hperiod|].
  split; [exact Haxis|]. split; [exact Hpos|]. split; [exact Hlaw|].
  intros Hm15. rewrite Hm15. split; [lra|apply kepler_axis_15_5].
Qed.

Lemma two_thirds_not_whole z : IZR z <> (2 / 3)%R.
Proof.
  intros Hz. assert (Hz3 : IZR (3 * z) = IZR 2) by (rewrite mult_IZR, Hz; field).
  apply eq_IZR in Hz3. lia.
Qed.

End RealDerive.

(* ================================================================== *)
(** * tle_parse.py: concrete element sets *)
(* ================================================================== *)

Lemma sample_motion : (15.5 * (2 * PI) / 1440 * 1440 / (2 * PI) = 15.5)%R.
Proof.
  pose proof PI_bounds as [Hpi _]. replace 15.5%R with (31 / 2)%R by lra.
  field. apply Rgt_not_eq. lra.
Qed.

(** With a negative mean motion the angular rate is negative, its power
    [2/3] is complex, and [float(semi_major_axis_km)] raises. *)
Lemma negative_motion_raises :
  @derive_features real_floats fixed_clock negative_motion_satrec
  = Raise (TypeError "float() argument must be a string or a real number, not 'complex'").
Proof.
  pose proof PI_bounds as [Hpi _].
  assert (H2pi : (2 * PI <> 0)%R) by (apply Rgt_not_eq; lra).
  set (m := (- (15.5 * (2 * PI) / 1440) * 1440 / (2 * PI))%R).
  assert (Hmeq : m = (- (31 / 2))%R)
    by (subst m; replace 15.5%R with (31 / 2)%R by lra; field; apply Rgt_not_eq; lra).
  assert (Hm0 : m <> 0%R) by (rewrite Hmeq; apply Rlt_not_eq; lra).
  assert (Hn : (m * 2 * PI / 86400 < 0)%R).
  { rewrite Hmeq. assert (0 < 31 / 2 * 2 * PI / 86400)%R; [|lra].
    apply Rdiv_lt_0_compat; [|lra]. apply Rmult_lt_0_compat; lra. }
  assert (H3 : (3 <> 0)%R) by (apply Rgt_not_eq; lra).
  assert (H86400 : (86400 <> 0)%R) by (apply Rgt_not_eq; lra).
  assert (Hmu : (0 < 398600.4418)%R) by lra.
  assert (H13 : (1 / 3 <> 0)%R) by (apply Rgt_not_eq; lra).
  assert (H23 : (2 / 3 <> 0)%R) by (apply Rgt_not_eq; lra).
  destruct literals as (L1 & L2 & L3 & L1440 & L86400 & Lmu & Lre).
  unfold derive_features. cbn zeta.
  change (utc_isoformat (epoch_unix_of negative_motion_satrec))
    with (@Return string "2024-01-01T12:00:00+00:00"). cbn [bind].
  unfold negative_motion_satrec at 1 2 3 4 5. cbn [no_kozai ecco].
  cbn [fdiv fmul fadd fsub lit pi nan fpow nonzero isnan real_floats lift2].
  rewrite L1, L2, L3, L1440, L86400, Lmu, Lre.
  rewrite (real_div_Some _ (2 * PI)) by exact H2pi.
  cbn [try_except lift2]. fold m.
  destruct (Req_dec_T m 0) as [Hz|_]; [contradiction|]. cbn [andb negb].
  rewrite !real_div_Some by assumption. cbn [bind].
  rewrite (real_pow_pos 398600.4418) by assumption. cbn [bind].
  unfold real_pow.
  destruct (Req_dec_T (2 / 3) 0) as [Hz|_]; [contradiction|].
  destruct (Req_dec_T (m * 2 * PI / 86400) 0) as [Hz|_]; [lra|].
  destruct (Rlt_dec (m * 2 * PI / 86400) 0) as [_|Hge]; [|contradiction].
  destruct (Req_dec_T (IZR (Int_part (2 / 3))) (2 / 3)) as [Hw|_];
    [now destruct (two_thirds_not_whole _ Hw)|].
  reflexivity.
Qed.

Lemma malformed_input_gives_empty_witness :
  @parse_tle_fields real_floats fixed_clock line_number_parser
    (PyStr "1 25544U 98067A   24001.50000000")
  = Return [].
Proof.
  apply (proj1 (proj2 (proj2 (proj2 (proj2
           (@malformed_input_gives_empty real_floats fixed_clock line_number_parser)))))).
  vm_compute. lia.
Defined.

Lemma period_and_axis_of_parsed_tle_witness :
  exists d,
    @parse_tle_fields real_floats fixed_clock line_number_parser (PyStr sample_tle)
    = Return d
    /\ dict_get "period_min" d
       = Some (VFloat (finite (1440 / (15.5 * (2 * PI) / 1440 * 1440 / (2 * PI))))).
Proof.
  assert (Hpos : (0 < 15.5 * (2 * PI) / 1440 * 1440 / (2 * PI))%R)
    by (rewrite sample_motion; lra).
  destruct (@period_and_axis_of_parsed_tle fixed_clock line_number_parser sample_tle
              _ _ _ sample_satrec _ "2024-01-01T12:00:00+00:00"
              eq_refl eq_refl eq_refl Hpos eq_refl)
    as (d & Hd & _ & Hperiod & _).
  exists d. split; assumption.
Defined.

(** C5, as stated, fails: for the element set [sample_tle], read as 15.5
    revolutions per day, the semi-major axis in the feature set is below
    6800 kilometres; and for a negative mean motion, which is finite and
    not zero, no feature set is produced. *)
Lemma axis_of_15_5_is_below_6800 :
  (exists d a,
      @parse_tle_fields real_floats fixed_clock line_number_parser (PyStr sample_tle)
      = Return d
      /\ dict_get "mean_motion_rev_per_day" d = Some (VFloat (finite 15.5))
      /\ dict_get "semi_major_axis_km" d = Some (VFloat (finite a))
      /\ ~ (6800 <= a <= 6900)%R)
  /\ @derive_features real_floats fixed_clock negative_motion_satrec
     = Raise (TypeError "float() argument must be a string or a real number, not 'complex'").
Proof.
  split; [|apply negative_motion_raises].
  assert (Hpos : (0 < 15.5 * (2 * PI) / 1440 * 1440 / (2 * PI))%R)
    by (rewrite sample_motion; lra).
  destruct (@features_of_positive_motion fixed_clock sample_satrec _
              "2024-01-01T12:00:00+00:00" eq_refl Hpos eq_refl)
    as (d & Hd & Hmotion & _ & Haxis).
  rewrite sample_motion in Hmotion, Haxis.
  exists d, (kepler_axis 15.5). split; [|split; [exact Hmotion|split; [exact Haxis|]]].
  - rewrite (@parse_tle_fields_two_lines real_floats fixed_clock line_number_parser
               sample_tle _ _ [] eq_refl).
    exact Hd.
  - pose proof kepler_axis_15_5. lra.
Qed.

(* ================================================================== *)
(** * n2yo_client.py: one cache file per identifier *)
(* ================================================================== *)

Lemma decimal_inj z1 z2 : decimal z1 = decimal z2 -> z1 = z2.
Proof.
  assert (Hparse : forall z, NilZero.int_of_string (decimal z) = Some (Z.to_int z)).
  { intros z. unfold decimal. apply NilZero.isi; destruct z; simpl; try discriminate;
      intros [= Hnil]; now apply DecimalPos.Unsigned.to_uint_nonnil in Hnil. }
  intros Heq. pose proof (Hparse z1) as H1. rewrite Heq, Hparse in H1.
  injection H1 as H1. rewrite <- (DecimalZ.of_to z1), <- (DecimalZ.of_to z2). now rewrite H1.
Qed.

Lemma append_inj_l (a b c : string) : (a ++ b = a ++ c)%string -> b = c.
Proof. induction a as [|x a IH]; simpl; [auto|]. intros [= H]. auto. Qed.

Lemma append_length (a b : string) :
  String.length (a ++ b) = (String.length a + String.length b)%nat.
Proof. induction a as [|x a IH]; simpl; [reflexivity|]. now rewrite IH. Qed.

Lemma append_inj_r (a b c : string) : (a ++ c = b ++ c)%string -> a = b.
Proof.
  revert b. induction a as [|x a IH]; intros [|y b]; intros Heq.
  - reflexivity.
  - apply (f_equal String.length) in Heq. rewrite !append_length in Heq.
    cbn [String.length] in Heq. lia.
  - apply (f_equal String.length) in Heq. rewrite !append_length in Heq.
    cbn [String.length] in Heq. lia.
  - injection Heq as -> Heq. f_equal. now apply IH.
Qed.

Lemma cache_path_inj self id1 id2 :
  cache_path self id1 = cache_path self id2 -> id1 = id2.
Proof.
  unfold cache_path. intros Heq.
  apply append_inj_l, append_inj_l in Heq. apply append_inj_r in Heq.
  now apply decimal_inj.
Qed.

Section ClientExtras.
Context `{Json}.
Variable self : N2YOClient.
Variable norad_id : Z.

(** The files after a call are those before it, or those with the cache
    file of the identifier written. *)
Lemma get_tle_files w :
  files (snd (get_tle self norad_id w)) = files w
  \/ exists data,
       files (snd (get_tle self norad_id w))
       = <[cache_path self norad_id := dumps data]> (files w).
Proof.
  unfold get_tle, retry. cbn [Nat.sub].
  destruct (cached self norad_id w) as [data0|] eqn:Hc.
  - left. now rewrite (retry_loop_hit self norad_id _ _ _ w data0 Hc).
  - destruct (retry_loop_live self norad_id (wait_exponential 1 1 60) 4 1 w Hc)
      as (n & _ & [(last & w_last & _ & _ & Hf & _)|(data & body & _ & _ & Hf & _)]).
    + now left.
    + right. now exists data.
Qed.

(** X1. The cache has one file per identifier: two identifiers never share
    a cache path, and a call for one identifier leaves every other file, and
    so the cache entry of every other identifier, as it was. *)
Theorem one_cache_file_per_identifier w :
  (forall other, cache_path self norad_id = cache_path self other -> norad_id = other)
  /\ (forall p, p <> cache_path self norad_id ->
        files (snd (get_tle self norad_id w)) !! p = files w !! p)
  /\ (forall other, other <> norad_id ->
        cached self other (snd (get_tle self norad_id w)) = cached self other w).
Proof.
  assert (Hframe : forall p, p <> cache_path self norad_id ->
            files (snd (get_tle self norad_id w)) !! p = files w !! p).
  { intros p Hp. destruct (get_tle_files w) as [->|[data ->]]; [reflexivity|].
    now rewrite lookup_insert_ne. }
  split; [intros other; apply cache_path_inj|]. split; [exact Hframe|].
  intros other Hother. unfold cached. rewrite Hframe; [reflexivity|].
  intros Heq. apply Hother. symmetry. now apply cache_path_inj in Heq.
Qed.

Lemma total_backoffs_slept n :
  (n <= 4)%nat ->
  (total (map tenacity_wait (seq 1 n)) <= 15)%Q
  /\ (n = 4%nat -> total (map tenacity_wait (seq 1 n)) = 15%Q).
Proof.
  intros Hn. do 5 (destruct n as [|n]; [split; [vm_compute; discriminate|];
                                       intros; try lia; reflexivity|]).
  lia.
Qed.

(** X2. One call never sleeps more than 15 seconds of backoff, the sum of
    the four waits 1, 2, 4 and 8; a call that fails has slept exactly these
    15 seconds, and no politeness delay.  With the politeness delay, which
    is slept at most once, a call sleeps at most 15 seconds plus that
    delay. *)
Theorem sleep_budget w :
  (0 <= polite_delay_seconds self)%Q ->
  let run := get_tle self norad_id w in
  exists new,
    log (snd run) = log w ++ new
    /\ (total (backoffs new) <= 15)%Q
    /\ (length (polite_sleeps new) <= 1)%nat
    /\ (total (backoffs new) + total (polite_sleeps new)
        <= 15 + polite_delay_seconds self)%Q
    /\ (forall e, fst run = Raise e ->
          total (backoffs new) = 15%Q /\ polite_sleeps new = []).
Proof.
  intros Hpolite run. subst run. unfold get_tle, retry. cbn [Nat.sub]. fold tenacity_wait.
  destruct (cached self norad_id w) as [data0|] eqn:Hc.
  - rewrite (retry_loop_hit self norad_id _ _ _ w data0 Hc). cbn [fst snd].
    exists []. rewrite app_nil_r. repeat split; try discriminate.
    + cbn. lia.
    + cbn [backoffs polite_sleeps flat_map total fold_right].
      apply (Qplus_le_compat 0 15 0); [discriminate|exact Hpolite].
  - destruct (retry_loop_live self norad_id tenacity_wait 4 1 w Hc) as (n & Hn & Hcases).
    destruct (retries_log_facts self norad_id tenacity_wait 1 n) as (Hb & _ & Hp & _).
    destruct (total_backoffs_slept n Hn) as [Hle Hfour].
    destruct Hcases as [(last & w_last & Hres & Hn4 & Hf & Hl & Hlast)
                       |(data & body & Hbody & Hres & Hf & Hl)].
    + exists (retries_log (tle_url self norad_id) tenacity_wait 1 n
                ++ [Get (tle_url self norad_id)]).
      rewrite backoffs_app, polite_sleeps_app, Hb, Hp. cbn [backoffs polite_sleeps flat_map].
      rewrite !app_nil_r. cbn [length total fold_right app]. rewrite Hres.
      split; [exact Hl|]. split; [exact Hle|]. split; [lia|]. split.
      * apply Qplus_le_compat; [exact Hle|exact Hpolite].
      * intros e _. split; [now apply Hfour|reflexivity].
    + exists (retries_log (tle_url self norad_id) tenacity_wait 1 n
                ++ success_log self norad_id data).
      rewrite backoffs_app, polite_sleeps_app, Hb, Hp.
      cbn [success_log backoffs polite_sleeps flat_map]. rewrite !app_nil_r.
      cbn [length total fold_right app]. rewrite Hres.
      split; [exact Hl|]. split; [exact Hle|]. split; [lia|]. split.
      * apply Qplus_le_compat; [exact Hle|]. rewrite Qplus_0_r. apply Qle_refl.
      * intros e He. discriminate He.
Qed.

Lemma fetch_live_accepted w r rest data :
  service w = r :: rest -> acceptable r = Some data ->
  fetch_live self norad_id w
  = (Return data,
     mkWorld (<[cache_path self norad_id := dumps data]> (files w)) rest
       (log w ++ success_log self norad_id data)).
Proof.
  intros Hs Hr. unfold fetch_live, io_bind, session_get, emit. rewrite Hs.
  destruct r as [msg|status body]; [discriminate Hr|]. cbn [acceptable] in Hr.
  unfold raise_for_status. cbn [fst snd].
  destruct ((400 <=? status)%Z && (status <? 600)%Z); [discriminate Hr|].
  unfold ret, response_json. cbn [snd]. rewrite Hr.
  unfold ret, sleep, write_text, emit, success_log. cbn [files service log].
  now rewrite <- !app_assoc.
Qed.

Lemma fetch_live_refused w :
  match service w with
  | [] => True
  | r :: _ => acceptable r = None
  end ->
  exists e,
    fetch_live self norad_id w
    = (Raise e, mkWorld (files w) (tail (service w)) (log w ++ [Get (tle_url self norad_id)])).
Proof.
  intros Hr. unfold fetch_live, io_bind, session_get, emit.
  destruct (service w) as [|[msg|status body] rest]; cbn [files service log tail].
  - eexists. reflexivity.
  - eexists. reflexivity.
  - cbn [acceptable] in Hr. unfold raise_for_status. cbn [fst snd].
    destruct ((400 <=? status)%Z && (status <? 600)%Z).
    + eexists. reflexivity.
    + unfold ret, response_json. cbn [snd]. rewrite Hr. eexists. reflexivity.
Qed.

Lemma retry_loop_first_accepted wait remaining k w bad r rest data :
  cached self norad_id w = None ->
  service w = bad ++ r :: rest ->
  Forall (fun b => acceptable b = None) bad ->
  (length bad <= remaining)%nat ->
  acceptable r = Some data ->
  retry_loop wait remaining k (get_tle_attempt self norad_id) w
  = (Return data,
     mkWorld (<[cache_path self norad_id := dumps data]> (files w)) rest
       (log w ++ retries_log (tle_url self norad_id) wait k (length bad)
              ++ success_log self norad_id data)).
Proof.
  revert remaining k w. induction bad as [|b bad IH]; intros remaining k w Hc Hs Hbad Hlen Hr.
  - destruct remaining; cbn [retry_loop]; rewrite (get_tle_attempt_miss self norad_id w Hc),
      (fetch_live_accepted w r rest data Hs Hr); reflexivity.
  - destruct remaining as [|remaining]; [cbn in Hlen; lia|].
    apply Forall_cons in Hbad as [Hb Hbad].
    cbn [retry_loop]. rewrite (get_tle_attempt_miss self norad_id w Hc).
    destruct (fetch_live_refused w) as [e He]; [rewrite Hs; exact Hb|].
    rewrite He, Hs. cbn [tail app].
    set (w1 := emit (Sleep Backoff (wait k))
                 (mkWorld (files w) (bad ++ r :: rest)
                    (log w ++ [Get (tle_url self norad_id)]))).
    assert (Hc1 : cached self norad_id w1 = None) by exact Hc.
    assert (Hlen1 : (length bad <= remaining)%nat) by (cbn [length] in Hlen; lia).
    rewrite (IH remaining (S k) w1 Hc1 eq_refl Hbad Hlen1 Hr).
    unfold w1, emit. cbn [files service log length]. rewrite retries_log_S.
    now rewrite <- !app_assoc.
Qed.

Lemma retry_loop_none_accepted wait remaining k w :
  cached self norad_id w = None ->
  Forall (fun b => acceptable b = None) (take (S remaining) (service w)) ->
  exists e,
    retry_loop wait remaining k (get_tle_attempt self norad_id) w
    = (Raise (RetryError e),
       mkWorld (files w) (drop (S remaining) (service w))
         (log w ++ retries_log (tle_url self norad_id) wait k remaining
                ++ [Get (tle_url self norad_id)])).
Proof.
  revert k w. induction remaining as [|remaining IH]; intros k w Hc Hbad.
  - destruct (fetch_live_refused w) as [e He].
    { destruct (service w) as [|r rest]; [exact I|].
      now apply Forall_cons in Hbad as [Hr _]. }
    exists e. cbn [retry_loop]. rewrite (get_tle_attempt_miss self norad_id w Hc), He.
    cbn [retries_log seq flat_map app]. now destruct (service w).
  - destruct (fetch_live_refused w) as [e He].
    { destruct (service w) as [|r rest]; [exact I|].
      now apply Forall_cons in Hbad as [Hr _]. }
    set (w1 := emit (Sleep Backoff (wait k))
                 (mkWorld (files w) (tail (service w))
                    (log w ++ [Get (tle_url self norad_id)]))).
    assert (Hc1 : cached self norad_id w1 = None) by exact Hc.
    assert (Hbad1 : Forall (fun b => acceptable b = None) (take (S remaining) (service w1))).
    { unfold w1, emit. cbn [service]. destruct (service w) as [|r rest]; [constructor|].
      cbn [tail]. now apply Forall_cons in Hbad as [_ Hrest]. }
    destruct (IH (S k) w1 Hc1 Hbad1) as [e' He'].
    exists e'. cbn [retry_loop]. rewrite (get_tle_attempt_miss self norad_id w Hc), He.
    fold w1. rewrite He'. unfold w1, emit. cbn [files service log].
    rewrite retries_log_S. rewrite <- !app_assoc.
    destruct (service w); reflexivity.
Qed.

(** X3. On a cache miss the call is decided by the answers of the service
    to its requests: it returns the payload of the first answer that has a
    status outside 400 .. 599 and a body that parses, provided at most four
    rejected answers come before it, having waited once after each of
    those, and it writes that payload to the cache; when none of the first
    five answers is accepted it raises [RetryError], with five answers
    used and the cache untouched. *)
Theorem first_accepted_answer_wins w :
  cached self norad_id w = None ->
  (forall bad r rest data,
      service w = bad ++ r :: rest ->
      Forall (fun b => acceptable b = None) bad ->
      (length bad <= 4)%nat ->
      acceptable r = Some data ->
      get_tle self norad_id w
      = (Return data,
         mkWorld (<[cache_path self norad_id := dumps data]> (files w)) rest
           (log w ++ retries_log (tle_url self norad_id) tenacity_wait 1 (length bad)
                  ++ success_log self norad_id data)))
  /\ (Forall (fun b => acceptable b = None) (take 5 (service w)) ->
      exists e,
        get_tle self norad_id w
        = (Raise (RetryError e),
           mkWorld (files w) (drop 5 (service w))
             (log w ++ retries_log (tle_url self norad_id) tenacity_wait 1 4
                    ++ [Get (tle_url self norad_id)]))).
Proof.
  intros Hc. unfold get_tle, retry. cbn [Nat.sub]. fold tenacity_wait. split.
  - intros bad r rest data Hs Hbad Hlen Hr.
    exact (retry_loop_first_accepted tenacity_wait 4 1 w bad r rest data Hc Hs Hbad Hlen Hr).
  - intros Hbad. now apply retry_loop_none_accepted.
Qed.

End ClientExtras.

(* ================================================================== *)
(** * crosswalk.py: what a built crosswalk looks like *)
(* ================================================================== *)

Section CrosswalkExtras.
Context `{NumericParser}.

(** A crosswalk that was returned is the projection of the catalog rows
    that have an identifier. *)
Lemma build_satcat_crosswalk_Return df i j out :
  frame_ok df ->
  index_of "INTLDES" (columns df) = Some i ->
  index_of "NORAD_CAT_ID" (columns df) = Some j ->
  index_of "norad_id" (columns df) = None ->
  build_satcat_crosswalk df = Return out ->
  exists k1 k2 k3 k4,
    index_of "SATNAME" (columns df) = Some k1
    /\ index_of "COUNTRY" (columns df) = Some k2
    /\ index_of "LAUNCH" (columns df) = Some k3
    /\ index_of "DECAY" (columns df) = Some k4
    /\ forallb (fun r => whole (to_numeric_cell (cell_at j r)))
         (filter (fun r => isna (cell_at j r) = false) (rows df)) = true
    /\ out = mkFrame crosswalk_columns
               (map (crosswalk_row i j k1 k2 k3 k4)
                  (filter (fun r => isna (cell_at j r) = false) (rows df))).
Proof.
  intros Hok Hi Hj Hn Hout.
  rewrite (build_satcat_crosswalk_steps df i j Hok Hi Hj Hn) in Hout. cbn zeta in Hout.
  set (kept := filter (fun r => isna (cell_at j r) = false) (rows df)) in *.
  assert (Hkept : Forall (fun r => length r = length (columns df)) kept).
  { apply Forall_forall. intros r Hr. apply list_elem_of_filter in Hr as [_ Hr].
    revert r Hr. apply Forall_forall, frame_ok_Forall, Hok. }
  destruct (forallb _ kept) eqn:Hw; [|discriminate].
  unfold select, crosswalk_columns, rename in Hout. cbn [columns rows indices_of] in Hout.
  rewrite (index_of_rename_new _ _ _ Hn), Hj in Hout.
  rewrite !index_of_rename_other, Hi in Hout by discriminate.
  destruct (index_of "SATNAME" (columns df)) as [k1|] eqn:H1; [|discriminate].
  destruct (index_of "COUNTRY" (columns df)) as [k2|] eqn:H2; [|discriminate].
  destruct (index_of "LAUNCH" (columns df)) as [k3|] eqn:H3; [|discriminate].
  destruct (index_of "DECAY" (columns df)) as [k4|] eqn:H4; [|discriminate].
  cbn [bind] in Hout. injection Hout as <-.
  exists k1, k2, k3, k4. repeat split. f_equal. rewrite map_map.
  apply map_ext_Forall. eapply Forall_impl; [exact Hkept|].
  intros r Hr. cbn beta. unfold crosswalk_row. cbn [map].
  assert (Hli : (i < length r)%nat) by (rewrite Hr; eapply index_of_lt, Hi).
  assert (Hlj : (j < length r)%nat) by (rewrite Hr; eapply index_of_lt, Hj).
  assert (Hij : i <> j) by (eapply index_of_ne; [|exact Hi|exact Hj]; discriminate).
  rewrite (cell_at_insert_eq j) by (now rewrite length_insert).
  rewrite (cell_at_insert_ne j i), (cell_at_insert_eq i) by (exact Hli || congruence).
  rewrite !(cell_at_insert_ne j), !(cell_at_insert_ne i);
    try (eapply index_of_ne; [|eassumption|eassumption]; discriminate).
  reflexivity.
Qed.

(** X4. A crosswalk that [build_satcat_crosswalk] returns has the six
    columns, one cell per column in every row, and no more rows than the
    catalog; in every row the designator is a text in upper case without
    whitespace, never a missing value, and the identifier is an integer or
    [pd.NA]. *)
Theorem crosswalk_is_well_formed df i j out :
  frame_ok df ->
  index_of "INTLDES" (columns df) = Some i ->
  index_of "NORAD_CAT_ID" (columns df) = Some j ->
  index_of "norad_id" (columns df) = None ->
  build_satcat_crosswalk df = Return out ->
  columns out = crosswalk_columns
  /\ frame_ok out
  /\ (length (rows out) <= length (rows df))%nat
  /\ Forall (fun r =>
        (exists t, cell_at 0 r = Str t /\ spaceless t = true /\ upper t = t)
        /\ (cell_at 1 r = NA \/ exists z, cell_at 1 r = Int z))
       (rows out).
Proof.
  intros Hok Hi Hj Hn Hout.
  destruct (build_satcat_crosswalk_Return df i j out Hok Hi Hj Hn Hout)
    as (k1 & k2 & k3 & k4 & _ & _ & _ & _ & _ & ->).
  cbn [columns rows]. split; [reflexivity|]. split; [|split].
  - unfold frame_ok. cbn [columns rows]. apply forallb_forall.
    intros r Hr. apply in_map_iff in Hr as (r0 & <- & _). reflexivity.
  - rewrite length_map. apply length_filter.
  - apply Forall_forall. intros r Hr.
    apply list_elem_of_In, in_map_iff in Hr as (r0 & <- & _).
    unfold crosswalk_row, cell_at. cbn [nth]. split.
    + exists (normal_form (py_str (nth i r0 NaN))). split; [reflexivity|].
      split; [apply normal_form_spaceless|apply normal_form_upper].
    + destruct (to_numeric_cell (nth j r0 NaN)) as [q|]; cbn [Int64_of]; eauto.
Qed.


Lemma index_of_with_suffix_shared c own other sfx :
  (forall d, (d ++ sfx)%string <> c) ->
  index_of c other <> None ->
  index_of c (with_suffix own other sfx) = None.
Proof.
  intros Hsfx Hshared. unfold with_suffix.
  induction own as [|d own IH]; cbn [map index_of]; [reflexivity|].
  rewrite IH. destruct (index_of d other) eqn:Hd.
  - destruct (String.eqb_spec c (d ++ sfx)%string) as [->|_]; [|reflexivity].
    now destruct (Hsfx d).
  - destruct (String.eqb_spec c d) as [->|_]; [contradiction|reflexivity].
Qed.

Lemma keyed_columns_eq df s :
  columns (setitem df "intldes" s) = keyed_columns df.
Proof. unfold setitem, keyed_columns. now destruct (index_of "intldes" (columns df)). Qed.

(** The frame that [merge_unoosa_with_crosswalk] returns. *)
Lemma merge_unoosa_with_crosswalk_Return unoosa xwalk col p j :
  frame_ok unoosa ->
  index_of col (columns unoosa) = Some p ->
  index_of "INTLDES" (columns unoosa) = None ->
  index_of "INTLDES" (columns xwalk) = Some j ->
  merge_unoosa_with_crosswalk unoosa xwalk col
  = Return (rename "SATNAME" "satcat_satname"
      (mkFrame
         (delete (length (keyed_columns unoosa) + j)%nat
            (with_suffix (keyed_columns unoosa) (columns xwalk) "_x"
               ++ with_suffix (columns xwalk) (keyed_columns unoosa) "_y"))
         (flat_map (fun l => map (app (with_key unoosa p l))
                       (catalog_part j (length (columns xwalk))
                          (matches (normal_cell (cell_at p l)) j (rows xwalk))))
            (rows unoosa)))).
Proof.
  intros Hok Hp Hnone Hj.
  set (series := normalize_intldes (map (cell_at p) (rows unoosa))).
  assert (Hq : index_of "intldes" (keyed_columns unoosa)
               = Some (match index_of "intldes" (columns unoosa) with
                       | Some q => q | None => length (columns unoosa) end)).
  { rewrite <- (keyed_columns_eq unoosa series). apply index_of_setitem_columns. }
  assert (Hleft : index_of "INTLDES" (keyed_columns unoosa) = None).
  { rewrite <- (keyed_columns_eq unoosa series).
    apply index_of_setitem_other; [discriminate|exact Hnone]. }
  assert (Hlen : Forall (fun l => length (with_key unoosa p l)
                                  = length (keyed_columns unoosa)) (rows unoosa)).
  { pose proof (frame_ok_Forall _ (setitem_frame_ok unoosa "intldes" series Hok)) as Hl.
    rewrite keyed_columns_eq in Hl. unfold series in Hl. rewrite keyed_rows in Hl.
    apply Forall_forall. intros l Hl0. rewrite Forall_forall in Hl. apply Hl.
    apply list_elem_of_In, in_map, list_elem_of_In, Hl0. }
  unfold merge_unoosa_with_crosswalk, has_column. rewrite Hp. cbn [negb].
  unfold getitem. rewrite Hp. cbn [bind]. fold series.
  unfold merge_left. rewrite keyed_columns_eq, Hq, Hj. cbn [bind].
  unfold drop_column. cbn [columns rows].
  rewrite index_of_app.
  rewrite (index_of_with_suffix "INTLDES" (keyed_columns unoosa))
    by (try (intros d; apply not_suffixed_INTLDES); auto).
  rewrite Hleft.
  rewrite (index_of_with_suffix "INTLDES" (columns xwalk))
    by (try (intros d; apply not_suffixed_INTLDES); auto).
  rewrite Hj. cbn [option_map bind]. rewrite length_with_suffix.
  unfold rename. cbn [rows columns]. do 2 f_equal.
  unfold series. rewrite keyed_rows, flat_map_map, map_flat_map.
  apply flat_map_ext_Forall.
  pose proof (frame_ok_Forall _ Hok) as Hok'.
  rewrite Forall_forall in Hok', Hlen. apply Forall_forall. intros l Hl.
  rewrite cell_at_with_key by (apply Hok', Hl).
  rewrite <- (Hlen l Hl).
  pose proof (index_of_lt _ _ _ Hj) as Hjw.
  unfold join_row, catalog_part.
  destruct (matches (normal_cell (cell_at p l)) j (rows xwalk)) as [|m ms].
  - cbn [map]. rewrite delete_app_r, delete_replicate by exact Hjw. reflexivity.
  - rewrite !map_map. apply map_ext. intros r. apply delete_app_r.
Qed.



Lemma filter_filter_and {A} (P Q : A -> Prop) `{!forall x, Decision (P x)}
    `{!forall x, Decision (Q x)} (l : list A) :
  filter P (filter Q l) = filter (fun x => Q x /\ P x) l.
Proof.
  induction l as [|x l IH]; [reflexivity|].
  rewrite (filter_cons Q), (filter_cons (fun x => Q x /\ P x)).
  destruct (decide (Q x)), (decide (Q x /\ P x)); try tauto.
  - rewrite filter_cons. destruct (decide (P x)); [|tauto]. now rewrite IH.
  - rewrite filter_cons. destruct (decide (P x)); [tauto|]. exact IH.
Qed.

(** X6. The crosswalk built from a catalog, merged with an external frame:
    every external row is kept, in order, and is joined with the
    identifier, name, country, launch and decay of each catalog row that
    has an identifier and whose designator has the same normalized text as
    its own, whatever the case and the whitespace of the two; an external
    row without such a catalog row gets five missing cells. *)
Theorem identity_resolution catalog i j xwalk unoosa col p :
  frame_ok catalog ->
  index_of "INTLDES" (columns catalog) = Some i ->
  index_of "NORAD_CAT_ID" (columns catalog) = Some j ->
  index_of "norad_id" (columns catalog) = None ->
  build_satcat_crosswalk catalog = Return xwalk ->
  frame_ok unoosa ->
  index_of col (columns unoosa) = Some p ->
  index_of "INTLDES" (columns unoosa) = None ->
  exists out k1 k2 k3 k4,
    merge_unoosa_with_crosswalk unoosa xwalk col = Return out
    /\ rows out
       = flat_map
           (fun l =>
              map (app (with_key unoosa p l))
                (match filter (fun r => isna (cell_at j r) = false
                                        /\ normal_cell (cell_at i r)
                                           = normal_cell (cell_at p l))
                         (rows catalog) with
                 | [] => [replicate 5 NaN]
                 | found => map (catalog_fields j k1 k2 k3 k4) found
                 end))
           (rows unoosa).
Proof.
  intros Hok Hi Hj Hn Hbuild Huok Hp Hnone.
  destruct (build_satcat_crosswalk_Return catalog i j xwalk Hok Hi Hj Hn Hbuild)
    as (k1 & k2 & k3 & k4 & _ & _ & _ & _ & _ & ->).
  eexists _, k1, k2, k3, k4. split.
  - apply (merge_unoosa_with_crosswalk_Return unoosa _ col p 0 Huok Hp Hnone). reflexivity.
  - unfold rename. cbn [rows columns]. apply flat_map_ext_Forall, Forall_forall.
    intros l _. f_equal. unfold matches. rewrite filter_map_swap.
    rewrite (filter_filter_and _ (fun r => isna (cell_at j r) = false)).
    cbn [length crosswalk_columns]. unfold catalog_part.
    cbn [crosswalk_row cell_at nth].
    clear Hbuild.
    set (found := filter (fun r => isna (cell_at j r) = false
                                   /\ normal_cell (cell_at i r)
                                      = normal_cell (cell_at p l)) (rows catalog)).
    destruct found as [|r rs]; [reflexivity|].
    rewrite map_map. reflexivity.
Qed.

(** X7. [merge_unoosa_with_crosswalk] raises [KeyError] for INTLDES, past its
    guard, when the crosswalk has no column INTLDES, and also when the
    external frame has a column INTLDES of its own: the merge then renames
    both to INTLDES_x and INTLDES_y and the final drop finds neither. *)
Theorem merge_key_errors unoosa xwalk col p :
  index_of col (columns unoosa) = Some p ->
  (index_of "INTLDES" (columns xwalk) = None ->
   merge_unoosa_with_crosswalk unoosa xwalk col = Raise (KeyError "INTLDES"))
  /\ (index_of "INTLDES" (columns xwalk) <> None ->
      index_of "INTLDES" (columns unoosa) <> None ->
      merge_unoosa_with_crosswalk unoosa xwalk col = Raise (KeyError "INTLDES")).
Proof.
  intros Hp.
  set (series := normalize_intldes (map (cell_at p) (rows unoosa))).
  assert (Hq : index_of "intldes" (keyed_columns unoosa) <> None).
  { rewrite <- (keyed_columns_eq unoosa series), index_of_setitem_columns. discriminate. }
  unfold merge_unoosa_with_crosswalk, has_column. rewrite Hp. cbn [negb].
  unfold getitem. rewrite Hp. cbn [bind]. fold series.
  unfold merge_left. rewrite keyed_columns_eq.
  destruct (index_of "intldes" (keyed_columns unoosa)) as [q|]; [|contradiction].
  split.
  - now intros ->.
  - intros Hx Hu. destruct (index_of "INTLDES" (columns xwalk)) as [j|] eqn:Hj;
      [|contradiction]. cbn [bind]. unfold drop_column. cbn [columns].
    assert (Hleft : index_of "INTLDES" (keyed_columns unoosa) <> None).
    { unfold keyed_columns. destruct (index_of "intldes" (columns unoosa)); [exact Hu|].
      rewrite index_of_app. now destruct (index_of "INTLDES" (columns unoosa)). }
    rewrite index_of_app.
    rewrite !index_of_with_suffix_shared;
      try (intros d; apply not_suffixed_INTLDES; auto); try assumption.
    + reflexivity.
    + now rewrite Hj.
Qed.

Lemma with_suffix_disjoint own other sfx :
  disjoint_labels own other = true -> with_suffix own other sfx = own.
Proof.
  unfold disjoint_labels, with_suffix. induction own as [|d own IH]; cbn [forallb map];
    [reflexivity|].
  intros [Hd Hown]%andb_prop. rewrite (IH Hown).
  now destruct (index_of d other).
Qed.

Lemma disjoint_labels_absent own other c :
  disjoint_labels own other = true -> index_of c other <> None -> index_of c own = None.
Proof.
  unfold disjoint_labels. induction own as [|d own IH]; cbn [forallb index_of];
    [reflexivity|].
  intros [Hd Hown]%andb_prop Hc. rewrite (IH Hown Hc).
  destruct (String.eqb_spec c d) as [->|_]; [|reflexivity].
  now destruct (index_of d other).
Qed.

Lemma disjoint_labels_sym own other :
  disjoint_labels own other = true -> disjoint_labels other own = true.
Proof.
  intros Hd. unfold disjoint_labels at 1. apply forallb_forall. intros c Hc.
  rewrite (disjoint_labels_absent own other c Hd); [reflexivity|].
  clear Hd. induction other as [|d other IH]; [destruct Hc|]. cbn [index_of].
  destruct (String.eqb_spec c d); [discriminate|].
  destruct Hc as [->|Hc]; [contradiction|].
  specialize (IH Hc). now destruct (index_of c other).
Qed.

Lemma rename_absent old new cols :
  index_of old cols = None ->
  map (fun c => if String.eqb c old then new else c) cols = cols.
Proof.
  induction cols as [|d cols IH]; cbn [map index_of]; [reflexivity|].
  rewrite (String.eqb_sym old d).
  destruct (String.eqb_spec d old); [discriminate|].
  destruct (index_of old cols); [discriminate|]. intros _. now rewrite IH.
Qed.

(** X8. When the external frame shares no label with the crosswalk and has
    no column intldes, the merged frame has the external columns, then
    intldes, norad_id, satcat_satname, COUNTRY, LAUNCH and DECAY: the
    designator of the catalog is dropped and its name is renamed.  Every row
    of the merged frame has one cell per column. *)
Theorem merged_frame_shape unoosa xwalk col p :
  frame_ok unoosa ->
  frame_ok xwalk ->
  columns xwalk = crosswalk_columns ->
  index_of col (columns unoosa) = Some p ->
  disjoint_labels (columns unoosa) ("intldes" :: crosswalk_columns) = true ->
  exists out,
    merge_unoosa_with_crosswalk unoosa xwalk col = Return out
    /\ columns out
       = columns unoosa
           ++ ["intldes"; "norad_id"; "satcat_satname"; "COUNTRY"; "LAUNCH"; "DECAY"]
    /\ frame_ok out.
Proof.
  intros Hok Hxok Hcols Hp Hdis.
  assert (Habs : forall c, index_of c ("intldes" :: crosswalk_columns) <> None ->
                           index_of c (columns unoosa) = None)
    by (intros c; apply disjoint_labels_absent, Hdis).
  assert (Hkc : keyed_columns unoosa = columns unoosa ++ ["intldes"]).
  { unfold keyed_columns. now rewrite (Habs "intldes"). }
  assert (Hkabs : forall c, index_of c crosswalk_columns <> None ->
                            index_of c (keyed_columns unoosa) = None).
  { intros c Hc. rewrite Hkc, index_of_app, Habs.
    - cbn [index_of option_map]. destruct (String.eqb_spec c "intldes") as [->|_];
        [now destruct Hc|reflexivity].
    - cbn [index_of]. destruct (String.eqb c "intldes"); [discriminate|].
      now destruct (index_of c crosswalk_columns). }
  assert (Hd1 : disjoint_labels (keyed_columns unoosa) crosswalk_columns = true).
  { rewrite Hkc. unfold disjoint_labels. rewrite forallb_app. apply andb_true_intro. split.
    - unfold disjoint_labels in Hdis. apply forallb_forall. intros c Hc.
      rewrite forallb_forall in Hdis. specialize (Hdis c Hc). cbn [index_of] in Hdis.
      destruct (String.eqb c "intldes"); [discriminate|].
      now destruct (index_of c crosswalk_columns).
    - reflexivity. }
  pose proof (disjoint_labels_sym _ _ Hd1) as Hd2.
  eexists. split; [|split].
  - apply (merge_unoosa_with_crosswalk_Return unoosa xwalk col p 0 Hok Hp).
    + apply Habs. discriminate.
    + now rewrite Hcols.
  - unfold rename. cbn [columns]. rewrite Hcols.
    rewrite (with_suffix_disjoint _ _ "_x" Hd1), (with_suffix_disjoint _ _ "_y" Hd2).
    rewrite (delete_app_r (keyed_columns unoosa) _ 0).
    cbn [delete list_delete crosswalk_columns]. rewrite map_app.
    rewrite (rename_absent "SATNAME" "satcat_satname" (keyed_columns unoosa))
      by (apply Hkabs; discriminate).
    rewrite Hkc, <- app_assoc. reflexivity.
  - unfold frame_ok, rename. cbn [columns rows]. rewrite length_map.
    apply forallb_forall. intros r Hr. apply Nat.eqb_eq.
    apply in_flat_map in Hr as (l & Hl & Hr). apply in_map_iff in Hr as (part & <- & Hpart).
    rewrite length_app, length_delete, length_app, !length_with_suffix.
    2:{ rewrite lookup_app_r, length_with_suffix by (rewrite length_with_suffix; lia).
        replace (length (keyed_columns unoosa) + 0 - length (keyed_columns unoosa))%nat
          with 0%nat by lia.
        rewrite Hcols. cbn. eauto. }
    assert (Hwk : length (with_key unoosa p l) = length (keyed_columns unoosa)).
    { unfold with_key, keyed_columns.
      pose proof (frame_ok_Forall _ Hok) as Hall. rewrite Forall_forall in Hall.
      specialize (Hall l (proj2 (list_elem_of_In _ _) Hl)).
      destruct (index_of "intldes" (columns unoosa));
        [now rewrite length_insert|rewrite !length_app, Hall; reflexivity]. }
    assert (Hlp : length part = 5%nat).
    { unfold catalog_part in Hpart. rewrite Hcols in Hpart.
      destruct (matches _ 0 (rows xwalk)) as [|m ms] eqn:Hm.
      - destruct Hpart as [<-|[]]. reflexivity.
      - apply in_map_iff in Hpart as (r0 & <- & Hr0).
        rewrite <- Hm in Hr0. apply list_elem_of_In in Hr0.
        unfold matches in Hr0. apply list_elem_of_filter in Hr0 as [_ Hr0].
        pose proof (frame_ok_Forall _ Hxok) as Hall. rewrite Forall_forall in Hall.
        specialize (Hall r0 Hr0). rewrite Hcols in Hall.
        destruct r0 as [|c0 r0]; [discriminate Hall|]. cbn in Hall |- *. lia. }
    rewrite Hwk, Hlp, Hcols. cbn [length crosswalk_columns]. lia.
Qed.

End CrosswalkExtras.

(* ================================================================== *)
(** * Further properties of the text functions *)
(* ================================================================== *)

Lemma upper_app a b : upper (a ++ b) = (upper a ++ upper b)%string.
Proof. induction a as [|c a IH]; simpl; [reflexivity|]. now rewrite IH. Qed.

Lemma remove_whitespace_app a b :
  remove_whitespace (a ++ b) = (remove_whitespace a ++ remove_whitespace b)%string.
Proof.
  induction a as [|c a IH]; simpl; [reflexivity|].
  destruct (isspace c); simpl; now rewrite IH.
Qed.

Lemma remove_whitespace_blank ws : blank ws = true -> remove_whitespace ws = EmptyString.
Proof.
  induction ws as [|c ws IH]; simpl; [reflexivity|].
  intros [Hc Hws]%andb_prop. rewrite Hc. exact (IH Hws).
Qed.

Lemma blank_upper ws : blank (upper ws) = blank ws.
Proof.
  induction ws as [|c ws IH]; simpl; [reflexivity|].
  now rewrite isspace_upper_char, IH.
Qed.

Lemma normal_form_app a b : normal_form (a ++ b) = (normal_form a ++ normal_form b)%string.
Proof. now rewrite !normal_form_eq, upper_app, remove_whitespace_app. Qed.

(** X9. The normalisation of designators reads neither blanks nor letter
    case: a text with whitespace inserted at any place normalises as the text
    without it, a text normalises as its upper-case form, and the
    normalisation of a concatenation is the concatenation of the
    normalisations. *)
Theorem normalization_ignores_case_and_blanks (a ws b : string) (series : Series) :
  blank ws = true ->
  normalize_intldes (Str (a ++ ws ++ b) :: series)
  = normalize_intldes (Str (a ++ b) :: series)
  /\ normalize_intldes (Str (upper a) :: series) = normalize_intldes (Str a :: series)
  /\ normalize_intldes [Str (a ++ b)]
     = [Str (normal_form a ++ normal_form b)].
Proof.
  intros Hws. rewrite !normalize_intldes_cells. cbn [map]. unfold normal_cell.
  cbn [py_str]. repeat split.
  - f_equal. f_equal. rewrite !normal_form_app. f_equal.
    rewrite (normal_form_eq ws), remove_whitespace_blank; [reflexivity|].
    now rewrite blank_upper.
  - f_equal. f_equal. now rewrite !normal_form_eq, upper_idem.
  - now rewrite normal_form_app.
Qed.

Lemma splitlines_from_breakless cur l rest :
  breakless l = true ->
  splitlines_from cur (l ++ rest)
  = splitlines_from (rev (list_ascii_of_string l) ++ cur) rest.
Proof.
  revert cur. induction l as [|c l IH]; intros cur; cbn [breakless]; [reflexivity|].
  intros [Hc Hl]%andb_prop. apply negb_true_iff in Hc.
  change (String c l ++ rest)%string with (String c (l ++ rest)).
  cbn [splitlines_from list_ascii_of_string rev]. rewrite Hc.
  rewrite (IH (c :: cur) Hl), <- app_assoc. reflexivity.
Qed.

Lemma line_read_back l : string_of_list_ascii (rev (rev (list_ascii_of_string l) ++ [])) = l.
Proof. now rewrite app_nil_r, rev_involutive, string_of_list_ascii_of_string. Qed.

Lemma append_empty_r l : (l ++ EmptyString)%string = l.
Proof.
  induction l as [|c l IH]; [reflexivity|].
  change (String c (l ++ EmptyString)%string = String c l). now rewrite IH.
Qed.

Lemma splitlines_breakless l :
  breakless l = true -> splitlines l = if is_empty l then [] else [l].
Proof.
  intros Hl. unfold splitlines. rewrite <- (append_empty_r l) at 1.
  rewrite (splitlines_from_breakless [] l EmptyString Hl). cbn [splitlines_from].
  destruct l as [|c l]; [reflexivity|].
  pose proof (line_read_back (String c l)) as Hback.
  destruct (rev (list_ascii_of_string (String c l)) ++ []) eqn:E.
  - cbn in Hback. discriminate.
  - rewrite Hback. reflexivity.
Qed.

Lemma splitlines_cons sep l text :
  sep = LF \/ sep = CRLF ->
  breakless l = true ->
  splitlines (l ++ sep ++ text) = l :: splitlines text.
Proof.
  intros Hsep Hl. unfold splitlines.
  rewrite (splitlines_from_breakless [] l _ Hl).
  destruct Hsep as [-> | ->].
  - change (LF ++ text)%string with (String (ascii_of_nat 10) text).
    cbn [splitlines_from].
    change (is_linebreak (ascii_of_nat 10)) with true. cbn iota.
    change (is_cr (ascii_of_nat 10)) with false. cbn [andb].
    rewrite line_read_back. now destruct text.
  - change (CRLF ++ text)%string
      with (String (ascii_of_nat 13) (String (ascii_of_nat 10) text)).
    cbn [splitlines_from].
    change (is_linebreak (ascii_of_nat 13)) with true. cbn iota.
    change (is_cr (ascii_of_nat 13) && is_lf (ascii_of_nat 10)) with true. cbn iota.
    now rewrite line_read_back.
Qed.

Lemma nonblank_lines_join sep ls :
  sep = LF \/ sep = CRLF ->
  Forall (fun l => breakless l = true) ls ->
  nonblank_lines (join sep ls) = map strip (List.filter nonblank ls).
Proof.
  intros Hsep Hall. unfold nonblank_lines. f_equal.
  induction Hall as [|l ls Hl Hall IH]; [reflexivity|].
  destruct ls as [|l' ls].
  - cbn [join List.filter]. rewrite (splitlines_breakless l Hl).
    destruct l as [|c l]; [reflexivity|]. reflexivity.
  - change (join sep (l :: l' :: ls)) with (l ++ sep ++ join sep (l' :: ls))%string.
    rewrite (splitlines_cons sep l _ Hsep Hl).
    cbn [List.filter]. fold (nonblank l). now rewrite IH.
Qed.

Section LineExtras.
Context `{FloatOps} `{!DateTime} `{!Sgp4}.

(** X10. Of a text whose lines are joined by LF or by CR LF, the parser
    reads the first two lines that are not blank, stripped of surrounding
    whitespace, and nothing else: blank lines anywhere and all further lines
    do not change the result.  With fewer than two such lines the result is
    the empty feature set. *)
Theorem parse_reads_first_two_nonblank_lines (sep : string) (ls : list string) :
  sep = LF \/ sep = CRLF ->
  Forall (fun l => breakless l = true) ls ->
  match List.filter nonblank ls with
  | a :: b :: _ =>
      parse_tle_fields (PyStr (join sep ls))
      = match twoline2rv (strip a) (strip b) with
        | Raise _ => Return []
        | Return sat => derive_features sat
        end
  | _ => parse_tle_fields (PyStr (join sep ls)) = Return []
  end.
Proof.
  intros Hsep Hall. pose proof (nonblank_lines_join sep ls Hsep Hall) as Hlines.
  destruct (List.filter nonblank ls) as [|a [|b rest]]; cbn [map] in Hlines.
  - unfold parse_tle_fields. rewrite Hlines.
    destruct (negb (truthy (PyStr (join sep ls))) || negb (isinstance_str (PyStr (join sep ls))));
      reflexivity.
  - unfold parse_tle_fields. rewrite Hlines.
    destruct (negb (truthy (PyStr (join sep ls))) || negb (isinstance_str (PyStr (join sep ls))));
      reflexivity.
  - exact (parse_tle_fields_two_lines _ _ _ _ Hlines).
Qed.

End LineExtras.

(* ================================================================== *)
(** * Further properties of the orbital elements *)
(* ================================================================== *)

Section RealExtras.
Context `{!@DateTime real_floats}.

Lemma motion_sign k :
  ((0 < k -> 0 < k * 1440 / (2 * PI))
   /\ (k < 0 -> k * 1440 / (2 * PI) < 0)
   /\ (k = 0 -> k * 1440 / (2 * PI) = 0))%R.
Proof.
  pose proof PI_bounds as [Hpi _].
  assert (Hinv : (0 < / (2 * PI))%R) by (apply Rinv_0_lt_compat; lra).
  unfold Rdiv. repeat split; intros Hk.
  - apply Rmult_lt_0_compat; [lra|exact Hinv].
  - assert (0 < (- k * 1440) * / (2 * PI))%R by (apply Rmult_lt_0_compat; [lra|exact Hinv]).
    lra.
  - subst k. lra.
Qed.

Lemma rate_sign m :
  ((0 < m -> 0 < m * 2 * PI / 86400)
   /\ (m < 0 -> m * 2 * PI / 86400 < 0)
   /\ (m = 0 -> m * 2 * PI / 86400 = 0))%R.
Proof.
  pose proof PI_bounds as [Hpi _].
  repeat split; intros Hm.
  - apply Rdiv_lt_0_compat; [|lra]. apply Rmult_lt_0_compat; [|lra].
    apply Rmult_lt_0_compat; lra.
  - assert (0 < (- m) * 2 * PI / 86400)%R.
    { apply Rdiv_lt_0_compat; [|lra]. apply Rmult_lt_0_compat; [|lra].
      apply Rmult_lt_0_compat; lra. }
    lra.
  - subst m. lra.
Qed.

Lemma real_div_nan_l y : y <> 0%R -> real_div None (Some y) = Return None.
Proof. intros Hy. unfold real_div. destruct (Req_dec_T y 0); [contradiction|reflexivity]. Qed.

Lemma real_div_zero a : real_div a (Some 0%R) = Raise ZeroDivisionError.
Proof. unfold real_div. destruct (Req_dec_T 0 0) as [_|Hnz]; [reflexivity|now destruct Hnz]. Qed.

Lemma real_pow_nan y : y <> 0%R -> real_pow None (Some y) = Return (Real None).
Proof. intros Hy. unfold real_pow. destruct (Req_dec_T y 0); [contradiction|reflexivity]. Qed.

Lemma real_pow_zero y : (0 < y)%R -> real_pow (Some 0%R) (Some y) = Return (Real (Some 0%R)).
Proof.
  intros Hy. unfold real_pow.
  destruct (Req_dec_T y 0) as [Hz|_]; [lra|].
  destruct (Req_dec_T 0 0) as [_|Hnz]; [|now destruct Hnz].
  destruct (Rlt_dec y 0); [lra|reflexivity].
Qed.

Lemma real_pow_negative x :
  (x < 0)%R -> real_pow (Some x) (Some (2 / 3)%R) = Return Complex.
Proof.
  intros Hx. unfold real_pow.
  destruct (Req_dec_T (2 / 3) 0) as [Hz|_]; [lra|].
  destruct (Req_dec_T x 0) as [Hz|_]; [lra|].
  destruct (Rlt_dec x 0) as [_|Hge]; [|contradiction].
  destruct (Req_dec_T (IZR (Int_part (2 / 3))) (2 / 3)) as [Hw|_];
    [now destruct (two_thirds_not_whole _ Hw)|reflexivity].
Qed.

Lemma features_of_nan_motion (sat : @Satrec real_floats) (epoch : string) :
  no_kozai sat = nan ->
  utc_isoformat (epoch_unix_of sat) = Return epoch ->
  derive_features sat = Return (feature_set sat epoch nan nan nan nan nan).
Proof.
  intros Hk Hepoch.
  assert (H3 : (3 <> 0)%R) by (apply Rgt_not_eq; lra).
  assert (H86400 : (86400 <> 0)%R) by (apply Rgt_not_eq; lra).
  assert (Hmu : (0 < 398600.4418)%R) by lra.
  assert (H13 : (1 / 3 <> 0)%R) by (apply Rgt_not_eq; lra).
  assert (H23 : (2 / 3 <> 0)%R) by (apply Rgt_not_eq; lra).
  pose proof PI_bounds as [Hpi _].
  assert (H2pi : (2 * PI <> 0)%R) by (apply Rgt_not_eq; lra).
  destruct literals as (L1 & L2 & L3 & L1440 & L86400 & Lmu & Lre).
  unfold derive_features, feature_set. cbn zeta. rewrite Hepoch. cbn [bind].
  rewrite Hk.
  cbn [fdiv fmul fadd fsub lit pi nan fpow nonzero isnan real_floats lift2].
  rewrite L1, L2, L3, L1440, L86400, Lmu, Lre.
  rewrite (real_div_nan_l (2 * PI)) by exact H2pi.
  cbn [try_except lift2 andb negb bind].
  rewrite (real_div_nan_l 86400) by exact H86400.
  rewrite !real_div_Some by assumption. cbn [bind].
  rewrite (real_pow_pos 398600.4418) by assumption. cbn [bind].
  rewrite (real_pow_nan (2 / 3)) by exact H23.
  cbn [bind ndiv fdiv real_floats]. unfold real_div. cbn [bind try_except].
  cbn [nmul nsub to_float fmul fsub real_floats lift2 bind].
  destruct (ecco sat); reflexivity.
Qed.

Lemma features_of_zero_motion (sat : @Satrec real_floats) (k : R) (epoch : string) :
  no_kozai sat = finite k ->
  k = 0%R ->
  utc_isoformat (epoch_unix_of sat) = Return epoch ->
  derive_features sat
  = Return (feature_set sat epoch (finite (k * 1440 / (2 * PI))) nan nan nan nan).
Proof.
  intros Hk Hk0 Hepoch.
  pose proof (proj2 (proj2 (motion_sign k)) Hk0) as Hm.
  set (m := (k * 1440 / (2 * PI))%R) in *.
  pose proof (proj2 (proj2 (rate_sign m)) Hm) as Hn.
  assert (H3 : (3 <> 0)%R) by (apply Rgt_not_eq; lra).
  assert (H86400 : (86400 <> 0)%R) by (apply Rgt_not_eq; lra).
  assert (Hmu : (0 < 398600.4418)%R) by lra.
  assert (H13 : (1 / 3 <> 0)%R) by (apply Rgt_not_eq; lra).
  assert (H23 : (2 / 3 <> 0)%R) by (apply Rgt_not_eq; lra).
  assert (H23pos : ~ (2 / 3 < 0)%R) by lra.
  pose proof PI_bounds as [Hpi _].
  assert (H2pi : (2 * PI <> 0)%R) by (apply Rgt_not_eq; lra).
  destruct literals as (L1 & L2 & L3 & L1440 & L86400 & Lmu & Lre).
  unfold derive_features, feature_set. cbn zeta. rewrite Hepoch. cbn [bind].
  rewrite Hk. unfold finite.
  cbn [fdiv fmul fadd fsub lit pi nan fpow nonzero isnan real_floats lift2].
  rewrite L1, L2, L3, L1440, L86400, Lmu, Lre.
  rewrite (real_div_Some (k * 1440) (2 * PI)) by exact H2pi.
  cbn [try_except lift2]. fold m.
  destruct (Req_dec_T m 0) as [_|Hnz]; [|contradiction]. cbn [andb negb bind].
  rewrite !real_div_Some by assumption. cbn [bind].
  rewrite (real_pow_pos 398600.4418) by assumption. cbn [bind].
  rewrite Hn, (real_pow_zero (2 / 3)) by lra.
  cbn [bind ndiv fdiv real_floats]. rewrite real_div_zero.
  cbn [bind try_except nmul nsub to_float fmul fsub real_floats lift2].
  destruct (ecco sat); reflexivity.
Qed.

Lemma features_of_negative_motion (sat : @Satrec real_floats) (k : R) (epoch : string) :
  no_kozai sat = finite k ->
  (k < 0)%R ->
  utc_isoformat (epoch_unix_of sat) = Return epoch ->
  derive_features sat = Raise complex_to_float.
Proof.
  intros Hk Hk0 Hepoch.
  pose proof (proj1 (proj2 (motion_sign k)) Hk0) as Hm.
  set (m := (k * 1440 / (2 * PI))%R) in *.
  pose proof (proj1 (proj2 (rate_sign m)) Hm) as Hn.
  assert (Hm0 : m <> 0%R) by (apply Rlt_not_eq; exact Hm).
  assert (H3 : (3 <> 0)%R) by (apply Rgt_not_eq; lra).
  assert (H86400 : (86400 <> 0)%R) by (apply Rgt_not_eq; lra).
  assert (Hmu : (0 < 398600.4418)%R) by lra.
  assert (H13 : (1 / 3 <> 0)%R) by (apply Rgt_not_eq; lra).
  assert (H23 : (2 / 3 <> 0)%R) by (apply Rgt_not_eq; lra).
  pose proof PI_bounds as [Hpi _].
  assert (H2pi : (2 * PI <> 0)%R) by (apply Rgt_not_eq; lra).
  destruct literals as (L1 & L2 & L3 & L1440 & L86400 & Lmu & Lre).
  unfold derive_features, complex_to_float. cbn zeta. rewrite Hepoch. cbn [bind].
  rewrite Hk. unfold finite.
  cbn [fdiv fmul fadd fsub lit pi nan fpow nonzero isnan real_floats lift2].
  rewrite L1, L2, L3, L1440, L86400, Lmu, Lre.
  rewrite (real_div_Some (k * 1440) (2 * PI)) by exact H2pi.
  cbn [try_except lift2]. fold m.
  destruct (Req_dec_T m 0) as [Hz|_]; [contradiction|]. cbn [andb negb].
  rewrite !real_div_Some by assumption. cbn [bind].
  rewrite (real_pow_pos 398600.4418) by assumption. cbn [bind].
  rewrite (real_pow_negative _ Hn).
  reflexivity.
Qed.

Lemma features_of_forward_motion (sat : @Satrec real_floats) (k : R) (epoch : string) :
  no_kozai sat = finite k ->
  (0 < k)%R ->
  utc_isoformat (epoch_unix_of sat) = Return epoch ->
  let m := (k * 1440 / (2 * PI))%R in
  derive_features sat
  = Return (feature_set sat epoch (finite m) (finite (1440 / m)) (finite (kepler_axis m))
              (lift2 Rminus (lift2 Rmult (finite (kepler_axis m))
                                         (lift2 Rminus (finite 1) (ecco sat)))
                            (finite 6378.137))
              (lift2 Rminus (lift2 Rmult (finite (kepler_axis m))
                                         (lift2 Rplus (finite 1) (ecco sat)))
                            (finite 6378.137))).
Proof.
  intros Hk Hk0 Hepoch m.
  pose proof (proj1 (motion_sign k) Hk0) as Hm. fold m in Hm.
  pose proof (proj1 (rate_sign m) Hm) as Hn.
  assert (Hm0 : m <> 0%R) by (apply Rgt_not_eq; exact Hm).
  assert (H3 : (3 <> 0)%R) by (apply Rgt_not_eq; lra).
  assert (H86400 : (86400 <> 0)%R) by (apply Rgt_not_eq; lra).
  assert (Hmu : (0 < 398600.4418)%R) by lra.
  assert (H13 : (1 / 3 <> 0)%R) by (apply Rgt_not_eq; lra).
  assert (H23 : (2 / 3 <> 0)%R) by (apply Rgt_not_eq; lra).
  pose proof PI_bounds as [Hpi _].
  assert (H2pi : (2 * PI <> 0)%R) by (apply Rgt_not_eq; lra).
  destruct literals as (L1 & L2 & L3 & L1440 & L86400 & Lmu & Lre).
  unfold derive_features, feature_set. cbn zeta. rewrite Hepoch. cbn [bind].
  rewrite Hk. unfold finite.
  cbn [fdiv fmul fadd fsub lit pi nan fpow nonzero isnan real_floats lift2].
  rewrite L1, L2, L3, L1440, L86400, Lmu, Lre.
  rewrite (real_div_Some (k * 1440) (2 * PI)) by exact H2pi.
  cbn [try_except lift2]. fold m.
  destruct (Req_dec_T m 0) as [Hz|_]; [contradiction|]. cbn [andb negb].
  rewrite !real_div_Some by assumption. cbn [bind].
  rewrite !real_pow_pos by assumption. cbn [bind ndiv].
  cbn [fdiv real_floats].
  rewrite !real_div_Some by (apply Rgt_not_eq; unfold Rpower; apply exp_pos).
  cbn [bind try_except nmul nsub to_float fmul fsub real_floats].
  reflexivity.
Qed.

(** X11. A mean motion that is zero or not a number raises nothing: the
    feature set is full, it reports the mean motion itself, and its period,
    semi-major axis, perigee and apogee are all NaN.  The division by the
    zero angular rate is caught, and the period is not computed. *)
Theorem degenerate_motion_gives_nan (sat : @Satrec real_floats) (epoch : string) :
  no_kozai sat = nan \/ no_kozai sat = finite 0 ->
  utc_isoformat (epoch_unix_of sat) = Return epoch ->
  exists d,
    derive_features sat = Return d
    /\ map fst d = feature_keys
    /\ dict_get "mean_motion_rev_per_day" d = Some (VFloat (no_kozai sat))
    /\ dict_get "period_min" d = Some (VFloat nan)
    /\ dict_get "semi_major_axis_km" d = Some (VFloat nan)
    /\ dict_get "perigee_km" d = Some (VFloat nan)
    /\ dict_get "apogee_km" d = Some (VFloat nan).
Proof.
  intros [Hk|Hk] Hepoch.
  - rewrite (features_of_nan_motion sat epoch Hk Hepoch). rewrite Hk.
    eexists. split; [reflexivity|]. repeat split.
  - rewrite (features_of_zero_motion sat 0 epoch Hk eq_refl Hepoch). rewrite Hk.
    rewrite (proj2 (proj2 (motion_sign 0)) eq_refl).
    eexists. split; [reflexivity|]. repeat split.
Qed.

(** X12. The derivation of the features raises in two cases only: the
    conversion of the epoch to a date raises, and that exception comes out;
    or the mean motion is negative, and the conversion of the complex
    semi-major axis to a float raises TypeError.  In every other case,
    including a mean motion that is zero or NaN, a feature set is returned. *)
Theorem derive_features_raises_iff (sat : @Satrec real_floats) (e : exn) :
  derive_features sat = Raise e
  <-> utc_isoformat (epoch_unix_of sat) = Raise e
      \/ ((exists epoch, utc_isoformat (epoch_unix_of sat) = Return epoch)
          /\ (exists k, no_kozai sat = finite k /\ (k < 0)%R)
          /\ e = complex_to_float).
Proof.
  split.
  - intros Hraise. destruct (utc_isoformat (epoch_unix_of sat)) as [e0|epoch] eqn:Hepoch.
    + left. unfold derive_features in Hraise. cbn zeta in Hraise.
      rewrite Hepoch in Hraise. cbn [bind] in Hraise. now injection Hraise as ->.
    + right. destruct (no_kozai sat) as [k|] eqn:Hk.
      * destruct (Rtotal_order k 0) as [Hneg|[Hzero|Hpos]].
        -- rewrite (features_of_negative_motion sat k epoch Hk Hneg Hepoch) in Hraise.
           injection Hraise as <-. split; [now exists epoch|]. split; [|reflexivity].
           exists k. split; [reflexivity|exact Hneg].
        -- rewrite (features_of_zero_motion sat k epoch Hk Hzero Hepoch) in Hraise.
           discriminate Hraise.
        -- rewrite (features_of_forward_motion sat k epoch Hk Hpos Hepoch) in Hraise.
           discriminate Hraise.
      * rewrite (features_of_nan_motion sat epoch Hk Hepoch) in Hraise.
        discriminate Hraise.
  - intros [Hclock|((epoch & Hepoch) & (k & Hk & Hneg) & ->)].
    + unfold derive_features. cbn zeta. rewrite Hclock. reflexivity.
    + exact (features_of_negative_motion sat k epoch Hk Hneg Hepoch).
Qed.


End RealExtras.

(* ================================================================== *)
(** * enrich_unoosa.py: the fetch loop *)
(* ================================================================== *)

Lemma total_app a b : (total (a ++ b) == total a + total b)%Q.
Proof.
  induction a as [|x a IH]; cbn [app total fold_right].
  - now rewrite Qplus_0_l.
  - fold (total (a ++ b)). fold (total a). rewrite IH. apply Qplus_assoc.
Qed.

Section EnrichExtras.
Context `{Payload}.
Variable client : N2YOClient.

(** One call makes at most five requests, sleeps at most 15 seconds of
    backoff and at most one politeness delay. *)
Lemma get_tle_trace nid w :
  exists new,
    log (snd (get_tle client nid w)) = log w ++ new
    /\ (requests new <= 5)%nat
    /\ (total (backoffs new) <= 15)%Q
    /\ (length (polite_sleeps new) <= 1)%nat.
Proof.
  unfold get_tle, retry. cbn [Nat.sub]. fold tenacity_wait.
  destruct (cached client nid w) as [data0|] eqn:Hc.
  - rewrite (retry_loop_hit client nid _ _ _ w data0 Hc). cbn [snd].
    exists []. rewrite app_nil_r. repeat split; cbn; try lia. discriminate.
  - destruct (retry_loop_live client nid tenacity_wait 4 1 w Hc) as (n & Hn & Hcases).
    destruct (retries_log_facts client nid tenacity_wait 1 n) as (Hb & Hr & Hp & _).
    destruct (total_backoffs_slept n Hn) as [Hle _].
    destruct Hcases as [(last & w_last & _ & _ & _ & Hl & _)
                       |(data & body & _ & _ & _ & Hl)].
    + exists (retries_log (tle_url client nid) tenacity_wait 1 n
                ++ [Get (tle_url client nid)]).
      rewrite requests_app, backoffs_app, polite_sleeps_app, Hb, Hr, Hp.
      change (requests [Get (tle_url client nid)]) with 1%nat.
      cbn [backoffs polite_sleeps flat_map]. rewrite !app_nil_r.
      cbn [length app]. split; [exact Hl|]. split; [lia|]. split; [exact Hle|lia].
    + exists (retries_log (tle_url client nid) tenacity_wait 1 n
                ++ success_log client nid data).
      rewrite requests_app, backoffs_app, polite_sleeps_app, Hb, Hr, Hp.
      change (requests (success_log client nid data)) with 1%nat.
      cbn [success_log backoffs polite_sleeps flat_map]. rewrite !app_nil_r.
      cbn [length app]. split; [exact Hl|]. split; [lia|]. split; [exact Hle|lia].
Qed.

Lemma fetch_row_id nid w : row_id (fst (fetch_row client nid w)) = nid.
Proof.
  unfold fetch_row, read_row. destruct (get_tle client nid w) as [[e|payload] w'];
    [reflexivity|]. cbn [fst]. now destruct (payload_fields payload) as [[[a b] c]|msg].
Qed.

Lemma fetch_row_world nid w : snd (fetch_row client nid w) = snd (get_tle client nid w).
Proof. unfold fetch_row. now destruct (get_tle client nid w) as [[e|payload] w']. Qed.

Lemma fetch_rows_acc ids acc w :
  fetch_rows client ids acc w
  = (acc ++ fst (fetch_rows client ids [] w), snd (fetch_rows client ids [] w)).
Proof.
  revert acc w. induction ids as [|nid ids IH]; intros acc w; cbn [fetch_rows].
  - now rewrite app_nil_r.
  - destruct (fetch_row client nid w) as [row w'].
    rewrite (IH (acc ++ [row])), (IH ([] ++ [row])). cbn [fst snd app].
    now rewrite <- app_assoc.
Qed.

Lemma fetch_rows_cons nid ids w :
  fetch_rows client (nid :: ids) [] w
  = (fst (fetch_row client nid w)
       :: fst (fetch_rows client ids [] (snd (fetch_row client nid w))),
     snd (fetch_rows client ids [] (snd (fetch_row client nid w)))).
Proof.
  cbn [fetch_rows]. destruct (fetch_row client nid w) as [row w'].
  now rewrite fetch_rows_acc.
Qed.

(** X14. The fetch loop never raises and never stops early: whatever the
    cache and the service do, it yields one row per identifier, in the order
    of the identifiers and carrying them.  Over the whole loop it makes at
    most five requests per identifier, sleeps at most 15 seconds of backoff
    per identifier and at most one politeness delay per identifier. *)
Theorem fetch_loop_is_total_and_bounded (ids : list Z) (w : world) :
  let run := fetch_rows client ids [] w in
  map row_id (fst run) = ids
  /\ exists new,
       log (snd run) = log w ++ new
       /\ (requests new <= 5 * length ids)%nat
       /\ (total (backoffs new) <= inject_Z (15 * Z.of_nat (length ids)))%Q
       /\ (length (polite_sleeps new) <= length ids)%nat.
Proof.
  revert w. induction ids as [|nid ids IH]; intros w run; subst run.
  - cbn [fetch_rows fst snd map length]. split; [reflexivity|].
    exists []. rewrite app_nil_r. repeat split; cbn; try lia. discriminate.
  - rewrite fetch_rows_cons. cbn [fst snd map]. rewrite fetch_row_id, fetch_row_world.
    destruct (IH (snd (get_tle client nid w))) as (Hids & new2 & Hl2 & Hr2 & Hb2 & Hp2).
    destruct (get_tle_trace nid w) as (new1 & Hl1 & Hr1 & Hb1 & Hp1).
    split; [now rewrite Hids|].
    exists (new1 ++ new2). rewrite Hl2, Hl1, <- app_assoc.
    rewrite requests_app, backoffs_app, polite_sleeps_app, length_app, total_app.
    cbn [length]. split; [reflexivity|]. split; [lia|]. split; [|lia].
    replace (15 * Z.of_nat (S (length ids)))%Z with (15 + 15 * Z.of_nat (length ids))%Z by lia.
    rewrite inject_Z_plus. now apply Qplus_le_compat.
Qed.

(** X15. When the cache holds a payload that parses for every identifier,
    the loop touches nothing: no request, no sleep, no write, the world after
    it is the world before it, and each row is read from the cached
    payload of its identifier. *)
Theorem warm_cache_needs_no_network (ids : list Z) (w : world) :
  (forall nid, In nid ids -> cached client nid w <> None) ->
  snd (fetch_rows client ids [] w) = w
  /\ Forall2 (fun nid row =>
                exists payload,
                  cached client nid w = Some payload /\ row = read_row nid payload)
       ids (fst (fetch_rows client ids [] w)).
Proof.
  induction ids as [|nid ids IH]; intros Hwarm.
  - split; [reflexivity|constructor].
  - rewrite fetch_rows_cons. cbn [fst snd].
    destruct (cached client nid w) as [payload|] eqn:Hc;
      [|now destruct (Hwarm nid (or_introl eq_refl))].
    assert (Hrow : fetch_row client nid w = (read_row nid payload, w)).
    { unfold fetch_row, get_tle, retry.
      now rewrite (retry_loop_hit client nid _ _ _ w payload Hc). }
    rewrite Hrow. cbn [fst snd].
    destruct IH as [Hw Hrows]; [intros other Hin; apply Hwarm; now right|].
    split; [exact Hw|]. constructor; [|exact Hrows].
    exists payload. now split.
Qed.

Lemma retry_loop_offline nid wait remaining k w :
  service w = [] ->
  cached client nid w = None ->
  retry_loop wait remaining k (get_tle_attempt client nid) w
  = (Raise refused,
     mkWorld (files w) []
       (log w ++ retries_log (tle_url client nid) wait k remaining
              ++ [Get (tle_url client nid)])).
Proof.
  revert w k. induction remaining as [|remaining IH]; intros w k Hs Hc.
  - cbn [retry_loop]. rewrite (get_tle_attempt_miss client nid w Hc).
    unfold fetch_live, io_bind, session_get, emit. rewrite Hs. reflexivity.
  - cbn [retry_loop]. rewrite (get_tle_attempt_miss client nid w Hc).
    unfold fetch_live at 1, io_bind at 1, session_get, emit. rewrite Hs.
    match goal with
    | |- retry_loop _ _ _ _ ?w1 = _ =>
        rewrite (IH w1 (S k) eq_refl Hc)
    end.
    cbn [files service log]. rewrite retries_log_S, <- !app_assoc. reflexivity.
Qed.

Lemma get_tle_offline nid w :
  service w = [] ->
  cached client nid w = None ->
  get_tle client nid w
  = (Raise refused,
     mkWorld (files w) []
       (log w ++ retries_log (tle_url client nid) tenacity_wait 1 4
              ++ [Get (tle_url client nid)])).
Proof. intros Hs Hc. exact (retry_loop_offline nid tenacity_wait 4 1 w Hs Hc). Qed.

Lemma add_keys_present k seen new :
  index_of k (add_keys seen new) <> None <-> index_of k seen <> None \/ In k new.
Proof.
  unfold add_keys. revert seen. induction new as [|x new IH]; intros seen; cbn [fold_left].
  - split; [now left|]. now intros [Hs|[]].
  - rewrite IH. clear IH.
    assert (Hstep : index_of k match index_of x seen with
                               | Some _ => seen
                               | None => seen ++ [x]
                               end <> None
                    <-> index_of k seen <> None \/ x = k).
    { destruct (index_of x seen) as [i|] eqn:Hx.
      - split; [now left|]. intros [Hs|<-]; [exact Hs|]. now rewrite Hx.
      - rewrite index_of_app. cbn [index_of option_map].
        destruct (index_of k seen) as [i|] eqn:Hk.
        + split; [now left|discriminate].
        + destruct (String.eqb_spec k x) as [->|Hne]; cbn [option_map].
          * split; [now right|discriminate].
          * split; [now intros []|]. intros [Hs|Heq]; [exact Hs|]. now destruct Hne. }
    rewrite Hstep. cbn [In]. tauto.
Qed.

Lemma columns_from_present k acc rows :
  index_of k (fold_left (fun acc r => add_keys acc (row_keys r)) rows acc) <> None
  <-> index_of k acc <> None \/ exists r, In r rows /\ In k (row_keys r).
Proof.
  revert acc. induction rows as [|r rows IH]; intros acc; cbn [fold_left].
  - split; [now left|]. now intros [Hs|(r & [] & _)].
  - rewrite IH, add_keys_present. split.
    + intros [[Hs|Hr]|(r' & Hin & Hk)]; [now left| |].
      * right. exists r. split; [now left|exact Hr].
      * right. exists r'. split; [now right|exact Hk].
    + intros [Hs|(r' & [<-|Hin] & Hk)]; [now left; left|now left; right|].
      right. now exists r'.
Qed.

Lemma frame_columns_present k rows :
  index_of k (frame_columns rows) <> None <-> exists r, In r rows /\ In k (row_keys r).
Proof.
  unfold frame_columns. rewrite columns_from_present. cbn [index_of].
  split; [now intros [[]|Hr]|now right].
Qed.

Lemma selection_without_fetched_row rows :
  existsb fetched rows = false ->
  indices_of tle_selection (frame_columns rows)
  = Raise (KeyError match rows with [] => "norad_id" | _ => "n2yo_satname" end).
Proof.
  intros Hnone. destruct rows as [|r rows]; [reflexivity|].
  assert (Hid : index_of "norad_id" (frame_columns (r :: rows)) <> None).
  { apply frame_columns_present. exists r. split; [now left|].
    destruct r; cbn [row_keys In]; now left. }
  assert (Hname : index_of "n2yo_satname" (frame_columns (r :: rows)) = None).
  { destruct (index_of "n2yo_satname" (frame_columns (r :: rows))) eqn:Hk; [|reflexivity].
    assert (Hp : index_of "n2yo_satname" (frame_columns (r :: rows)) <> None)
      by now rewrite Hk.
    apply frame_columns_present in Hp as (r' & Hin & Hkey).
    assert (Hf : fetched r' = true).
    { destruct r'; [reflexivity|]. cbn [row_keys In] in Hkey.
      destruct Hkey as [Hkey|[Hkey|[]]]; discriminate Hkey. }
    assert (Hex : existsb fetched (r :: rows) = true)
      by (apply existsb_exists; now exists r').
    rewrite Hnone in Hex. discriminate Hex. }
  unfold tle_selection. cbn [indices_of]. rewrite Hname.
  destruct (index_of "norad_id" (frame_columns (r :: rows))); [reflexivity|now destruct Hid].
Qed.

(** X16. The frame of the rows has the columns that line 63 selects exactly
    when one fetch at least succeeded.  With no row at all, and with rows
    that are all error rows, the selection raises KeyError: the enrichment
    ends there. *)
Theorem selection_needs_a_fetched_row (rows : list tle_row) :
  (existsb fetched rows = true ->
     exists idx, indices_of tle_selection (frame_columns rows) = Return idx)
  /\ (existsb fetched rows = false ->
        exists c, indices_of tle_selection (frame_columns rows) = Raise (KeyError c)).
Proof.
  split; [|intros Hnone; eexists; now apply selection_without_fetched_row].
  intros (r & Hin & Hf)%existsb_exists.
  assert (Hall : forall k, In k tle_selection -> index_of k (frame_columns rows) <> None).
  { intros k Hk. apply frame_columns_present. exists r. split; [exact Hin|].
    destruct r; [exact Hk|discriminate Hf]. }
  unfold tle_selection in *. cbn [indices_of].
  pose proof (Hall "norad_id" ltac:(cbn; tauto)) as H1.
  pose proof (Hall "n2yo_satname" ltac:(cbn; tauto)) as H2.
  pose proof (Hall "n2yo_txn_last_60min" ltac:(cbn; tauto)) as H3.
  pose proof (Hall "tle_one_line" ltac:(cbn; tauto)) as H4.
  destruct (index_of "norad_id" (frame_columns rows)); [|now destruct H1].
  destruct (index_of "n2yo_satname" (frame_columns rows)); [|now destruct H2].
  destruct (index_of "n2yo_txn_last_60min" (frame_columns rows)); [|now destruct H3].
  destruct (index_of "tle_one_line" (frame_columns rows)); [|now destruct H4].
  cbn [bind]. eexists. reflexivity.
Qed.

(** X17. With a cache that holds none of the identifiers and a service that
    refuses every connection, each identifier costs five requests, every row
    is the error row of the refusal, no file is written, and the selection of
    line 63 raises KeyError. *)
Theorem offline_enrichment_raises (ids : list Z) (w : world) :
  service w = [] ->
  (forall nid, In nid ids -> cached client nid w = None) ->
  let run := fetch_rows client ids [] w in
  fst run = map (fun nid => Failed nid (str_exc refused)) ids
  /\ files (snd run) = files w
  /\ service (snd run) = []
  /\ (exists new, log (snd run) = log w ++ new
                  /\ requests new = (5 * length ids)%nat
                  /\ writes new = [])
  /\ exists c, indices_of tle_selection (frame_columns (fst run)) = Raise (KeyError c).
Proof.
  intros Hs Hcold run.
  assert (Hrun : fst run = map (fun nid => Failed nid (str_exc refused)) ids
                 /\ files (snd run) = files w
                 /\ service (snd run) = []
                 /\ exists new, log (snd run) = log w ++ new
                                /\ requests new = (5 * length ids)%nat
                                /\ writes new = []).
  { subst run. revert w Hs Hcold. induction ids as [|nid ids IH]; intros w Hs Hcold.
    - cbn [fetch_rows fst snd map length]. repeat split; [exact Hs|].
      exists []. now rewrite app_nil_r.
    - rewrite fetch_rows_cons.
      assert (Hrow : fetch_row client nid w
                     = (Failed nid (str_exc refused),
                        mkWorld (files w) []
                          (log w ++ retries_log (tle_url client nid) tenacity_wait 1 4
                                 ++ [Get (tle_url client nid)]))).
      { unfold fetch_row.
        now rewrite (get_tle_offline nid w Hs (Hcold nid (or_introl eq_refl))). }
      rewrite Hrow. cbn [fst snd].
      match goal with
      | |- context [fetch_rows client ids [] ?w1] =>
          destruct (IH w1) as (Hrows & Hf & Hsv & new & Hl & Hr & Hw);
            [reflexivity|intros other Hin; apply (Hcold other); now right|]
      end.
      cbn [files log] in Hf, Hl.
      split; [cbn [map]; now rewrite Hrows|]. split; [exact Hf|]. split; [exact Hsv|].
      exists ((retries_log (tle_url client nid) tenacity_wait 1 4
                 ++ [Get (tle_url client nid)]) ++ new).
      destruct (retries_log_facts client nid tenacity_wait 1 4) as (_ & Hr4 & _ & Hw4).
      rewrite Hl, !requests_app, !writes_app, Hr4, Hw4, Hr, Hw, <- !app_assoc.
      change (requests [Get (tle_url client nid)]) with 1%nat.
      cbn [writes flat_map app length]. repeat split. lia. }
  destruct Hrun as (Hrows & Hf & Hsv & Hlog).
  split; [exact Hrows|]. split; [exact Hf|]. split; [exact Hsv|]. split; [exact Hlog|].
  rewrite Hrows, selection_without_fetched_row.
  - now eexists.
  - clear. induction ids as [|nid ids IH]; [reflexivity|exact IH].
Qed.

End EnrichExtras.

(* ================================================================== *)
(** * n2yo_client.py: the key and the construction of a client *)
(* ================================================================== *)

Lemma rstrip_slash_app_slash s : rstrip_slash (s ++ "/") = rstrip_slash s.
Proof.
  induction s as [|c s IH]; [reflexivity|].
  change (String c s ++ "/")%string with (String c (s ++ "/")).
  cbn [rstrip_slash]. now rewrite IH.
Qed.

Lemma rstrip_slash_idem s : rstrip_slash (rstrip_slash s) = rstrip_slash s.
Proof.
  induction s as [|c s IH]; [reflexivity|]. cbn [rstrip_slash].
  destruct (rstrip_slash s) as [|d r] eqn:Hr.
  - destruct (Ascii.eqb c "/") eqn:Hc; [reflexivity|]. cbn [rstrip_slash]. now rewrite Hc.
  - cbn [rstrip_slash] in IH |- *. now rewrite IH.
Qed.

Lemma load_api_key_nonempty name dotenv environ k :
  fst (load_api_key name dotenv environ) = inr k -> k <> EmptyString.
Proof.
  unfold load_api_key. cbn zeta.
  destruct (load_dotenv dotenv environ !! name) as [key|]; [|discriminate].
  destruct key as [|c key]; cbn [is_empty fst]; [discriminate|].
  now intros [= <-].
Qed.

(** X18. The key is read from the environment first and from the [.env]
    file second: a variable of the environment that is not empty is
    returned whatever the file says, an empty one hides the key of the file
    and raises RuntimeError, and the file is used only when the variable is
    not set.  The key returned is never empty, and loading the file changes
    no variable that was set. *)
Theorem api_key_precedence (name : string) (dotenv environ : gmap string string) :
  let run := load_api_key name dotenv environ in
  (forall v, environ !! name = Some v ->
     fst run = if is_empty v then inl (missing_api_key name) else inr v)
  /\ (environ !! name = None ->
      fst run = match dotenv !! name with
                | Some v => if is_empty v then inl (missing_api_key name) else inr v
                | None => inl (missing_api_key name)
                end)
  /\ (forall k, fst run = inr k -> k <> EmptyString)
  /\ (forall x v, environ !! x = Some v -> snd run !! x = Some v).
Proof.
  intros run. subst run. repeat split.
  - intros v Hv. unfold load_api_key, load_dotenv. cbn zeta.
    rewrite (lookup_union_Some_l environ dotenv name v Hv). now destruct (is_empty v).
  - intros Hnone. unfold load_api_key, load_dotenv. cbn zeta.
    rewrite (lookup_union_r environ dotenv name Hnone).
    destruct (dotenv !! name) as [v|]; [|reflexivity]. now destruct (is_empty v).
  - apply load_api_key_nonempty.
  - intros x v Hx.
    assert (Hsnd : snd (load_api_key name dotenv environ) = load_dotenv dotenv environ).
    { unfold load_api_key. cbn zeta.
      destruct (load_dotenv dotenv environ !! name) as [key|]; [|reflexivity].
      now destruct (is_empty key). }
    rewrite Hsnd. now apply lookup_union_Some_l.
Qed.

(** X19. A client that was constructed has a key that is not empty and a
    base address without a slash at its end, so the address of a request
    never has two slashes before [tle]; a key that is given and not empty
    is used as it is, with the environment left alone; and slashes at the
    end of the base address make no difference to the client. *)
Theorem constructed_client (key : option string) (url dir : string) (delay : Q)
    (dotenv environ environ' : gmap string string) (client : N2YOClient) :
  init key url dir delay dotenv environ = (inr client, environ') ->
  api_key client <> EmptyString
  /\ rstrip_slash (base_url client) = base_url client
  /\ (forall nid,
        tle_url client nid
        = (rstrip_slash url ++ "/tle/" ++ decimal nid ++ "&apiKey=" ++ api_key client)%string)
  /\ (forall k, key = Some k -> k <> EmptyString ->
        api_key client = k /\ environ' = environ)
  /\ init key (url ++ "/") dir delay dotenv environ = (inr client, environ').
Proof.
  intros Hinit. unfold init in Hinit |- *. cbn zeta in Hinit |- *.
  rewrite rstrip_slash_app_slash.
  set (loaded := match key with
                 | Some k => if is_empty k then load_api_key "N2YO_API_KEY" dotenv environ
                             else (inr k, environ)
                 | None => load_api_key "N2YO_API_KEY" dotenv environ
                 end) in *.
  assert (Hkey : forall k e, loaded = (inr k, e) -> k <> EmptyString).
  { intros k e Hl. subst loaded. destruct key as [k0|].
    - destruct k0 as [|c k0]; cbn [is_empty] in Hl.
      + apply (load_api_key_nonempty "N2YO_API_KEY" dotenv environ). now rewrite Hl.
      + now injection Hl as <- _.
    - apply (load_api_key_nonempty "N2YO_API_KEY" dotenv environ). now rewrite Hl. }
  destruct loaded as [[e|k] env1] eqn:Hl; [discriminate Hinit|].
  injection Hinit as <- <-. cbn [api_key base_url].
  split; [exact (Hkey k env1 eq_refl)|]. split; [apply rstrip_slash_idem|].
  split; [reflexivity|]. split; [|reflexivity].
  intros k0 -> Hk0. subst loaded. destruct k0 as [|c k0]; [now destruct Hk0|].
  cbn [is_empty] in Hl. now injection Hl as <- <-.
Qed.

(* ================================================================== *)
(** * enrich_unoosa.py: the identifiers that are fetched *)
(* ================================================================== *)

Lemma in_drop_duplicates z l : In z (drop_duplicates l) <-> In z l.
Proof.
  induction l as [|x l IH]; [reflexivity|]. cbn [drop_duplicates In].
  rewrite filter_In, IH. destruct (Z.eqb_spec z x) as [->|Hne]; cbn [negb].
  - split; intros _; now left.
  - split.
    + intros [Hx|[Hin _]]; [now left|now right].
    + intros [Hx|Hin]; [now left|right; now split].
Qed.

Lemma NoDup_filter_bool (f : Z -> bool) l : NoDup l -> NoDup (List.filter f l).
Proof.
  induction 1 as [|x l Hx Hl IH]; cbn [List.filter]; [constructor|].
  destruct (f x); [|exact IH]. constructor; [|exact IH].
  rewrite list_elem_of_In, filter_In. intros [Hin _]. apply Hx. now apply list_elem_of_In.
Qed.

Lemma NoDup_drop_duplicates l : NoDup (drop_duplicates l).
Proof.
  induction l as [|x l IH]; cbn [drop_duplicates]; constructor.
  - rewrite list_elem_of_In, filter_In. intros [_ Hf]. now rewrite Z.eqb_refl in Hf.
  - now apply NoDup_filter_bool.
Qed.

Lemma drop_duplicates_snoc l z :
  drop_duplicates (l ++ [z])
  = drop_duplicates l ++ (if existsb (Z.eqb z) l then [] else [z]).
Proof.
  induction l as [|x l IH]; [reflexivity|].
  cbn [app drop_duplicates existsb]. rewrite IH, List.filter_app. f_equal. f_equal.
  destruct (Z.eqb_spec z x) as [->|Hne]; cbn [orb].
  - destruct (existsb (Z.eqb x) l); cbn [List.filter]; [reflexivity|].
    now rewrite Z.eqb_refl.
  - destruct (existsb (Z.eqb z) l); cbn [List.filter]; [reflexivity|].
    destruct (Z.eqb_spec z x); [contradiction|reflexivity].
Qed.

Lemma fetch_rows_ids `{Payload} client ids w :
  map row_id (fst (fetch_rows client ids [] w)) = ids.
Proof.
  revert w. induction ids as [|nid ids IH]; intros w; [reflexivity|].
  rewrite fetch_rows_cons. cbn [fst map]. now rewrite fetch_row_id, IH.
Qed.

(** X20. Every identifier is fetched once.  The identifiers of the loop
    are those of the column, [pd.NA] apart, without repetition and in the
    order in which they first occur; so the frame of the fetched rows has
    one row for each identifier of the column, however many external rows
    resolved to it. *)
Theorem each_identifier_is_fetched_once `{Payload} (client : N2YOClient)
    (norad_id : list (option Z)) (w : world) :
  NoDup (unique_ids norad_id)
  /\ (forall z, In z (unique_ids norad_id) <-> In (Some z) norad_id)
  /\ (forall c,
        unique_ids (norad_id ++ [c])
        = unique_ids norad_id
            ++ match c with
               | Some z => if existsb (Z.eqb z) (unique_ids norad_id) then [] else [z]
               | None => []
               end)
  /\ NoDup (map row_id (fst (fetch_rows client (unique_ids norad_id) [] w)))
  /\ (forall z, In z (map row_id (fst (fetch_rows client (unique_ids norad_id) [] w)))
                <-> In (Some z) norad_id).
Proof.
  assert (Hin : forall z, In z (unique_ids norad_id) <-> In (Some z) norad_id).
  { intros z. unfold unique_ids. rewrite in_drop_duplicates, <- !list_elem_of_In.
    rewrite list_elem_of_omap. split.
    - intros (c & Hc & Hz). now subst c.
    - intros Hz. now exists (Some z). }
  rewrite fetch_rows_ids.
  split; [apply NoDup_drop_duplicates|]. split; [exact Hin|].
  split; [|split; [apply NoDup_drop_duplicates|exact Hin]].
  intros c. unfold unique_ids. rewrite omap_app. destruct c as [z|]; cbn [omap].
  - cbn. rewrite drop_duplicates_snoc.
    assert (Hmem : existsb (Z.eqb z) (omap (fun c => c) norad_id)
                   = existsb (Z.eqb z) (drop_duplicates (omap (fun c => c) norad_id))).
    { apply eq_true_iff_eq. rewrite !existsb_exists. split.
      - intros (y & Hy & Hzy). exists y.
        split; [exact (proj2 (in_drop_duplicates _ _) Hy)|exact Hzy].
      - intros (y & Hy & Hzy). exists y.
        split; [exact (proj1 (in_drop_duplicates _ _) Hy)|exact Hzy]. }
    now rewrite Hmem.
  - cbn. now rewrite !app_nil_r.
Qed.

(* ================================================================== *)
(** * Concrete instances *)
(* ================================================================== *)

Lemma sleep_budget_witness :
  exists new,
    log (snd (@get_tle braces_json sample_client 25544 flaky_world))
    = log flaky_world ++ new
    /\ (total (backoffs new) <= 15)%Q.
Proof.
  assert (Hdelay : (0 <= polite_delay_seconds sample_client)%Q) by (vm_compute; discriminate).
  pose proof (sleep_budget (H:=braces_json) sample_client 25544 flaky_world Hdelay) as Hrun.
  cbv zeta in Hrun. destruct Hrun as (new & Hl & Hb & _).
  exists new. split; assumption.
Defined.

Lemma first_accepted_answer_wins_witness :
  fst (@get_tle braces_json sample_client 25544 flaky_world) = Return "{tle}"%string.
Proof.
  rewrite (proj1 (first_accepted_answer_wins (H:=braces_json) sample_client 25544
                    flaky_world eq_refl)
             [NoResponse "timed out"; Response 503 "busy"] (Response 200 "{tle}") []
             "{tle}"%string eq_refl
             ltac:(repeat constructor) ltac:(cbn; lia) eq_refl).
  reflexivity.
Defined.

Lemma crosswalk_is_well_formed_witness :
  columns sample_crosswalk = crosswalk_columns /\ frame_ok sample_crosswalk.
Proof.
  destruct (crosswalk_is_well_formed (H:=decimal_parser) sample_catalog 0 1 sample_crosswalk
              eq_refl eq_refl eq_refl eq_refl eq_refl) as (Hc & Hok & _).
  split; assumption.
Defined.


Lemma identity_resolution_witness :
  exists out,
    merge_unoosa_with_crosswalk sample_unoosa sample_crosswalk default_intldes_col
    = Return out.
Proof.
  destruct (identity_resolution (H:=decimal_parser) sample_catalog 0 1 sample_crosswalk
              sample_unoosa default_intldes_col 0
              eq_refl eq_refl eq_refl eq_refl eq_refl eq_refl eq_refl eq_refl)
    as (out & _ & _ & _ & _ & Hout & _).
  now exists out.
Defined.

Lemma merge_key_errors_witness :
  merge_unoosa_with_crosswalk sample_unoosa sample_unoosa default_intldes_col
  = Raise (KeyError "INTLDES").
Proof.
  exact (proj1 (merge_key_errors sample_unoosa sample_unoosa default_intldes_col 0 eq_refl)
           eq_refl).
Defined.

Lemma merged_frame_shape_witness :
  exists out,
    merge_unoosa_with_crosswalk sample_unoosa sample_crosswalk default_intldes_col
    = Return out
    /\ columns out
       = ["international_designator"; "state"; "intldes"; "norad_id"; "satcat_satname";
          "COUNTRY"; "LAUNCH"; "DECAY"].
Proof.
  destruct (merged_frame_shape sample_unoosa sample_crosswalk default_intldes_col 0
              eq_refl eq_refl eq_refl eq_refl eq_refl) as (out & Hout & Hcols & _).
  exists out. split; assumption.
Defined.

Lemma normalization_ignores_case_and_blanks_witness :
  normalize_intldes [Str "1998- 067a"] = normalize_intldes [Str "1998-067a"].
Proof.
  exact (proj1 (normalization_ignores_case_and_blanks "1998-" " " "067a" [] eq_refl)).
Defined.

Lemma parse_reads_first_two_nonblank_lines_witness :
  @parse_tle_fields real_floats fixed_clock line_number_parser
    (PyStr (join CRLF ["1 25544U 98067A"; "   "; "  2 25544  51.6400"; "3 more"]))
  = @derive_features real_floats fixed_clock sample_satrec.
Proof.
  exact (@parse_reads_first_two_nonblank_lines real_floats fixed_clock line_number_parser
           CRLF ["1 25544U 98067A"; "   "; "  2 25544  51.6400"; "3 more"]
           (or_intror eq_refl) ltac:(repeat constructor)).
Defined.

Lemma degenerate_motion_gives_nan_witness :
  exists d,
    @derive_features real_floats fixed_clock still_satrec = Return d
    /\ dict_get "period_min" d = Some (VFloat nan).
Proof.
  destruct (@degenerate_motion_gives_nan fixed_clock still_satrec "2024-01-01T12:00:00+00:00"
              (or_intror eq_refl) eq_refl) as (d & Hd & _ & _ & Hp & _).
  exists d. split; assumption.
Defined.


Lemma warm_cache_needs_no_network_witness :
  snd (@fetch_rows braces_json braces_payload sample_client [25544%Z] [] warm_world)
  = warm_world.
Proof.
  apply (@warm_cache_needs_no_network braces_json braces_payload sample_client
           [25544%Z] warm_world).
  intros nid [<-|[]]. vm_compute. discriminate.
Defined.

Lemma offline_enrichment_raises_witness :
  fst (@fetch_rows braces_json braces_payload sample_client [25544%Z] [] silent_world)
  = [Failed 25544 "RetryError"].
Proof.
  apply (@offline_enrichment_raises braces_json braces_payload sample_client
           [25544%Z] silent_world eq_refl).
  intros nid _. reflexivity.
Defined.

Lemma constructed_client_witness :
  api_key sample_client <> EmptyString
  /\ init (Some "KEY") "https://api.n2yo.com/rest/v1/satellite//" "cache_tle" (1 # 4) ∅ ∅
     = (inr sample_client, ∅).
Proof.
  destruct (constructed_client (Some "KEY") "https://api.n2yo.com/rest/v1/satellite/"
              "cache_tle" (1 # 4) ∅ ∅ ∅ sample_client eq_refl)
    as (Hkey & _ & _ & _ & Hslash).
  split; [exact Hkey|exact Hslash].
Defined.
